(** * RMAP client scripts: a shallow embedding and its properties

    The repository holds four Python scripts that run the same handshake
    against a remote peer:

      - [fixed_rmap_client.py]
      - [rmap_client_test.py]
      - [rmap_client_pdf_getting.py]
      - [test_group_rmap.py]

    Each script seals a JSON mapping to the peer's OpenPGP key, posts it,
    opens the peer's answer with the own private key, compares nonces,
    posts a second sealed mapping and downloads a PDF with the link token
    it gets back.

    The embedding has three layers.

      - Python values and the library calls the scripts make on them:
        [json.dumps] with [sort_keys=True] and [separators=(",", ":")],
        [json.loads], [base64.b64encode] / [base64.b64decode],
        [str.encode], [int()].  These are written out in full.
      - OpenPGP (PGPy) and the outside world (key files, random numbers,
        the HTTP peer, the file written at the end).  The cipher is a
        record of operations, the world a record of oracles; every effect
        is appended to a trace.
      - The scripts, one module per file, in a state-and-exception monad.

    Python floats are outside the embedding: a number literal with a
    fraction or an exponent makes the model stop with [Unmodelled]. *)

From Stdlib Require Import ZArith NArith List Lia Bool String Ascii.
From Stdlib Require Import Decimal DecimalZ DecimalN DecimalPos DecimalFacts.
From stdpp Require Import base option list sorting.

Set Warnings "-register-all".
Local Open Scope N_scope.

(** ** Text, bytes and exceptions *)

(** A Python [str] is a sequence of code points, a [bytes] object a
    sequence of octets. *)
Definition str := list N.
Definition bytes := list N.

Definition lit (s : string) : str := map N_of_ascii (list_ascii_of_string s).

(** Code points of a well-formed [str] lie below 0x110000. *)
Definition str_ok (s : str) : Prop := Forall (fun c => c < 0x110000) s.

(** Exception classes the scripts can meet.  All of them derive from
    [Exception]; [SystemExit] does not, so [except Exception] lets it
    through. *)
Inductive exn_class :=
  | TypeError | ValueError | KeyError | AttributeError | JSONDecodeError
  | BinasciiError | UnicodeError | PGPError | RequestError | HTTPError
  | OSError | PlainException.

Inductive exn :=
  | Exception (c : exn_class)
  | SystemExit (code : Z)
  | Unmodelled.

Inductive res (A : Type) :=
  | Ret (a : A)
  | Raise (e : exn).
Arguments Ret {A} a.
Arguments Raise {A} e.

#[export] Instance res_ret : MRet res := fun _ a => Ret a.
#[export] Instance res_bind : MBind res := fun _ _ f m =>
  match m with Ret a => f a | Raise e => Raise e end.
#[export] Instance res_fmap : FMap res := fun _ _ f m =>
  match m with Ret a => Ret (f a) | Raise e => Raise e end.

Definition is_ret {A} (r : res A) : bool :=
  match r with Ret _ => true | Raise _ => false end.

(** ** Python objects that JSON can carry *)

Inductive pykey :=
  | KStr (s : str)
  | KInt (z : Z).

(** A [dict] keeps its items in insertion order; its keys are pairwise
    different. *)
Inductive pyobj :=
  | PyNone
  | PyBool (b : bool)
  | PyInt (z : Z)
  | PyStr (s : str)
  | PyList (l : list pyobj)
  | PyDict (d : list (pykey * pyobj)).

#[export] Instance pykey_eq_dec : EqDecision pykey.
Proof. solve_decision. Defined.

Definition dict_get {A} (d : list (pykey * A)) (k : pykey) : option A :=
  snd <$> List.find (fun kv => bool_decide (fst kv = k)) d.

(** [d[k] = v]: an existing key keeps its place, a new one goes last. *)
Fixpoint dict_set {A} (d : list (pykey * A)) (k : pykey) (v : A)
  : list (pykey * A) :=
  match d with
  | [] => [(k, v)]
  | (k', v') :: t =>
      if bool_decide (k' = k) then (k', v) :: t else (k', v') :: dict_set t k v
  end.

(** [dict(pairs)] *)
Definition dict_of_pairs {A} (ps : list (pykey * A)) : list (pykey * A) :=
  fold_left (fun d kv => dict_set d (fst kv) (snd kv)) ps [].

(** Python's [==] on these objects.  [bool] is a subclass of [int], so
    [True == 1]; dicts compare as mappings, whatever the order of
    insertion. *)
Definition bool_int (b : bool) : Z := if b then 1%Z else 0%Z.

Fixpoint py_eq (a b : pyobj) : bool :=
  match a, b with
  | PyNone, PyNone => true
  | PyBool x, PyBool y => Bool.eqb x y
  | PyBool x, PyInt y => Z.eqb (bool_int x) y
  | PyInt x, PyBool y => Z.eqb x (bool_int y)
  | PyInt x, PyInt y => Z.eqb x y
  | PyStr x, PyStr y => bool_decide (x = y)
  | PyList x, PyList y =>
      (fix go (x y : list pyobj) : bool :=
         match x, y with
         | [], [] => true
         | a :: x', b :: y' => py_eq a b && go x' y'
         | _, _ => false
         end) x y
  | PyDict x, PyDict y =>
      Nat.eqb (length x) (length y) &&
      (fix go (x : list (pykey * pyobj)) : bool :=
         match x with
         | [] => true
         | (k, v) :: x' =>
             match dict_get y k with
             | Some w => py_eq v w && go x'
             | None => false
             end
         end) x
  | _, _ => false
  end.

(** Every dict inside the object has pairwise different keys and every
    string is a well-formed [str]. *)
Definition key_ok (k : pykey) : Prop :=
  match k with KStr s => str_ok s | KInt _ => True end.

Inductive obj_ok : pyobj -> Prop :=
  | ok_none : obj_ok PyNone
  | ok_bool b : obj_ok (PyBool b)
  | ok_int z : obj_ok (PyInt z)
  | ok_str s : str_ok s -> obj_ok (PyStr s)
  | ok_list l : Forall obj_ok l -> obj_ok (PyList l)
  | ok_dict d :
      NoDup (map fst d) ->
      Forall (fun kv => key_ok (fst kv) /\ obj_ok (snd kv)) d ->
      obj_ok (PyDict d).

(** ** [json.dumps(obj, separators=(",", ":"), sort_keys=True)] *)

Module Json.

Definition hexdigit (n : N) : N :=
  if n <? 10 then 48 + n else 87 + n.

(** ['\\u{0:04x}'.format(n)] without the backslash *)
Definition u_escape (n : N) : str :=
  [117; hexdigit (N.land (N.shiftr n 12) 15);
        hexdigit (N.land (N.shiftr n 8) 15);
        hexdigit (N.land (N.shiftr n 4) 15);
        hexdigit (N.land n 15)].

(** One character of [encode_basestring_ascii]: printable ASCII other
    than the quote and the backslash is copied, the rest is escaped;
    code points above the BMP become a surrogate pair. *)
Definition escape_char (c : N) : str :=
  if (32 <=? c) && (c <=? 126) && negb (c =? 92) && negb (c =? 34) then [c]
  else if c =? 92 then [92; 92]
  else if c =? 34 then [92; 34]
  else if c =? 8 then [92; 98]
  else if c =? 12 then [92; 102]
  else if c =? 10 then [92; 110]
  else if c =? 13 then [92; 114]
  else if c =? 9 then [92; 116]
  else if 0x10000 <=? c then
    92 :: u_escape (0xd800 - 0x40 + N.shiftr c 10)
       ++ 92 :: u_escape (0xdc00 + N.land c 0x3ff)
  else 92 :: u_escape c.

Definition encode_basestring_ascii (s : str) : str :=
  34 :: concat (map escape_char s) ++ [34].

Fixpoint uint_chars (u : Decimal.uint) : str :=
  match u with
  | Decimal.Nil => []
  | Decimal.D0 u => 48 :: uint_chars u
  | Decimal.D1 u => 49 :: uint_chars u
  | Decimal.D2 u => 50 :: uint_chars u
  | Decimal.D3 u => 51 :: uint_chars u
  | Decimal.D4 u => 52 :: uint_chars u
  | Decimal.D5 u => 53 :: uint_chars u
  | Decimal.D6 u => 54 :: uint_chars u
  | Decimal.D7 u => 55 :: uint_chars u
  | Decimal.D8 u => 56 :: uint_chars u
  | Decimal.D9 u => 57 :: uint_chars u
  end.

(** [int.__repr__] *)
Definition repr_int (z : Z) : str :=
  match Z.to_int z with
  | Decimal.Pos u => uint_chars u
  | Decimal.Neg u => 45 :: uint_chars u
  end.

(** A key as the encoder writes it: a [str] key is escaped, an [int]
    key is printed and quoted. *)
Definition encode_key (k : pykey) : str :=
  match k with
  | KStr s => encode_basestring_ascii s
  | KInt z => 34 :: repr_int z ++ [34]
  end.

(** Order of [str] objects: code point by code point. *)
Fixpoint str_leb (a b : str) : bool :=
  match a, b with
  | [], _ => true
  | _ :: _, [] => false
  | x :: a', y :: b' => (x <? y) || ((x =? y) && str_leb a' b')
  end.

Definition key_leb (a b : pykey) : bool :=
  match a, b with
  | KStr x, KStr y => str_leb x y
  | KInt x, KInt y => Z.leb x y
  | KStr _, KInt _ => true
  | KInt _, KStr _ => false
  end.

Definition item_le {A} (a b : pykey * A) : Prop := key_leb (fst a) (fst b) = true.

#[global] Instance item_le_dec {A} (a b : pykey * A) : Decision (item_le a b).
Proof. unfold item_le. apply _. Defined.

Definition is_kstr (k : pykey) : bool :=
  match k with KStr _ => true | KInt _ => false end.

(** [sorted(dct.items())].  Items are compared by key, as the keys of
    a dict differ; comparing a [str] with an [int] raises [TypeError],
    which a sort of two or more items cannot avoid when both kinds of
    key are present. *)
Definition sort_items {A} (items : list (pykey * A)) : res (list (pykey * A)) :=
  if forallb (fun kv => is_kstr (fst kv)) items
     || forallb (fun kv => negb (is_kstr (fst kv))) items
  then Ret (merge_sort item_le items)
  else Raise (Exception TypeError).

Fixpoint join (sep : str) (chunks : list str) : str :=
  match chunks with
  | [] => []
  | [c] => c
  | c :: cs => c ++ sep ++ join sep cs
  end.

Fixpoint sequence {A} (l : list (res A)) : res (list A) :=
  match l with
  | [] => Ret []
  | x :: t => a ← x; r ← sequence t; Ret (a :: r)
  end.

Definition encode_item (kv : pykey * str) : str :=
  encode_key (fst kv) ++ 58 :: snd kv.

(** The encoder.  The values of a dict are encoded where they stand and
    the encoded items are then put in key order: the order depends on
    the keys alone, so this is the text the encoder writes when it
    sorts first. *)
Fixpoint encode (o : pyobj) : res str :=
  match o with
  | PyNone => Ret (lit "null")
  | PyBool true => Ret (lit "true")
  | PyBool false => Ret (lit "false")
  | PyInt z => Ret (repr_int z)
  | PyStr s => Ret (encode_basestring_ascii s)
  | PyList l =>
      chunks ← sequence (map encode l);
      Ret (91 :: join [44] chunks ++ [93])
  | PyDict d =>
      sorted ← sort_items (map (fun kv => (fst kv, encode (snd kv))) d);
      chunks ← sequence (map (fun kc => c ← snd kc; Ret (encode_item (fst kc, c))) sorted);
      Ret (123 :: join [44] chunks ++ [125])
  end.

Definition dumps (o : pyobj) : res str := encode o.

(** *** [json.loads]

    The scanner follows CPython's accelerated one ([_json.c]), which is
    what [json.loads] runs.  Recursion is on a fuel that [loads] sets
    from the length of the text; every call that uses fuel has
    consumed a character. *)

Definition bad {A} : res A := Raise (Exception JSONDecodeError).

Definition is_ws (c : N) : bool :=
  (c =? 32) || (c =? 9) || (c =? 10) || (c =? 13).

Fixpoint skip_ws (s : str) : str :=
  match s with
  | c :: r => if is_ws c then skip_ws r else s
  | [] => []
  end.

Definition is_digit (c : N) : bool := (48 <=? c) && (c <=? 57).

Definition hexval (c : N) : option N :=
  if (48 <=? c) && (c <=? 57) then Some (c - 48)
  else if (97 <=? c) && (c <=? 102) then Some (c - 87)
  else if (65 <=? c) && (c <=? 70) then Some (c - 55)
  else None.

(** Four hex digits at the head of [s]. *)
Definition hex4 (s : str) : option (N * str) :=
  match s with
  | a :: b :: c :: d :: r =>
      a ← hexval a; b ← hexval b; c ← hexval c; d ← hexval d;
      Some (a * 4096 + b * 256 + c * 16 + d, r)
  | _ => None
  end.

Definition backslash (c : N) : option N :=
  if c =? 34 then Some 34
  else if c =? 92 then Some 92
  else if c =? 47 then Some 47
  else if c =? 98 then Some 8
  else if c =? 102 then Some 12
  else if c =? 110 then Some 10
  else if c =? 114 then Some 13
  else if c =? 116 then Some 9
  else None.

Definition is_high (c : N) : bool := (0xd800 <=? c) && (c <=? 0xdbff).
Definition is_low (c : N) : bool := (0xdc00 <=? c) && (c <=? 0xdfff).

(** [Py_UNICODE_JOIN_SURROGATES] *)
Definition join_surrogates (hi lo : N) : N :=
  0x10000 + N.lor (N.shiftl (N.land hi 0x3ff) 10) (N.land lo 0x3ff).

(** [scanstring_unicode] in strict mode, from the character after the
    opening quote.  An escape [\uXXXX] must be followed by at least one
    more character; a high surrogate is joined with a following
    [\uXXXX] escape that holds a low one, when that escape too is
    followed by a character. *)
Fixpoint scanstring (fuel : nat) (s : str) : res (str * str) :=
  match fuel with
  | O => Raise Unmodelled
  | S fuel =>
      match s with
      | [] => bad
      | c :: r =>
          if c =? 34 then Ret ([], r)
          else if c =? 92 then
            match r with
            | [] => bad
            | e :: r1 =>
                if e =? 117 then
                  match hex4 r1 with
                  | Some (uni, (_ :: _) as r2) =>
                      match r2 with
                      | 92 :: 117 :: r3 =>
                          if is_high uni && (7 <=? length r2)%nat then
                            match hex4 r3 with
                            | Some (uni2, r4) =>
                                if is_low uni2
                                then '(t, rest) ← scanstring fuel r4;
                                     Ret (join_surrogates uni uni2 :: t, rest)
                                else '(t, rest) ← scanstring fuel r2;
                                     Ret (uni :: t, rest)
                            | None => bad
                            end
                          else '(t, rest) ← scanstring fuel r2;
                               Ret (uni :: t, rest)
                      | _ => '(t, rest) ← scanstring fuel r2;
                             Ret (uni :: t, rest)
                      end
                  | _ => bad
                  end
                else
                  match backslash e with
                  | Some ch => '(t, rest) ← scanstring fuel r1; Ret (ch :: t, rest)
                  | None => bad
                  end
            end
          else if c <=? 31 then bad
          else '(t, rest) ← scanstring fuel r; Ret (c :: t, rest)
      end
  end.

Fixpoint span_digits (s : str) : str * str :=
  match s with
  | c :: r => if is_digit c then let '(d, r') := span_digits r in (c :: d, r')
              else ([], s)
  | [] => ([], [])
  end.

Fixpoint uint_of_chars (s : str) : Decimal.uint :=
  match s with
  | [] => Decimal.Nil
  | c :: r =>
      let u := uint_of_chars r in
      if c =? 48 then Decimal.D0 u else if c =? 49 then Decimal.D1 u
      else if c =? 50 then Decimal.D2 u else if c =? 51 then Decimal.D3 u
      else if c =? 52 then Decimal.D4 u else if c =? 53 then Decimal.D5 u
      else if c =? 54 then Decimal.D6 u else if c =? 55 then Decimal.D7 u
      else if c =? 56 then Decimal.D8 u else Decimal.D9 u
  end.

(** What follows the integer part makes the literal a float: a point
    and a digit, or an exponent mark, an optional sign and a digit. *)
Definition float_tail (s : str) : bool :=
  match s with
  | 46 :: d :: _ => is_digit d
  | e :: r =>
      ((e =? 101) || (e =? 69)) &&
      match r with
      | d :: r' =>
          is_digit d ||
          (((d =? 43) || (d =? 45)) &&
           match r' with d' :: _ => is_digit d' | [] => false end)
      | [] => false
      end
  | [] => false
  end.

(** [_match_number_unicode]: an optional minus, then a lone zero or a
    digit from 1 to 9 and the digits after it. *)
Definition match_number (s : str) : res (pyobj * str) :=
  let '(neg, s1) := match s with 45 :: r => (true, r) | _ => (false, s) end in
  match s1 with
  | c :: r =>
      let '(digits, rest) :=
        if (49 <=? c) && (c <=? 57)
        then let '(d, r') := span_digits r in (c :: d, r')
        else if c =? 48 then ([48], r)
        else ([], s1) in
      match digits with
      | [] => bad
      | _ =>
          if float_tail rest then Raise Unmodelled
          else
            let n := Z.of_N (N.of_uint (uint_of_chars digits)) in
            Ret (PyInt (if neg then (- n)%Z else n), rest)
      end
  | [] => bad
  end.

Fixpoint strip_prefix (p s : str) : option str :=
  match p, s with
  | [], _ => Some s
  | a :: p', b :: s' => if a =? b then strip_prefix p' s' else None
  | _ :: _, [] => None
  end.

Definition starts_with (p s : str) : bool :=
  match strip_prefix p s with Some _ => true | None => false end.

(** The constants that [json.loads] reads as floats. *)
Definition float_constant (s : str) : bool :=
  starts_with (lit "NaN") s || starts_with (lit "Infinity") s
  || starts_with (lit "-Infinity") s.

(** The element loop of [_parse_array_unicode], entered at the first
    element. *)
Fixpoint array_items (scan : str -> res (pyobj * str)) (fuel : nat) (s : str)
  : res (list pyobj * str) :=
  match fuel with
  | O => Raise Unmodelled
  | S fuel =>
      '(v, r) ← scan s;
      match skip_ws r with
      | 93 :: r' => Ret ([v], r')
      | 44 :: r' =>
          '(vs, r'') ← array_items scan fuel (skip_ws r');
          Ret (v :: vs, r'')
      | _ => bad
      end
  end.

(** The member loop of [_parse_object_unicode], entered at the first
    key; it yields the pairs in the order read. *)
Fixpoint object_items (scan : str -> res (pyobj * str)) (fuel : nat) (s : str)
  : res (list (pykey * pyobj) * str) :=
  match fuel with
  | O => Raise Unmodelled
  | S fuel =>
      match s with
      | 34 :: r =>
          '(k, r1) ← scanstring (S (length r)) r;
          match skip_ws r1 with
          | 58 :: r2 =>
              '(v, r3) ← scan (skip_ws r2);
              match skip_ws r3 with
              | 125 :: r4 => Ret ([(KStr k, v)], r4)
              | 44 :: r4 =>
                  '(kvs, r5) ← object_items scan fuel (skip_ws r4);
                  Ret ((KStr k, v) :: kvs, r5)
              | _ => bad
              end
          | _ => bad
          end
      | _ => bad
      end
  end.

(** [scan_once_unicode] *)
Fixpoint scan_once (fuel : nat) (s : str) : res (pyobj * str) :=
  match fuel with
  | O => Raise Unmodelled
  | S fuel =>
      match s with
      | [] => bad
      | c :: r =>
          if c =? 34 then
            '(t, rest) ← scanstring (S (length r)) r; Ret (PyStr t, rest)
          else if c =? 123 then
            match skip_ws r with
            | 125 :: r' => Ret (PyDict [], r')
            | r' =>
                '(kvs, rest) ← object_items (scan_once fuel) (S (length r')) r';
                Ret (PyDict (dict_of_pairs kvs), rest)
            end
          else if c =? 91 then
            match skip_ws r with
            | 93 :: r' => Ret (PyList [], r')
            | r' =>
                '(vs, rest) ← array_items (scan_once fuel) (S (length r')) r';
                Ret (PyList vs, rest)
            end
          else
            match strip_prefix (lit "null") s, strip_prefix (lit "true") s,
                  strip_prefix (lit "false") s with
            | Some rest, _, _ => Ret (PyNone, rest)
            | _, Some rest, _ => Ret (PyBool true, rest)
            | _, _, Some rest => Ret (PyBool false, rest)
            | _, _, _ =>
                if float_constant s then Raise Unmodelled
                else match_number s
            end
      end
  end.

(** [json.loads(s)] for a [str]: no byte order mark, one value with
    white space around it, nothing after. *)
Definition loads (s : str) : res pyobj :=
  match s with
  | 0xfeff :: _ => bad
  | _ =>
      '(v, rest) ← scan_once (S (length s)) (skip_ws s);
      match skip_ws rest with
      | [] => Ret v
      | _ => bad
      end
  end.

End Json.

(** ** [base64.b64encode] and [base64.b64decode] *)

Module Base64.

(** [table_b2a_base64] *)
Definition b2a_char (i : N) : N :=
  if i <? 26 then 65 + i
  else if i <? 52 then 71 + i
  else if i <? 62 then i - 4
  else if i =? 62 then 43
  else 47.

(** [table_a2b_base64]; [None] stands for the entries that are not a
    value below 64. *)
Definition a2b_char (c : N) : option N :=
  if (65 <=? c) && (c <=? 90) then Some (c - 65)
  else if (97 <=? c) && (c <=? 122) then Some (c - 71)
  else if (48 <=? c) && (c <=? 57) then Some (c + 4)
  else if c =? 43 then Some 62
  else if c =? 47 then Some 63
  else None.

(** [binascii.b2a_base64(s, newline=False)]: six bits at a time, that
    is four characters for three octets, padded at the end. *)
Fixpoint b2a_base64 (s : bytes) : bytes :=
  match s with
  | a :: b :: c :: r =>
      b2a_char (N.shiftr a 2)
      :: b2a_char (N.lor (N.shiftl (N.land a 3) 4) (N.shiftr b 4))
      :: b2a_char (N.lor (N.shiftl (N.land b 15) 2) (N.shiftr c 6))
      :: b2a_char (N.land c 63)
      :: b2a_base64 r
  | [a; b] =>
      [b2a_char (N.shiftr a 2);
       b2a_char (N.lor (N.shiftl (N.land a 3) 4) (N.shiftr b 4));
       b2a_char (N.shiftl (N.land b 15) 2); 61]
  | [a] =>
      [b2a_char (N.shiftr a 2); b2a_char (N.shiftl (N.land a 3) 4); 61; 61]
  | [] => []
  end.

Definition b64encode (s : bytes) : bytes := b2a_base64 s.

(** [binascii.a2b_base64(s, strict_mode=False)].  [quad_pos] counts the
    characters of the current group, [leftchar] holds the bits not yet
    written, [pads] the padding characters seen since the last data
    character.  Characters outside the alphabet are skipped; padding
    that completes a group ends the decoding, whatever follows. *)
Fixpoint a2b_base64 (s : bytes) (quad_pos : nat) (leftchar : N) (pads : nat)
  : res bytes :=
  match s with
  | [] =>
      match quad_pos with
      | O => Ret []
      | _ => Raise (Exception BinasciiError)
      end
  | c :: r =>
      if c =? 61 then
        if (2 <=? quad_pos)%nat then
          if (4 <=? quad_pos + S pads)%nat then Ret []
          else a2b_base64 r quad_pos leftchar (S pads)
        else a2b_base64 r quad_pos leftchar pads
      else
        match a2b_char c with
        | None => a2b_base64 r quad_pos leftchar pads
        | Some v =>
            match quad_pos with
            | 0%nat => a2b_base64 r 1 v 0
            | 1%nat =>
                cons (N.lor (N.shiftl leftchar 2) (N.shiftr v 4))
                  <$> a2b_base64 r 2 (N.land v 15) 0
            | 2%nat =>
                cons (N.lor (N.shiftl leftchar 4) (N.shiftr v 2))
                  <$> a2b_base64 r 3 (N.land v 3) 0
            | _ =>
                cons (N.lor (N.shiftl leftchar 6) v)
                  <$> a2b_base64 r 0 0 0
            end
        end
  end.

(** [base64.b64decode(s)] for what the scripts pass: a [str] must be
    ASCII, an object that is neither text nor bytes is a [TypeError]. *)
Definition b64decode (s : pyobj) : res bytes :=
  match s with
  | PyStr t =>
      if forallb (fun c => c <? 128) t then a2b_base64 t 0 0 0
      else Raise (Exception ValueError)
  | _ => Raise (Exception TypeError)
  end.

End Base64.

(** ** [str.encode()], [bytes.decode()], [int()] and [str()] *)

Definition is_surrogate (c : N) : bool := (0xd800 <=? c) && (c <=? 0xdfff).

Definition utf8_char (c : N) : res bytes :=
  if c <? 0x80 then Ret [c]
  else if c <? 0x800 then
    Ret [N.lor 0xc0 (N.shiftr c 6); N.lor 0x80 (N.land c 0x3f)]
  else if c <? 0x10000 then
    if is_surrogate c then Raise (Exception UnicodeError)
    else Ret [N.lor 0xe0 (N.shiftr c 12);
              N.lor 0x80 (N.land (N.shiftr c 6) 0x3f);
              N.lor 0x80 (N.land c 0x3f)]
  else
    Ret [N.lor 0xf0 (N.shiftr c 18);
         N.lor 0x80 (N.land (N.shiftr c 12) 0x3f);
         N.lor 0x80 (N.land (N.shiftr c 6) 0x3f);
         N.lor 0x80 (N.land c 0x3f)].

(** [s.encode()] *)
Fixpoint str_encode (s : str) : res bytes :=
  match s with
  | [] => Ret []
  | c :: r => b ← utf8_char c; t ← str_encode r; Ret (b ++ t)
  end.

(** [b.decode()] on the output of [b64encode], which is ASCII; octets
    from 0x80 on would need the UTF-8 decoder, which is not modelled. *)
Definition ascii_decode (b : bytes) : res str :=
  if forallb (fun c => c <? 128) b then Ret b else Raise Unmodelled.

Definition is_space (c : N) : bool :=
  (c =? 32) || ((9 <=? c) && (c <=? 13)).

Fixpoint lstrip (s : str) : str :=
  match s with
  | c :: r => if is_space c then lstrip r else s
  | [] => []
  end.

Definition strip (s : str) : str := rev (lstrip (rev (lstrip s))).

(** Decimal digits with single underscores between them. *)
Fixpoint int_digits (s : str) (after_digit : bool) : option str :=
  match s with
  | [] => if after_digit then Some [] else None
  | c :: r =>
      if Json.is_digit c then cons c <$> int_digits r true
      else if (c =? 95) && after_digit then
        match r with
        | d :: _ => if Json.is_digit d then int_digits r false else None
        | [] => None
        end
      else None
  end.

(** [int(s)] for a [str], base ten.  Text with characters outside ASCII
    is left out: Python maps Unicode digits and spaces first. *)
Definition int_of_str (s : str) : res Z :=
  if negb (forallb (fun c => c <? 128) s) then Raise Unmodelled
  else
    let t := strip s in
    let '(neg, t') :=
      match t with
      | 45 :: r => (true, r)
      | 43 :: r => (false, r)
      | _ => (false, t)
      end in
    match int_digits t' false with
    | Some ds =>
        let n := Z.of_N (N.of_uint (Json.uint_of_chars ds)) in
        Ret (if neg then (- n)%Z else n)
    | None => Raise (Exception ValueError)
    end.

(** [int(o)] *)
Definition py_int (o : pyobj) : res Z :=
  match o with
  | PyInt z => Ret z
  | PyBool b => Ret (bool_int b)
  | PyStr s => int_of_str s
  | _ => Raise (Exception TypeError)
  end.

(** [str(o)], as an f-string formats a value.  The [repr] of the
    elements of a list or a dict is not modelled. *)
Definition py_str (o : pyobj) : res str :=
  match o with
  | PyStr s => Ret s
  | PyInt z => Ret (Json.repr_int z)
  | PyBool true => Ret (lit "True")
  | PyBool false => Ret (lit "False")
  | PyNone => Ret (lit "None")
  | PyList [] => Ret (lit "[]")
  | PyDict [] => Ret (lit "{}")
  | _ => Raise Unmodelled
  end.

Fixpoint is_prefix (p s : str) : bool :=
  match p, s with
  | [], _ => true
  | a :: p', b :: s' => (a =? b) && is_prefix p' s'
  | _ :: _, [] => false
  end.

Fixpoint is_substring (p s : str) : bool :=
  is_prefix p s || match s with [] => false | _ :: s' => is_substring p s' end.

(** [k in o] for a [str] [k] *)
Definition py_contains (o : pyobj) (k : str) : res bool :=
  match o with
  | PyDict d => Ret (bool_decide (is_Some (dict_get d (KStr k))))
  | PyList l => Ret (existsb (fun x => py_eq x (PyStr k)) l)
  | PyStr s => Ret (is_substring k s)
  | _ => Raise (Exception TypeError)
  end.

(** [o[k]] for a [str] [k] *)
Definition py_getitem (o : pyobj) (k : str) : res pyobj :=
  match o with
  | PyDict d =>
      match dict_get d (KStr k) with
      | Some v => Ret v
      | None => Raise (Exception KeyError)
      end
  | _ => Raise (Exception TypeError)
  end.

(** [o.get(k)] and [o.get(k, default)]: only a dict has the method. *)
Definition py_get (o : pyobj) (k : str) (default : pyobj) : res pyobj :=
  match o with
  | PyDict d => Ret (from_option id default (dict_get d (KStr k)))
  | _ => Raise (Exception AttributeError)
  end.

(** ** OpenPGP, as the scripts use PGPy *)

(** What the scripts read from a loaded [PGPKey].  [material] stands for
    the key packets. *)
Record PGPKey := {
  fingerprint : str;
  is_public : bool;
  is_protected : bool;
  material : N;
}.

(** The cipher.  [pgp_encrypt pub seed text] is
    [pub.encrypt(PGPMessage.new(text))] with the session key drawn from
    [seed]; [pgp_armor] is [str(message)]; [pgp_from_blob] is
    [PGPMessage.from_blob]; [pgp_decrypt priv message] is
    [priv.decrypt(message).message] for a private key that is usable;
    [pgp_unprotect key passphrase] tells whether the passphrase opens the
    protected secret material. *)
Record OpenPGP := {
  pgp_message : Type;
  pgp_encrypt : PGPKey -> N -> str -> res pgp_message;
  pgp_armor : pgp_message -> str;
  pgp_from_blob : bytes -> res pgp_message;
  pgp_decrypt : PGPKey -> pgp_message -> res str;
  pgp_unprotect : PGPKey -> str -> bool;
}.

(** A recipient key and a private key belong together when whatever is
    encrypted to the first is opened by the second, and the armor is
    well-formed text that [from_blob] reads back. *)
Record key_pair (P : OpenPGP) (pub priv : PGPKey) : Prop := {
  pair_private : is_public priv = false;
  pair_encrypts : forall seed text, is_ret (pgp_encrypt P pub seed text) = true;
  pair_decrypts : forall seed text m,
    pgp_encrypt P pub seed text = Ret m -> pgp_decrypt P priv m = Ret text;
  pair_text : forall seed text m,
    pgp_encrypt P pub seed text = Ret m -> str_ok (pgp_armor P m);
  pair_armor : forall seed text m,
    pgp_encrypt P pub seed text = Ret m ->
    exists b, str_encode (pgp_armor P m) = Ret b /\ pgp_from_blob P b = Ret m;
}.

(** ** The world and the effects on it *)

Inductive request :=
  | GET (url : str)
  | POST (url : str) (json : pyobj).

Record response := {
  status_code : Z;
  content_type : option str;   (* the Content-Type header *)
  text : option str;           (* the body as text, when it decodes *)
  content : bytes;             (* the body *)
}.

(** [key_file path]: [None] when there is no such file, [Some None] when
    the file does not hold a key.  [entropy] feeds [secrets.randbits],
    [session_seed n] the [n]-th encryption.  [http] is the peer and the
    network in front of it: [None] when no response arrives in time.
    [writable path] tells whether the file can be opened for writing. *)
Record World := {
  key_file : str -> option (option PGPKey);
  entropy : Z;
  session_seed : nat -> N;
  http : request -> option response;
  writable : str -> bool;
}.

Inductive event :=
  | EvRandbits (n : Z)
  | EvEncrypt (recipient : PGPKey) (plaintext : str)
  | EvUnlock
  | EvRelock
  | EvHttp (r : request)
  | EvWrite (path : str) (data : bytes).

(** The state of a run: the effects so far, oldest first, and whether the
    secret material of the client's private key is unlocked. *)
Record state := {
  trace : list event;
  unlocked : bool;
}.

Definition initial : state := {| trace := []; unlocked := false |}.

Definition M (A : Type) : Type := state -> res A * state.

#[export] Instance M_ret : MRet M := fun _ a s => (Ret a, s).
#[export] Instance M_bind : MBind M := fun _ _ f m s =>
  match m s with
  | (Ret a, s') => f a s'
  | (Raise e, s') => (Raise e, s')
  end.

Definition lift {A} (r : res A) : M A := fun s => (r, s).
Definition raise {A} (e : exn) : M A := lift (Raise e).
Definition emit (e : event) : M unit :=
  fun s => (Ret tt, {| trace := trace s ++ [e]; unlocked := unlocked s |}).
Definition set_unlocked (b : bool) : M unit :=
  fun s => (Ret tt, {| trace := trace s; unlocked := b |}).
Definition get_unlocked : M bool := fun s => (Ret (unlocked s), s).

(** [try: body except Exception: handler] *)
Definition try_except {A} (body : M A) (handler : exn_class -> M A) : M A :=
  fun s =>
    match body s with
    | (Raise (Exception c), s') => handler c s'
    | r => r
    end.

(** [try: body finally: cleanup] *)
Definition try_finally {A} (body : M A) (cleanup : M unit) : M A :=
  fun s =>
    match body s with
    | (r, s') =>
        match cleanup s' with
        | (Ret _, s'') => (r, s'')
        | (Raise e, s'') => (Raise e, s'')
        end
    end.

Definition is_encrypt (e : event) : bool :=
  match e with EvEncrypt _ _ => true | _ => false end.

Definition encrypts (t : list event) : nat := length (List.filter is_encrypt t).

Section Library.

Context (P : OpenPGP) (W : World).

(** [Path(p).is_file()] *)
Definition is_file (path : str) : bool :=
  match key_file W path with Some _ => true | None => false end.

(** [PGPKey.from_file(path)] *)
Definition from_file (path : str) : M PGPKey :=
  match key_file W path with
  | Some (Some k) => mret k
  | Some None => raise (Exception ValueError)
  | None => raise (Exception OSError)
  end.

(** [secrets.randbits(64)] *)
Definition randbits64 : M Z :=
  let n := Z.land (entropy W) (Z.ones 64) in
  _ ← emit (EvRandbits n); mret n.

(** [key.encrypt(PGPMessage.new(text))] *)
Definition encrypt (key : PGPKey) (plaintext : str) : M (pgp_message P) :=
  fun s =>
    let seed := session_seed W (encrypts (trace s)) in
    (_ ← emit (EvEncrypt key plaintext);
     lift (pgp_encrypt P key seed plaintext)) s.

(** [key.decrypt(message).message]: PGPy refuses a public key and a
    protected key that is not unlocked. *)
Definition decrypt (key : PGPKey) (message : pgp_message P) : M str :=
  u ← get_unlocked;
  if is_public key then raise (Exception PGPError)
  else if is_protected key && negb u then raise (Exception PGPError)
  else lift (pgp_decrypt P key message).

(** [with key.unlock(passphrase): body].  PGPy yields at once for a
    public key and for a key that is not protected.  For a protected
    key it decrypts the secret material with the passphrase, runs the
    body and, in a [finally] clause, clears the decrypted material.
    Deriving a key from [None] is a [TypeError]. *)
Definition unlock {A} (key : PGPKey) (passphrase : option str) (body : M A)
  : M A :=
  if is_public key || negb (is_protected key) then body
  else
    try_finally
      (_ ← match passphrase with
           | None => raise (Exception TypeError)
           | Some p =>
               if pgp_unprotect P key p then mret tt
               else raise (Exception PGPError)
           end;
       _ ← set_unlocked true;
       _ ← emit EvUnlock;
       body)
      (_ ← set_unlocked false; emit EvRelock).

(** [requests.get(url)] and [requests.post(url, json=body)]: a
    response whatever its status, or an exception when none arrives. *)
Definition requests_send (r : request) : M response :=
  _ ← emit (EvHttp r);
  match http W r with
  | Some resp => mret resp
  | None => raise (Exception RequestError)
  end.

(** [r.json()] *)
Definition response_json (r : response) : M pyobj :=
  match text r with
  | Some t => lift (Json.loads t)
  | None => raise (Exception JSONDecodeError)
  end.

(** [r.raise_for_status()] *)
Definition raise_for_status (r : response) : M unit :=
  if (400 <=? status_code r)%Z && (status_code r <? 600)%Z
  then raise (Exception HTTPError) else mret tt.

(** [urllib.request.urlopen(request)]: a status outside 2xx is raised
    as [HTTPError]. *)
Definition urlopen (r : request) : M response :=
  _ ← emit (EvHttp r);
  match http W r with
  | Some resp =>
      if (200 <=? status_code resp)%Z && (status_code resp <? 300)%Z
      then mret resp else raise (Exception HTTPError)
  | None => raise (Exception RequestError)
  end.

(** [json.loads(resp.read().decode())] *)
Definition read_json (r : response) : M pyobj :=
  match text r with
  | Some t => lift (Json.loads t)
  | None => raise (Exception UnicodeError)
  end.

(** [with open(path, "wb") as f: f.write(data)] *)
Definition write_file (path : str) (data : bytes) : M unit :=
  if writable W path then emit (EvWrite path data)
  else raise (Exception OSError).

End Library.

Definition payload_body (envelope : str) : pyobj :=
  PyDict [(KStr (lit "payload"), PyStr envelope)].

(** The envelope of the specification: the message in canonical JSON,
    encrypted to the recipient's public key, armored, then base64.  The
    seal functions of the four scripts are compared with it below. *)
Definition seal (P : OpenPGP) (recipient : PGPKey) (seed : N) (message : pyobj)
  : res str :=
  plaintext ← Json.dumps message;
  encrypted ← pgp_encrypt P recipient seed plaintext;
  armored ← str_encode (pgp_armor P encrypted);
  ascii_decode (Base64.b64encode armored).

(** ** fixed_rmap_client.py *)

Module fixed_rmap_client.
Section Script.

Context (P : OpenPGP) (W : World).

(** The constants at the head of the script.  The passphrase is a
    variable of the model: the script reads it as a constant that is
    either a string or [None]. *)
Variable CLIENT_PRIV_PASSPHRASE : option str.

Definition IDENTITY : str := lit "Group_04".
Definition SERVER_BASE : str := lit "http://144.24.5.229:5000".
Definition SERVER_PUB_KEY_CANDIDATES : list str :=
  [lit "pub.asc"; lit "keys/public.asc"; lit "keys/public.pgp";
   lit "tatou/keys/server/pub.asc"].
Definition CLIENT_PRIV_KEY_PATH : str := lit "priv.asc".

Fixpoint find_and_load (candidates : list str) : M (option (PGPKey * str)) :=
  match candidates with
  | [] => mret None
  | candidate :: rest =>
      if is_file W candidate then
        try_except
          (server_pub_key ← from_file W candidate;
           mret (Some (server_pub_key, candidate)))
          (fun _ => find_and_load rest)
      else find_and_load rest
  end.

Definition find_and_load_server_key : M (option (PGPKey * str)) :=
  find_and_load SERVER_PUB_KEY_CANDIDATES.

Definition load_and_verify_client_key : M (option PGPKey) :=
  if negb (is_file W CLIENT_PRIV_KEY_PATH) then mret None
  else
    try_except
      (client_priv_key ← from_file W CLIENT_PRIV_KEY_PATH;
       if is_public client_priv_key then mret None
       else mret (Some client_priv_key))
      (fun _ => mret None).

Definition verify_different_keys (server_pub_key client_priv_key : PGPKey)
  : bool :=
  if bool_decide (fingerprint server_pub_key = fingerprint client_priv_key)
  then false else true.

Definition encrypt_to_server (obj : pyobj) (server_pub_key : PGPKey) : M str :=
  plaintext ← lift (Json.dumps obj);
  enc ← encrypt P W server_pub_key plaintext;
  let armored := pgp_armor P enc in
  encoded ← lift (str_encode armored);
  lift (ascii_decode (Base64.b64encode encoded)).

Definition decrypt_from_server (payload_b64 : pyobj) (client_priv_key : PGPKey)
  : M pyobj :=
  armored ← lift (Base64.b64decode payload_b64);
  pgp_msg ← lift (pgp_from_blob P armored);
  if is_protected client_priv_key
     && bool_decide (CLIENT_PRIV_PASSPHRASE = None)
  then raise (SystemExit 1)
  else
    dec ← (if is_protected client_priv_key
           then unlock P client_priv_key CLIENT_PRIV_PASSPHRASE
                  (decrypt P client_priv_key pgp_msg)
           else decrypt P client_priv_key pgp_msg);
    lift (Json.loads dec).

Definition test_server_connectivity : M bool :=
  try_except
    (_ ← requests_send W (GET (SERVER_BASE ++ lit "/")); mret true)
    (fun _ => mret false).

(** [main], in the parts its comments mark.  Each part of the [try]
    block yields [None] where [main] returns [False]. *)

(** "Message 1" and "Decrypt server response": the nonce and the
    decrypted first response. *)
Definition message1 (server_pub_key client_priv_key : PGPKey)
  : M (option (Z * pyobj)) :=
  nonce_client ← randbits64 W;
  msg1_payload_b64 ←
    encrypt_to_server
      (PyDict [(KStr (lit "identity"), PyStr IDENTITY);
               (KStr (lit "nonceClient"), PyInt nonce_client)])
      server_pub_key;
  r1 ← requests_send W
         (POST (SERVER_BASE ++ lit "/api/rmap-initiate")
               (payload_body msg1_payload_b64));
  if negb (status_code r1 =? 200)%Z then mret None else
  resp1 ← response_json r1;
  has_payload ← lift (py_contains resp1 (lit "payload"));
  if negb has_payload then mret None else
  payload ← lift (py_getitem resp1 (lit "payload"));
  obj1 ← decrypt_from_server payload client_priv_key;
  mret (Some (nonce_client, obj1)).

(** The nonce check and "Message 2": the link token. *)
Definition message2 (server_pub_key : PGPKey) (nonce_client : Z) (obj1 : pyobj)
  : M (option pyobj) :=
  echoed ← lift (py_get obj1 (lit "nonceClient") PyNone);
  if negb (py_eq echoed (PyInt nonce_client)) then mret None else
  nonce_server ← lift (py_getitem obj1 (lit "nonceServer"));
  msg2_payload_b64 ←
    encrypt_to_server
      (PyDict [(KStr (lit "nonceServer"), nonce_server)]) server_pub_key;
  r2 ← requests_send W
         (POST (SERVER_BASE ++ lit "/api/rmap-get-link")
               (payload_body msg2_payload_b64));
  if negb (status_code r2 =? 200)%Z then mret None else
  resp2 ← response_json r2;
  has_result ← lift (py_contains resp2 (lit "result"));
  if negb has_result then mret None else
  link_token ← lift (py_getitem resp2 (lit "result"));
  mret (Some link_token).

(** "Download watermarked PDF" *)
Definition download (link_token : pyobj) : M bool :=
  token ← lift (py_str link_token);
  pdf_resp ← requests_send W
               (GET (SERVER_BASE ++ lit "/api/get-version/" ++ token));
  if negb (status_code pdf_resp =? 200)%Z
     || negb (bool_decide (content_type pdf_resp
                           = Some (lit "application/pdf")))
  then mret false else
  _ ← write_file W (lit "watermarked_" ++ IDENTITY ++ lit ".pdf")
        (content pdf_resp);
  mret true.

Definition handshake (server_pub_key client_priv_key : PGPKey) : M bool :=
  try_except
    (first ← message1 server_pub_key client_priv_key;
     match first with
     | None => mret false
     | Some (nonce_client, obj1) =>
         second ← message2 server_pub_key nonce_client obj1;
         match second with
         | None => mret false
         | Some link_token => download link_token
         end
     end)
    (fun _ => mret false).

Definition main : M bool :=
  reachable ← test_server_connectivity;
  if negb reachable then mret false else
  found ← find_and_load_server_key;
  match found with
  | None => mret false
  | Some (server_pub_key, server_key_path) =>
      loaded ← load_and_verify_client_key;
      match loaded with
      | None => mret false
      | Some client_priv_key =>
          if negb (verify_different_keys server_pub_key client_priv_key)
          then mret false
          else handshake server_pub_key client_priv_key
      end
  end.

End Script.
End fixed_rmap_client.

(** ** rmap_client_test.py *)

Module rmap_client_test.
Section Script.

Context (P : OpenPGP) (W : World).
Variable CLIENT_PRIV_PASSPHRASE : option str.

Definition IDENTITY : str := lit "Group_04".
Definition SERVER_BASE : str := lit "http://127.0.0.1:5000".
Definition SERVER_PUB_KEY_PATH : str := lit "pub.asc".
Definition CLIENT_PRIV_KEY_PATH : str := lit "priv.asc".

(** The two functions read the keys from module variables; here they
    take them as arguments. *)
Definition encrypt_to_server (server_pub_key : PGPKey) (obj : pyobj) : M str :=
  plaintext ← lift (Json.dumps obj);
  enc ← encrypt P W server_pub_key plaintext;
  let armored := pgp_armor P enc in
  encoded ← lift (str_encode armored);
  lift (ascii_decode (Base64.b64encode encoded)).

Definition decrypt_from_server (client_priv_key : PGPKey) (payload_b64 : pyobj)
  : M pyobj :=
  armored ← lift (Base64.b64decode payload_b64);
  pgp_msg ← lift (pgp_from_blob P armored);
  if is_protected client_priv_key
     && bool_decide (CLIENT_PRIV_PASSPHRASE = None)
  then raise (SystemExit 1)
  else
    dec ← (if is_protected client_priv_key
           then unlock P client_priv_key CLIENT_PRIV_PASSPHRASE
                  (decrypt P client_priv_key pgp_msg)
           else decrypt P client_priv_key pgp_msg);
    lift (Json.loads dec).

(** The statements of the module, top to bottom, in the parts its
    comments mark. *)

(** The check of the key files and "Load keys" *)
Definition load_keys : M (PGPKey * PGPKey) :=
  if negb (is_file W SERVER_PUB_KEY_PATH) then raise (SystemExit 2) else
  if negb (is_file W CLIENT_PRIV_KEY_PATH) then raise (SystemExit 2) else
  server_pub_key ← from_file W SERVER_PUB_KEY_PATH;
  client_priv_key ← from_file W CLIENT_PRIV_KEY_PATH;
  if is_public client_priv_key then raise (SystemExit 1) else
  mret (server_pub_key, client_priv_key).

(** "Message 1" and "Decrypt server response" *)
Definition message1 (server_pub_key client_priv_key : PGPKey)
  : M (Z * pyobj) :=
  nonce_client ← randbits64 W;
  msg1_payload_b64 ←
    encrypt_to_server server_pub_key
      (PyDict [(KStr (lit "identity"), PyStr IDENTITY);
               (KStr (lit "nonceClient"), PyInt nonce_client)]);
  r1 ← requests_send W
         (POST (SERVER_BASE ++ lit "/api/rmap-initiate")
               (payload_body msg1_payload_b64));
  _ ← raise_for_status r1;
  resp1 ← response_json r1;
  has_payload ← lift (py_contains resp1 (lit "payload"));
  if negb has_payload then raise (SystemExit 1) else
  payload ← lift (py_getitem resp1 (lit "payload"));
  obj1 ← decrypt_from_server client_priv_key payload;
  mret (nonce_client, obj1).

(** The nonce check and "Message 2" *)
Definition message2 (server_pub_key : PGPKey) (nonce_client : Z) (obj1 : pyobj)
  : M pyobj :=
  echoed ← lift (py_get obj1 (lit "nonceClient") PyNone);
  if negb (py_eq echoed (PyInt nonce_client)) then raise (SystemExit 1) else
  nonce_server ← lift (py_getitem obj1 (lit "nonceServer"));
  msg2_payload_b64 ←
    encrypt_to_server server_pub_key
      (PyDict [(KStr (lit "nonceServer"), nonce_server)]);
  r2 ← requests_send W
         (POST (SERVER_BASE ++ lit "/api/rmap-get-link")
               (payload_body msg2_payload_b64));
  _ ← raise_for_status r2;
  resp2 ← response_json r2;
  has_result ← lift (py_contains resp2 (lit "result"));
  if negb has_result then raise (SystemExit 1) else
  lift (py_getitem resp2 (lit "result")).

(** "Download watermarked PDF" *)
Definition download (link_token : pyobj) : M unit :=
  token ← lift (py_str link_token);
  pdf_resp ← requests_send W
               (GET (SERVER_BASE ++ lit "/api/get-version/" ++ token));
  if negb (status_code pdf_resp =? 200)%Z
     || negb (bool_decide (content_type pdf_resp
                           = Some (lit "application/pdf")))
  then raise (SystemExit 1) else
  write_file W (lit "watermarked_" ++ IDENTITY ++ lit ".pdf")
    (content pdf_resp).

Definition handshake (server_pub_key client_priv_key : PGPKey) : M unit :=
  first ← message1 server_pub_key client_priv_key;
  link_token ← message2 server_pub_key (fst first) (snd first);
  download link_token.

Definition script : M unit :=
  keys ← load_keys;
  handshake (fst keys) (snd keys).

End Script.
End rmap_client_test.

(** ** rmap_client_pdf_getting.py *)

Module rmap_client_pdf_getting.
Section Script.

Context (P : OpenPGP) (W : World).
Variable CLIENT_PRIV_PASSPHRASE : option str.

Definition IDENTITY : str := lit "Group_04".
Definition CLIENT_PRIV_KEY_PATH : str := lit "priv.asc".
Definition SERVER_PUB_KEY_PATH : str := lit "pub.asc".
Definition SERVER_URL : str := lit "http://localhost:5000".

Record WorkingIdentityManager := {
  client_priv : PGPKey;
  server_pub : PGPKey;
  passphrase : option str;
}.

Definition encrypt_for_server (self : WorkingIdentityManager) (obj : pyobj)
  : M str :=
  msg ← lift (Json.dumps obj);
  encrypted ← encrypt P W (server_pub self) msg;
  let armored := pgp_armor P encrypted in
  encoded ← lift (str_encode armored);
  lift (ascii_decode (Base64.b64encode encoded)).

Definition decrypt_for_client (self : WorkingIdentityManager) (b64msg : pyobj)
  : M pyobj :=
  armored ← lift (Base64.b64decode b64msg);
  pgpmsg ← lift (pgp_from_blob P armored);
  unlock P (client_priv self) (passphrase self)
    (decrypted ← decrypt P (client_priv self) pgpmsg;
     lift (Json.loads decrypted)).

Definition sys_exit {A} (code : Z) : M A := raise (SystemExit code).

(** [main], one definition for each of its [try] blocks. *)

Definition load_keys : M (PGPKey * PGPKey) :=
  try_except
    (client_priv ← from_file W CLIENT_PRIV_KEY_PATH;
     server_pub ← from_file W SERVER_PUB_KEY_PATH;
     mret (client_priv, server_pub))
    (fun _ => sys_exit 1).

(** "Test key unlocking" *)
Definition unlock_test (client_priv : PGPKey) : M unit :=
  try_except
    (unlock P client_priv CLIENT_PRIV_PASSPHRASE (mret tt))
    (fun _ => sys_exit 1).

(** "Step 1: Initiate handshake" *)
Definition step1 (idm : WorkingIdentityManager) (nonce_client : Z) : M pyobj :=
  try_except
    (payload1_b64 ←
       encrypt_for_server idm
         (PyDict [(KStr (lit "identity"), PyStr IDENTITY);
                  (KStr (lit "nonceClient"), PyInt nonce_client)]);
     resp ← urlopen W (POST (SERVER_URL ++ lit "/api/rmap-initiate")
                            (payload_body payload1_b64));
     body1 ← read_json resp;
     lift (py_getitem body1 (lit "payload")))
    (fun _ => sys_exit 1).

(** The check of the decrypted first response in step 2. *)
Definition verify_nonce (nonce_client : Z) (obj : pyobj) : M Z :=
  received ← lift (py_getitem obj (lit "nonceClient"));
  received_nonce ← lift (py_int received);
  if negb (received_nonce =? nonce_client)%Z
  then raise (Exception PlainException)
  else
    server ← lift (py_getitem obj (lit "nonceServer"));
    lift (py_int server).

(** "Step 2: Decrypt server response and send nonceServer" *)
Definition step2 (idm : WorkingIdentityManager) (nonce_client : Z)
    (payload2_b64 : pyobj) : M Z :=
  try_except
    (obj ← decrypt_for_client idm payload2_b64;
     verify_nonce nonce_client obj)
    (fun _ => sys_exit 1).

(** "Step 3: Sending nonce confirmation" *)
Definition step3 (idm : WorkingIdentityManager) (nonce_server : Z) : M pyobj :=
  try_except
    (payload3_b64 ←
       encrypt_for_server idm
         (PyDict [(KStr (lit "nonceServer"), PyInt nonce_server)]);
     resp ← urlopen W (POST (SERVER_URL ++ lit "/api/rmap-get-link")
                            (payload_body payload3_b64));
     body2 ← read_json resp;
     lift (py_getitem body2 (lit "result")))
    (fun _ => sys_exit 1).

(** "Step 4: Download the watermarked PDF" *)
Definition step4 (link : pyobj) : M unit :=
  try_except
    (token ← lift (py_str link);
     resp ← urlopen W (GET (SERVER_URL ++ lit "/api/get-version/" ++ token));
     let pdf_data := content resp in
     write_file W (IDENTITY ++ lit "_watermarked.pdf") pdf_data)
    (fun _ => sys_exit 1).

Definition main : M unit :=
  keys ← load_keys;
  _ ← unlock_test (fst keys);
  let idm := {| client_priv := fst keys; server_pub := snd keys;
                passphrase := CLIENT_PRIV_PASSPHRASE |} in
  nonce_client ← randbits64 W;
  payload2_b64 ← step1 idm nonce_client;
  nonce_server ← step2 idm nonce_client payload2_b64;
  link ← step3 idm nonce_server;
  step4 link.

End Script.
End rmap_client_pdf_getting.

(** ** test_group_rmap.py *)

Module test_group_rmap.
Section Script.

Context (P : OpenPGP) (W : World).
Variable YOUR_PASSPHRASE : option str.

Definition YOUR_IDENTITY : str := lit "Group_04".
Definition YOUR_PRIV_KEY : str := lit "priv.asc".
Definition TARGET_SERVER_URL : str := lit "http://144.24.5.229:5000".
Definition TARGET_GROUP_PUBKEY : str := lit "Group_04.asc".

Record SimpleRMAPClient := {
  your_priv_key : PGPKey;
  target_pub_key : PGPKey;
  passphrase : option str;
}.

Definition encrypt_to_target (self : SimpleRMAPClient) (data : pyobj) : M str :=
  msg ← lift (Json.dumps data);
  encrypted ← encrypt P W (target_pub_key self) msg;
  encoded ← lift (str_encode (pgp_armor P encrypted));
  lift (ascii_decode (Base64.b64encode encoded)).

Definition decrypt_from_target (self : SimpleRMAPClient) (b64_data : pyobj)
  : M pyobj :=
  armored ← lift (Base64.b64decode b64_data);
  pgpmsg ← lift (pgp_from_blob P armored);
  unlock P (your_priv_key self) (passphrase self)
    (decrypted ← decrypt P (your_priv_key self) pgpmsg;
     lift (Json.loads decrypted)).

(** [TARGET_GROUP_PUBKEY.replace('.asc', '').replace('Group_', 'Group')]
    for the constant above. *)
Definition target_name : str := lit "Group04".

(** [main], one definition for each of its [try] blocks.  A block
    yields [None] where [main] returns after a failed step. *)

Definition load_keys : M (option (PGPKey * PGPKey)) :=
  try_except
    (your_priv ← from_file W YOUR_PRIV_KEY;
     target_pub ← from_file W TARGET_GROUP_PUBKEY;
     mret (Some (your_priv, target_pub)))
    (fun _ => mret None).

(** "Test key unlock" *)
Definition unlock_test (your_priv : PGPKey) : M bool :=
  try_except
    (unlock P your_priv YOUR_PASSPHRASE (mret true))
    (fun _ => mret false).

(** "Step 1: Send identity + nonce" *)
Definition step1 (client : SimpleRMAPClient) (nonce_client : Z)
  : M (option pyobj) :=
  try_except
    (payload ←
       encrypt_to_target client
         (PyDict [(KStr (lit "identity"), PyStr YOUR_IDENTITY);
                  (KStr (lit "nonceClient"), PyInt nonce_client)]);
     response ← urlopen W
                  (POST (TARGET_SERVER_URL ++ lit "/api/rmap-initiate")
                        (payload_body payload));
     result ← read_json response;
     mret (Some result))
    (fun _ => mret None).

(** The check of the decrypted first response in step 2. *)
Definition verify_nonce (nonce_client : Z) (server_data : pyobj) : M Z :=
  received ← lift (py_getitem server_data (lit "nonceClient"));
  received_nonce ← lift (py_int received);
  if negb (received_nonce =? nonce_client)%Z
  then raise (Exception PlainException)
  else
    server ← lift (py_getitem server_data (lit "nonceServer"));
    lift (py_int server).

(** "Step 2: Decrypt response and verify nonce" *)
Definition step2 (client : SimpleRMAPClient) (nonce_client : Z)
    (result : pyobj) : M (option Z) :=
  try_except
    (payload ← lift (py_getitem result (lit "payload"));
     server_data ← decrypt_from_target client payload;
     nonce_server ← verify_nonce nonce_client server_data;
     mret (Some nonce_server))
    (fun _ => mret None).

(** "Step 3: Send server nonce back and get link" *)
Definition step3 (client : SimpleRMAPClient) (nonce_server : Z)
  : M (option pyobj) :=
  try_except
    (payload ←
       encrypt_to_target client
         (PyDict [(KStr (lit "nonceServer"), PyInt nonce_server)]);
     response ← urlopen W
                  (POST (TARGET_SERVER_URL ++ lit "/api/rmap-get-link")
                        (payload_body payload));
     result ← read_json response;
     download_link ← lift (py_getitem result (lit "result"));
     mret (Some download_link))
    (fun _ => mret None).

(** "Step 4: Download PDF" *)
Definition step4 (download_link : pyobj) : M bool :=
  try_except
    (token ← lift (py_str download_link);
     response ← urlopen W
                  (GET (TARGET_SERVER_URL ++ lit "/api/get-version/" ++ token));
     let pdf_data := content response in
     _ ← write_file W
           (YOUR_IDENTITY ++ lit "_from_" ++ target_name ++ lit ".pdf")
           pdf_data;
     mret true)
    (fun _ => mret false).

(** [main] returns [None] on every path; [false] marks a [return]
    after a failed step, [true] the end of the function. *)
Definition main : M bool :=
  keys ← load_keys;
  match keys with
  | None => mret false
  | Some (your_priv, target_pub) =>
  opened ← unlock_test your_priv;
  if negb opened then mret false else
  let client := {| your_priv_key := your_priv; target_pub_key := target_pub;
                   passphrase := YOUR_PASSPHRASE |} in
  nonce_client ← randbits64 W;
  first ← step1 client nonce_client;
  match first with
  | None => mret false
  | Some result =>
  second ← step2 client nonce_client result;
  match second with
  | None => mret false
  | Some nonce_server =>
  third ← step3 client nonce_server;
  match third with
  | None => mret false
  | Some download_link => step4 download_link
  end
  end
  end
  end.

End Script.
End test_group_rmap.

(** ** A small cipher and a scripted peer

    Enough of an OpenPGP implementation and of a peer to run the scripts:
    a message is the recipient's key material, the session seed and the
    plaintext; the armor writes each number as that many [A]s and a
    [B]. *)

Module Toy.

Fixpoint unary (m : list N) : str :=
  match m with
  | [] => []
  | c :: r => repeat 65 (N.to_nat c) ++ 66 :: unary r
  end.

Fixpoint unary_decode (b : bytes) (acc : N) : res (list N) :=
  match b with
  | [] => if acc =? 0 then Ret [] else Raise (Exception ValueError)
  | c :: r =>
      if c =? 65 then unary_decode r (acc + 1)
      else if c =? 66 then cons acc <$> unary_decode r 0
      else Raise (Exception ValueError)
  end.

Definition toy_decrypt (key : PGPKey) (m : list N) : res str :=
  match m with
  | kid :: _ :: plaintext =>
      if kid =? material key then Ret plaintext
      else Raise (Exception PGPError)
  | _ => Raise (Exception PGPError)
  end.

Definition cipher : OpenPGP := {|
  pgp_message := list N;
  pgp_encrypt := fun key seed plaintext => Ret (material key :: seed :: plaintext);
  pgp_armor := unary;
  pgp_from_blob := fun b => unary_decode b 0;
  pgp_decrypt := toy_decrypt;
  pgp_unprotect := fun _ p => bool_decide (p = lit "open sesame");
|}.

Definition server_pub : PGPKey :=
  {| fingerprint := lit "5E12"; is_public := true; is_protected := false;
     material := 7 |}.
Definition client_priv : PGPKey :=
  {| fingerprint := lit "C11E"; is_public := false; is_protected := true;
     material := 9 |}.
Definition client_pub : PGPKey :=
  {| fingerprint := lit "C11E"; is_public := true; is_protected := false;
     material := 9 |}.
Definition plain_priv : PGPKey :=
  {| fingerprint := lit "C11E"; is_public := false; is_protected := false;
     material := 9 |}.
(** A private key file that holds the peer's own key. *)
Definition clash_priv : PGPKey :=
  {| fingerprint := lit "5E12"; is_public := false; is_protected := false;
     material := 7 |}.

Definition json_text (obj : pyobj) : str :=
  match Json.dumps obj with Ret t => t | Raise _ => [] end.

(** The envelope the peer sends: the same pipeline as the client's. *)
Definition envelope (key : PGPKey) (seed : N) (obj : pyobj) : str :=
  Base64.b64encode (unary (material key :: seed :: json_text obj)).

Definition json_response (obj : pyobj) : response :=
  {| status_code := 200;
     content_type := Some (lit "application/json");
     text := Some (json_text obj);
     content := [] |}.

Definition ends_with (suffix s : str) : bool := is_prefix (rev suffix) (rev s).

(** A peer that answers the first message with [first], the second
    with [second] and the download with [pdf]. *)
Definition peer (first second : pyobj) (pdf : response) (r : request)
  : option response :=
  match r with
  | GET url =>
      if is_substring (lit "/api/get-version/") url then Some pdf
      else Some (json_response PyNone)
  | POST url _ =>
      if ends_with (lit "/api/rmap-initiate") url
      then Some (json_response
                   (payload_body (envelope client_pub 1 first)))
      else Some (json_response second)
  end.

Definition pdf_ok : response :=
  {| status_code := 200; content_type := Some (lit "application/pdf");
     text := None; content := lit "%PDF-1.7" |}.

Definition pdf_html : response :=
  {| status_code := 200; content_type := Some (lit "text/html");
     text := Some (lit "<html>"); content := lit "<html>" |}.

Definition keys (priv : PGPKey) (path : str) : option (option PGPKey) :=
  if bool_decide (path = lit "pub.asc") then Some (Some server_pub)
  else if bool_decide (path = lit "Group_04.asc") then Some (Some server_pub)
  else if bool_decide (path = lit "priv.asc") then Some (Some priv)
  else None.

Definition world (priv : PGPKey) (first second : pyobj) (pdf : response)
  : World :=
  {| key_file := keys priv;
     entropy := 123456789;
     session_seed := fun n => N.of_nat n;
     http := peer first second pdf;
     writable := fun _ => true |}.

Definition echo (nonce_client nonce_server : pyobj) : pyobj :=
  PyDict [(KStr (lit "nonceClient"), nonce_client);
          (KStr (lit "nonceServer"), nonce_server)].

Definition result (token : str) : pyobj :=
  PyDict [(KStr (lit "result"), PyStr token)].

Definition happy : World :=
  world client_priv (echo (PyInt 123456789) (PyInt 987654321))
    (result (lit "abc123")) pdf_ok.

(** The peer echoes another nonce. *)
Definition mismatch : World :=
  world client_priv (echo (PyInt 5) (PyInt 987654321))
    (result (lit "abc123")) pdf_ok.

(** The peer echoes the nonce as text. *)
Definition text_echo : World :=
  world client_priv (echo (PyStr (lit "123456789")) (PyInt 987654321))
    (result (lit "abc123")) pdf_ok.

(** The download answers 200 with an HTML page. *)
Definition html_download : World :=
  world client_priv (echo (PyInt 123456789) (PyInt 987654321))
    (result (lit "abc123")) pdf_html.

Definition passphrase : option str := Some (lit "open sesame").

End Toy.

(** ** Notions of the statements below *)

(** Two objects that differ in the insertion order of their dicts alone. *)
Inductive same_mapping : pyobj -> pyobj -> Prop :=
  | same_none : same_mapping PyNone PyNone
  | same_bool b : same_mapping (PyBool b) (PyBool b)
  | same_int z : same_mapping (PyInt z) (PyInt z)
  | same_str s : same_mapping (PyStr s) (PyStr s)
  | same_list l1 l2 :
      Forall2 same_mapping l1 l2 -> same_mapping (PyList l1) (PyList l2)
  | same_dict d1 d2 d :
      Forall2 (fun a b => fst a = fst b /\ same_mapping (snd a) (snd b)) d1 d ->
      Permutation d d2 ->
      same_mapping (PyDict d1) (PyDict d2).

(** No high surrogate stands directly before a low one. *)
Fixpoint no_pair (s : str) : bool :=
  match s with
  | c :: r =>
      match r with
      | d :: _ => negb (Json.is_high c && Json.is_low d)
      | [] => true
      end && no_pair r
  | [] => true
  end.

(** Text without a high surrogate directly before a low one. *)
Definition text_ok (s : str) : Prop := str_ok s /\ no_pair s = true.

(** Objects with [str] keys only, the objects of JSON. *)
Inductive json_ok : pyobj -> Prop :=
  | jok_none : json_ok PyNone
  | jok_bool b : json_ok (PyBool b)
  | jok_int z : json_ok (PyInt z)
  | jok_str s : text_ok s -> json_ok (PyStr s)
  | jok_list l : Forall json_ok l -> json_ok (PyList l)
  | jok_dict d :
      NoDup (map fst d) ->
      Forall (fun kv => (exists s, fst kv = KStr s /\ text_ok s)
                        /\ json_ok (snd kv)) d ->
      json_ok (PyDict d).

(** Every dict inside the object has [str] keys only, pairwise
    different. *)
Inductive str_keyed : pyobj -> Prop :=
  | keyed_none : str_keyed PyNone
  | keyed_bool b : str_keyed (PyBool b)
  | keyed_int z : str_keyed (PyInt z)
  | keyed_str s : str_keyed (PyStr s)
  | keyed_list l : Forall str_keyed l -> str_keyed (PyList l)
  | keyed_dict d :
      NoDup (map fst d) ->
      Forall (fun kv => Json.is_kstr (fst kv) = true /\ str_keyed (snd kv)) d ->
      str_keyed (PyDict d).

(** Printable ASCII. *)
Definition printable (s : str) : Prop := Forall (fun c => 32 <= c <= 126) s.

(** A character of the base64 alphabet or the padding character. *)
Definition b64_char (c : N) : bool :=
  (c =? 61) || bool_decide (is_Some (Base64.a2b_char c)).

(** The passphrase of the script opens the private key, or the key needs
    none. *)
Definition opens (P : OpenPGP) (priv : PGPKey) (passphrase : option str)
  : Prop :=
  is_protected priv = false
  \/ exists p, passphrase = Some p /\ pgp_unprotect P priv p = true.

(** The value [int()] gives for a nonce as the peer may send it: as a
    number or as its decimal text. *)
Definition nonce_forms (n : Z) (o : pyobj) : Prop :=
  o = PyInt n \/ o = PyStr (Json.repr_int n).

(** No key can be loaded from the path. *)
Definition unloadable (W : World) (path : str) : Prop :=
  forall k, key_file W path <> Some (Some k).

(** Objects to run the statements on. *)
Definition sample_a : pyobj :=
  PyDict [(KStr (lit "nonceClient"), PyInt 123456789);
          (KStr (lit "identity"),
           PyDict [(KStr (lit "b"), PyList [PyBool true]);
                   (KStr (lit "a"), PyNone)])].
Definition sample_b : pyobj :=
  PyDict [(KStr (lit "identity"),
           PyDict [(KStr (lit "a"), PyNone);
                   (KStr (lit "b"), PyList [PyBool true])]);
          (KStr (lit "nonceClient"), PyInt 123456789)].

Definition sample_message : pyobj :=
  PyDict [(KStr (lit "nonceClient"), PyInt 123456789);
          (KStr (lit "identity"), PyStr (lit "Group_04"))].

(** * Properties *)

(** ** Running the monad *)

Lemma bind_run {A B} (m : M A) (f : A -> M B) (s : state) :
  (m ≫= f) s =
  match m s with
  | (Ret a, s') => f a s'
  | (Raise e, s') => (Raise e, s')
  end.
Proof. reflexivity. Qed.

Lemma bind_ret {A B} (m : M A) (f : A -> M B) (s s' : state) (a : A) :
  m s = (Ret a, s') -> (m ≫= f) s = f a s'.
Proof. intros H. rewrite bind_run, H. reflexivity. Qed.

Lemma bind_raise {A B} (m : M A) (f : A -> M B) (s s' : state) (e : exn) :
  m s = (Raise e, s') -> (m ≫= f) s = (Raise e, s').
Proof. intros H. rewrite bind_run, H. reflexivity. Qed.

Lemma lift_run {A} (r : res A) (s : state) : lift r s = (r, s).
Proof. reflexivity. Qed.

Lemma try_except_ret {A} (body : M A) h (s s' : state) (a : A) :
  body s = (Ret a, s') -> try_except body h s = (Ret a, s').
Proof. unfold try_except. intros ->. reflexivity. Qed.

Lemma try_except_exception {A} (body : M A) h (s s' : state) c :
  body s = (Raise (Exception c), s') -> try_except body h s = h c s'.
Proof. unfold try_except. intros ->. reflexivity. Qed.

(** Case analysis on the next [match] of a hypothesis or of the goal. *)
Ltac split_match H :=
  match type of H with
  | context [match ?x with _ => _ end] =>
      let E := fresh "E" in destruct x eqn:E
  end.

Ltac split_goal :=
  match goal with
  | |- context [match ?x with _ => _ end] =>
      let E := fresh "E" in destruct x eqn:E
  end.

(** ** Loading the keys leaves the state alone *)

Lemma from_file_state W path s :
  from_file W path s = (fst (from_file W path initial), s).
Proof. unfold from_file. repeat split_goal; reflexivity. Qed.

Lemma find_and_load_any W candidates s s0 :
  fixed_rmap_client.find_and_load W candidates s
  = (fst (fixed_rmap_client.find_and_load W candidates s0), s).
Proof.
  induction candidates as [|c rest IH]; simpl; [reflexivity|].
  destruct (is_file W c); [|exact IH].
  unfold try_except. rewrite !bind_run.
  rewrite (from_file_state W c s), (from_file_state W c s0).
  destruct (from_file W c initial) as [[k|[cl|code|]] s'] eqn:E; simpl;
    try reflexivity.
  exact IH.
Qed.

Lemma find_and_load_state W candidates s :
  fixed_rmap_client.find_and_load W candidates s
  = (fst (fixed_rmap_client.find_and_load W candidates initial), s).
Proof. apply find_and_load_any. Qed.

Lemma load_client_key_state W s :
  fixed_rmap_client.load_and_verify_client_key W s
  = (fst (fixed_rmap_client.load_and_verify_client_key W initial), s).
Proof.
  unfold fixed_rmap_client.load_and_verify_client_key.
  destruct (negb _); [reflexivity|].
  unfold try_except. rewrite !bind_run.
  rewrite (from_file_state W _ s).
  rewrite (from_file_state W _ initial).
  destruct (from_file W _ initial) as [[k|[cl|code|]] s'] eqn:E; simpl;
    try reflexivity.
  destruct (is_public k); reflexivity.
Qed.

Lemma connectivity_run W s :
  exists b,
    fixed_rmap_client.test_server_connectivity W s
    = (Ret b, {| trace := trace s
                   ++ [EvHttp (GET (fixed_rmap_client.SERVER_BASE ++ lit "/"))];
                 unlocked := unlocked s |}).
Proof.
  unfold fixed_rmap_client.test_server_connectivity, try_except, requests_send.
  rewrite !bind_run. simpl.
  destruct (http W _); simpl; eauto.
Qed.

(** C10. In [fixed_rmap_client], when the server public key and the
    client private key that were loaded have the same fingerprint, [main]
    returns [False] and the run holds the connectivity probe and nothing
    else: no nonce is drawn, nothing is encrypted, nothing is posted. *)
Theorem same_fingerprint_aborts
    (P : OpenPGP) (W : World) (passphrase : option str)
    (server_pub_key client_priv_key : PGPKey) (path : str) :
  fst (fixed_rmap_client.find_and_load_server_key W initial)
    = Ret (Some (server_pub_key, path)) ->
  fst (fixed_rmap_client.load_and_verify_client_key W initial)
    = Ret (Some client_priv_key) ->
  fingerprint server_pub_key = fingerprint client_priv_key ->
  fixed_rmap_client.main P W passphrase initial
  = (Ret false,
     {| trace := [EvHttp (GET (fixed_rmap_client.SERVER_BASE ++ lit "/"))];
        unlocked := false |}).
Proof.
  intros Hs Hc Hf. unfold fixed_rmap_client.main.
  destruct (connectivity_run W initial) as [b Hb].
  rewrite (bind_ret _ _ _ _ _ Hb). simpl trace. simpl unlocked.
  destruct b; [|reflexivity]. cbn [negb app].
  unfold fixed_rmap_client.find_and_load_server_key in *.
  rewrite bind_run, find_and_load_state, Hs.
  rewrite bind_run, load_client_key_state, Hc.
  unfold fixed_rmap_client.verify_different_keys.
  rewrite bool_decide_eq_true_2 by exact Hf. reflexivity.
Qed.

Lemma same_fingerprint_aborts_witness :
  fixed_rmap_client.main Toy.cipher
    (Toy.world Toy.clash_priv PyNone PyNone Toy.pdf_ok) Toy.passphrase initial
  = (Ret false,
     {| trace := [EvHttp (GET (fixed_rmap_client.SERVER_BASE ++ lit "/"))];
        unlocked := false |}).
Proof.
  apply (same_fingerprint_aborts Toy.cipher _ Toy.passphrase
           Toy.server_pub Toy.clash_priv (lit "pub.asc"));
    reflexivity.
Defined.

(** ** What the primitives do to the state *)

Lemma bind_inv_ret {A B} (m : M A) (f : A -> M B) s b s' :
  (m ≫= f) s = (Ret b, s') ->
  exists a s1, m s = (Ret a, s1) /\ f a s1 = (Ret b, s').
Proof.
  rewrite bind_run. destruct (m s) as [[a|e] s1]; [eauto|discriminate].
Qed.

Lemma bind_inv {A B} (m : M A) (f : A -> M B) s r s' :
  (m ≫= f) s = (r, s') ->
  (exists a s1, m s = (Ret a, s1) /\ f a s1 = (r, s'))
  \/ (exists e, m s = (Raise e, s') /\ r = Raise e).
Proof.
  rewrite bind_run. destruct (m s) as [[a|e] s1]; [eauto|].
  intros [= <- <-]. eauto.
Qed.

Lemma lift_inv {A} (r r' : res A) s s' :
  lift r s = (r', s') -> r' = r /\ s' = s.
Proof. unfold lift. intros [= <- <-]. auto. Qed.

Lemma mret_inv {A} (a : A) (r : res A) s s' :
  (mret a : M A) s = (r, s') -> r = Ret a /\ s' = s.
Proof. intros [= <- <-]. auto. Qed.

Definition push (e : list event) (s : state) : state :=
  {| trace := trace s ++ e; unlocked := unlocked s |}.

Lemma push_push a b s : push b (push a s) = push (a ++ b) s.
Proof. unfold push. simpl. rewrite app_assoc. reflexivity. Qed.

Lemma push_nil s : push [] s = s.
Proof. destruct s. unfold push. simpl. rewrite app_nil_r. reflexivity. Qed.

Lemma emit_run e s : emit e s = (Ret tt, push [e] s).
Proof. reflexivity. Qed.

Lemma randbits64_run W s :
  randbits64 W s
  = (Ret (Z.land (entropy W) (Z.ones 64)),
     push [EvRandbits (Z.land (entropy W) (Z.ones 64))] s).
Proof. reflexivity. Qed.

Lemma encrypt_run P W key plaintext s :
  encrypt P W key plaintext s
  = (pgp_encrypt P key (session_seed W (encrypts (trace s))) plaintext,
     push [EvEncrypt key plaintext] s).
Proof. reflexivity. Qed.

Lemma requests_send_run W r s :
  requests_send W r s
  = (match http W r with
     | Some resp => Ret resp
     | None => Raise (Exception RequestError)
     end, push [EvHttp r] s).
Proof.
  unfold requests_send. rewrite bind_run, emit_run.
  destruct (http W r); reflexivity.
Qed.

Lemma urlopen_run W r s :
  urlopen W r s
  = (match http W r with
     | Some resp =>
         if (200 <=? status_code resp)%Z && (status_code resp <? 300)%Z
         then Ret resp else Raise (Exception HTTPError)
     | None => Raise (Exception RequestError)
     end, push [EvHttp r] s).
Proof.
  unfold urlopen. rewrite bind_run, emit_run.
  destruct (http W r); [|reflexivity]. destruct (_ && _); reflexivity.
Qed.

Lemma decrypt_state P key m s r s' :
  decrypt P key m s = (r, s') -> s' = s.
Proof.
  unfold decrypt. rewrite bind_run. unfold get_unlocked.
  repeat split_goal; intros [= <- <-]; reflexivity.
Qed.

Lemma response_json_state r s res s' :
  response_json r s = (res, s') -> s' = s.
Proof.
  unfold response_json. destruct (text r); intros [= <- <-]; reflexivity.
Qed.

Lemma write_file_run W path data s :
  write_file W path data s
  = if writable W path then (Ret tt, push [EvWrite path data] s)
    else (Raise (Exception OSError), s).
Proof. unfold write_file. destruct (writable W path); reflexivity. Qed.

(** [unlock]: the body runs with the key unlocked, and the key is locked
    again whatever the body does; without the right passphrase the body
    does not run. *)
Lemma unlock_run {A} P key passphrase (body : M A) s :
  unlock P key passphrase body s =
  if is_public key || negb (is_protected key) then body s
  else if match passphrase with
          | Some p => pgp_unprotect P key p
          | None => false
          end
  then let '(r, s1) :=
         body {| trace := trace s ++ [EvUnlock]; unlocked := true |} in
       (r, {| trace := trace s1 ++ [EvRelock]; unlocked := false |})
  else (Raise (Exception match passphrase with
                         | Some _ => PGPError
                         | None => TypeError
                         end),
        {| trace := trace s ++ [EvRelock]; unlocked := false |}).
Proof.
  unfold unlock. destruct (_ || _); [reflexivity|].
  unfold try_finally. rewrite !bind_run.
  destruct passphrase as [p|]; [destruct (pgp_unprotect P key p)|]; simpl;
    reflexivity.
Qed.

(** ** The seal and open functions of the four scripts *)

Definition after_unlock (s : state) : state :=
  {| trace := trace s ++ [EvUnlock; EvRelock]; unlocked := false |}.

Definition after_refusal (s : state) : state :=
  {| trace := trace s ++ [EvRelock]; unlocked := false |}.

Lemma encrypt_to_server_run P W obj key s :
  fixed_rmap_client.encrypt_to_server P W obj key s =
  match Json.dumps obj with
  | Ret plaintext =>
      (seal P key (session_seed W (encrypts (trace s))) obj,
       push [EvEncrypt key plaintext] s)
  | Raise e => (Raise e, s)
  end.
Proof.
  unfold fixed_rmap_client.encrypt_to_server, seal.
  rewrite bind_run, lift_run.
  destruct (Json.dumps obj) as [plaintext|e];
    cbn [mbind res_bind]; [|reflexivity].
  rewrite bind_run, encrypt_run.
  destruct (pgp_encrypt P key _ plaintext) as [enc|e];
    cbn [mbind res_bind]; [|reflexivity].
  rewrite bind_run, lift_run.
  destruct (str_encode _) as [b|e]; reflexivity.
Qed.

Lemma test_encrypt_to_server_eq P W key obj :
  rmap_client_test.encrypt_to_server P W key obj
  = fixed_rmap_client.encrypt_to_server P W obj key.
Proof. reflexivity. Qed.

Lemma pdf_encrypt_for_server_eq P W self obj :
  rmap_client_pdf_getting.encrypt_for_server P W self obj
  = fixed_rmap_client.encrypt_to_server P W obj
      (rmap_client_pdf_getting.server_pub self).
Proof. reflexivity. Qed.

Lemma group_encrypt_to_target_eq P W self data :
  test_group_rmap.encrypt_to_target P W self data
  = fixed_rmap_client.encrypt_to_server P W data
      (test_group_rmap.target_pub_key self).
Proof. reflexivity. Qed.

Lemma test_decrypt_from_server_eq P passphrase key payload :
  rmap_client_test.decrypt_from_server P passphrase key payload
  = fixed_rmap_client.decrypt_from_server P passphrase payload key.
Proof. reflexivity. Qed.

Lemma group_decrypt_from_target_eq P self payload :
  test_group_rmap.decrypt_from_target P self payload
  = rmap_client_pdf_getting.decrypt_for_client P
      {| rmap_client_pdf_getting.client_priv := test_group_rmap.your_priv_key self;
         rmap_client_pdf_getting.server_pub := test_group_rmap.target_pub_key self;
         rmap_client_pdf_getting.passphrase := test_group_rmap.passphrase self |}
      payload.
Proof. reflexivity. Qed.

(** The three ways a decrypt call can leave the state: untouched, after
    an unlock and a relock, or after a refused unlock, which raises. *)
Definition decrypt_effect {A} (s : state) (r : res A) (s' : state) : Prop :=
  s' = s \/ s' = after_unlock s
  \/ (s' = after_refusal s /\ exists c, r = Raise (Exception c)).

Lemma unlocked_body_effect {A} P key passphrase (body : M A) s r s' :
  (forall s0 r0 s1, body s0 = (r0, s1) -> s1 = s0) ->
  unlock P key passphrase body s = (r, s') ->
  decrypt_effect s r s'.
Proof.
  intros Hbody. rewrite unlock_run. unfold decrypt_effect.
  destruct (_ || _).
  - intros H. left. eapply Hbody, H.
  - destruct (match passphrase with Some p => _ | None => _ end).
    + destruct (body _) as [r1 s1] eqn:E. apply Hbody in E. subst s1.
      intros [= <- <-]. right. left. unfold after_unlock. simpl.
      rewrite <- app_assoc. reflexivity.
    + intros [= <- <-]. right. right. eauto.
Qed.

Lemma decrypt_effect_raise {A B} s (r : res A) s' e :
  decrypt_effect s r s' -> r = Raise e -> decrypt_effect s (Raise e : res B) s'.
Proof.
  intros [H|[H|[H [c Hc]]]] ->; [left|right; left|right; right]; auto.
  injection Hc as ->. eauto.
Qed.

Lemma decrypt_effect_ret {A} s (a : A) s' :
  decrypt_effect s (Ret a) s' -> s' = s \/ s' = after_unlock s.
Proof. intros [H|[H|[_ [c Hc]]]]; [auto|auto|discriminate]. Qed.

Lemma decrypt_from_server_effect P passphrase payload key s r s' :
  fixed_rmap_client.decrypt_from_server P passphrase payload key s = (r, s') ->
  decrypt_effect s r s'.
Proof.
  unfold fixed_rmap_client.decrypt_from_server. intros H.
  apply bind_inv in H as [(armored & s1 & H1 & H)|(e & H1 & _)];
    apply lift_inv in H1 as [_ ->]; [|left; reflexivity].
  apply bind_inv in H as [(msg & s1 & H1 & H)|(e & H1 & _)];
    apply lift_inv in H1 as [_ ->]; [|left; reflexivity].
  destruct (_ && _).
  { apply lift_inv in H as [_ ->]. left. reflexivity. }
  assert (Hd : forall d s1,
             (if is_protected key
              then unlock P key passphrase (decrypt P key msg)
              else decrypt P key msg) s = (d, s1) -> decrypt_effect s d s1).
  { intros d s1. destruct (is_protected key).
    - apply unlocked_body_effect. intros ? ? ?. apply decrypt_state.
    - intros Hd. apply decrypt_state in Hd as ->. left. reflexivity. }
  apply bind_inv in H as [(dec & s1 & H1 & H)|(e & H1 & ->)].
  - apply lift_inv in H as [_ ->]. apply Hd in H1.
    apply decrypt_effect_ret in H1 as [->| ->]; [left|right; left]; reflexivity.
  - eapply decrypt_effect_raise; [eapply Hd, H1|reflexivity].
Qed.

Lemma decrypt_for_client_effect P self payload s r s' :
  rmap_client_pdf_getting.decrypt_for_client P self payload s = (r, s') ->
  decrypt_effect s r s'.
Proof.
  unfold rmap_client_pdf_getting.decrypt_for_client. intros H.
  apply bind_inv in H as [(armored & s1 & H1 & H)|(e & H1 & _)];
    apply lift_inv in H1 as [_ ->]; [|left; reflexivity].
  apply bind_inv in H as [(msg & s1 & H1 & H)|(e & H1 & _)];
    apply lift_inv in H1 as [_ ->]; [|left; reflexivity].
  eapply unlocked_body_effect, H. clear.
  intros s0 r0 s1 H.
  apply bind_inv in H as [(dec & s2 & H1 & H)|(e & H1 & _)].
  - apply lift_inv in H as [_ ->]. eapply decrypt_state, H1.
  - eapply decrypt_state, H1.
Qed.

(** ** The first round trip *)

(** What a session has done when only the first round trip took place:
    it drew the nonce, sealed one message to the peer's key, posted it to
    [/api/rmap-initiate] and, for a protected key, unlocked and relocked
    the private key to open the answer. *)
Definition first_round_only (base : str) (server_pub_key : PGPKey)
    (nonce_client : Z) (s0 s1 : state) : Prop :=
  exists plaintext envelope tail,
    trace s1 = trace s0
      ++ [EvRandbits nonce_client;
          EvEncrypt server_pub_key plaintext;
          EvHttp (POST (base ++ lit "/api/rmap-initiate")
                       (payload_body envelope))]
      ++ tail
    /\ (tail = [] \/ tail = [EvUnlock; EvRelock]).

Lemma first_round_tail {A} base spk nonce pt env s0 (r : res A) s1 :
  decrypt_effect
    (push [EvHttp (POST (base ++ lit "/api/rmap-initiate") (payload_body env))]
       (push [EvEncrypt spk pt] (push [EvRandbits nonce] s0)))
    r s1 ->
  is_ret r = true ->
  first_round_only base spk nonce s0 s1.
Proof.
  intros H Hr. exists pt, env.
  destruct H as [->|[->|[_ [c ->]]]]; [| |discriminate].
  - exists []. simpl. rewrite <- !app_assoc. auto.
  - exists [EvUnlock; EvRelock]. simpl. rewrite <- !app_assoc. auto.
Qed.

Lemma fixed_message1_trace P W passphrase spk cpk s0 nonce obj1 s1 :
  fixed_rmap_client.message1 P W passphrase spk cpk s0
    = (Ret (Some (nonce, obj1)), s1) ->
  first_round_only fixed_rmap_client.SERVER_BASE spk nonce s0 s1.
Proof.
  unfold fixed_rmap_client.message1. intros H.
  apply bind_inv_ret in H as (n & s & Hn & H).
  rewrite randbits64_run in Hn. injection Hn as <- <-.
  apply bind_inv_ret in H as (env & s & He & H).
  rewrite encrypt_to_server_run in He.
  destruct (Json.dumps _) as [pt|]; [|discriminate].
  injection He as He <-.
  apply bind_inv_ret in H as (r & s & Hr & H).
  rewrite requests_send_run in Hr. injection Hr as Hr <-.
  destruct (negb _); [discriminate|].
  apply bind_inv_ret in H as (resp1 & s & Hj & H).
  apply response_json_state in Hj as ->.
  apply bind_inv_ret in H as (has & s & Hh & H).
  apply lift_inv in Hh as [_ ->].
  destruct (negb has); [discriminate|].
  apply bind_inv_ret in H as (payload & s & Hp & H).
  apply lift_inv in Hp as [_ ->].
  apply bind_inv_ret in H as (obj & s & Hd & H).
  injection H as <- <- <-.
  apply decrypt_from_server_effect in Hd.
  eapply first_round_tail; [exact Hd|reflexivity].
Qed.

Lemma raise_for_status_state r s res s' :
  raise_for_status r s = (res, s') -> s' = s.
Proof.
  unfold raise_for_status. destruct (_ && _); intros [= <- <-]; reflexivity.
Qed.

Lemma test_message1_trace P W passphrase spk cpk s0 nonce obj1 s1 :
  rmap_client_test.message1 P W passphrase spk cpk s0
    = (Ret (nonce, obj1), s1) ->
  first_round_only rmap_client_test.SERVER_BASE spk nonce s0 s1.
Proof.
  unfold rmap_client_test.message1. intros H.
  apply bind_inv_ret in H as (n & s & Hn & H).
  rewrite randbits64_run in Hn. injection Hn as <- <-.
  apply bind_inv_ret in H as (env & s & He & H).
  rewrite test_encrypt_to_server_eq, encrypt_to_server_run in He.
  destruct (Json.dumps _) as [pt|]; [|discriminate].
  injection He as He <-.
  apply bind_inv_ret in H as (r & s & Hr & H).
  rewrite requests_send_run in Hr. injection Hr as Hr <-.
  apply bind_inv_ret in H as (u & s & Hu & H).
  apply raise_for_status_state in Hu as ->.
  apply bind_inv_ret in H as (resp1 & s & Hj & H).
  apply response_json_state in Hj as ->.
  apply bind_inv_ret in H as (has & s & Hh & H).
  apply lift_inv in Hh as [_ ->].
  destruct (negb has); [discriminate|].
  apply bind_inv_ret in H as (payload & s & Hp & H).
  apply lift_inv in Hp as [_ ->].
  apply bind_inv_ret in H as (obj & s & Hd & H).
  injection H as <- <- <-.
  rewrite test_decrypt_from_server_eq in Hd.
  apply decrypt_from_server_effect in Hd.
  eapply first_round_tail; [exact Hd|reflexivity].
Qed.

(** C1. When the decrypted first response holds a [nonceClient] that is
    not equal to the nonce the session drew (or holds none), the session
    fails - [fixed_rmap_client] returns [False], [rmap_client_test] exits -
    in the state the decryption left: the run consists of the first
    round trip alone, so no second envelope is sealed and nothing is
    posted to [/api/rmap-get-link]. *)
Theorem nonce_mismatch_aborts
    (P : OpenPGP) (W : World) (passphrase : option str)
    (server_pub_key client_priv_key : PGPKey)
    (nonce_client : Z) (obj1 echoed : pyobj) (s0 s1 : state) :
  py_get obj1 (lit "nonceClient") PyNone = Ret echoed ->
  py_eq echoed (PyInt nonce_client) = false ->
  (fixed_rmap_client.message1 P W passphrase server_pub_key client_priv_key s0
     = (Ret (Some (nonce_client, obj1)), s1) ->
   fixed_rmap_client.handshake P W passphrase server_pub_key client_priv_key s0
     = (Ret false, s1)
   /\ first_round_only fixed_rmap_client.SERVER_BASE server_pub_key
        nonce_client s0 s1)
  /\
  (rmap_client_test.message1 P W passphrase server_pub_key client_priv_key s0
     = (Ret (nonce_client, obj1), s1) ->
   rmap_client_test.handshake P W passphrase server_pub_key client_priv_key s0
     = (Raise (SystemExit 1), s1)
   /\ first_round_only rmap_client_test.SERVER_BASE server_pub_key
        nonce_client s0 s1).
Proof.
  intros Hget Hne. split; intros H1.
  - split; [|eapply fixed_message1_trace, H1].
    unfold fixed_rmap_client.handshake.
    erewrite try_except_ret; [reflexivity|].
    rewrite (bind_ret _ _ _ _ _ H1).
    unfold fixed_rmap_client.message2.
    rewrite !bind_run, lift_run, Hget, Hne. reflexivity.
  - split; [|eapply test_message1_trace, H1].
    unfold rmap_client_test.handshake.
    rewrite (bind_ret _ _ _ _ _ H1).
    unfold rmap_client_test.message2. cbn [fst snd].
    rewrite !bind_run, lift_run, Hget, Hne. reflexivity.
Qed.

Lemma nonce_mismatch_aborts_witness :
  fst (fixed_rmap_client.handshake Toy.cipher Toy.mismatch Toy.passphrase
         Toy.server_pub Toy.client_priv initial) = Ret false
  /\ fst (rmap_client_test.handshake Toy.cipher Toy.mismatch Toy.passphrase
            Toy.server_pub Toy.client_priv initial) = Raise (SystemExit 1).
Proof.
  split.
  - destruct (nonce_mismatch_aborts Toy.cipher Toy.mismatch Toy.passphrase
                Toy.server_pub Toy.client_priv 123456789
                (Toy.echo (PyInt 5) (PyInt 987654321)) (PyInt 5) initial
                (snd (fixed_rmap_client.message1 Toy.cipher Toy.mismatch
                        Toy.passphrase Toy.server_pub Toy.client_priv initial)))
      as [H _]; [reflexivity|reflexivity|].
    destruct H as [H _]; [vm_compute; reflexivity|].
    rewrite H. reflexivity.
  - destruct (nonce_mismatch_aborts Toy.cipher Toy.mismatch Toy.passphrase
                Toy.server_pub Toy.client_priv 123456789
                (Toy.echo (PyInt 5) (PyInt 987654321)) (PyInt 5) initial
                (snd (rmap_client_test.message1 Toy.cipher Toy.mismatch
                        Toy.passphrase Toy.server_pub Toy.client_priv initial)))
      as [_ H]; [reflexivity|reflexivity|].
    destruct H as [H _]; [vm_compute; reflexivity|].
    rewrite H. reflexivity.
Defined.

(** ** The four seal functions *)

(** C9. The seal functions of the four scripts are one function: each
    writes the message as canonical JSON, records the encryption of that
    plaintext to the recipient's key, and returns the envelope of the
    specification (encrypt, armor, base64) for the next session seed;
    when the message cannot be serialised each raises the same exception
    and does nothing. *)
Theorem seal_functions_agree
    (P : OpenPGP) (W : World) (message : pyobj) (recipient own : PGPKey)
    (passphrase : option str) (s : state) :
  let run :=
    match Json.dumps message with
    | Ret plaintext =>
        (seal P recipient (session_seed W (encrypts (trace s))) message,
         push [EvEncrypt recipient plaintext] s)
    | Raise e => (Raise e, s)
    end in
  fixed_rmap_client.encrypt_to_server P W message recipient s = run
  /\ rmap_client_test.encrypt_to_server P W recipient message s = run
  /\ rmap_client_pdf_getting.encrypt_for_server P W
       {| rmap_client_pdf_getting.client_priv := own;
          rmap_client_pdf_getting.server_pub := recipient;
          rmap_client_pdf_getting.passphrase := passphrase |} message s = run
  /\ test_group_rmap.encrypt_to_target P W
       {| test_group_rmap.your_priv_key := own;
          test_group_rmap.target_pub_key := recipient;
          test_group_rmap.passphrase := passphrase |} message s = run.
Proof.
  intros run. subst run.
  rewrite test_encrypt_to_server_eq, pdf_encrypt_for_server_eq,
    group_encrypt_to_target_eq.
  cbn [rmap_client_pdf_getting.server_pub test_group_rmap.target_pub_key].
  rewrite encrypt_to_server_run. auto.
Qed.

(** ** Unlocking the private key *)

Lemma decrypt_effect_locked {A} s (r : res A) s' :
  decrypt_effect s r s' -> unlocked s = false -> unlocked s' = false.
Proof. intros [->|[->|[-> _]]] H; auto. Qed.

Lemma decrypt_effect_trace {A} s (r : res A) s' :
  decrypt_effect s r s' ->
  trace s' = trace s
  \/ trace s' = trace s ++ [EvUnlock; EvRelock]
  \/ trace s' = trace s ++ [EvRelock].
Proof. intros [->|[->|[-> _]]]; auto. Qed.

(** C8. A call of any of the four decrypt functions on a key that is
    locked leaves it locked, whether the call returns or raises: either
    the state is untouched, or the key was unlocked and relocked inside
    the call, or the unlock was refused and the secret material cleared.
    In the first two cases nothing else changed; an unlock never comes
    without its relock. *)
Theorem decrypt_relocks
    (P : OpenPGP) (passphrase : option str) (payload : pyobj)
    (client_priv_key server_pub_key : PGPKey) (s : state) :
  is_protected client_priv_key = true ->
  unlocked s = false ->
  let relocked (run : res pyobj * state) :=
    unlocked (snd run) = false
    /\ (snd run = s
        \/ snd run = {| trace := trace s ++ [EvUnlock; EvRelock];
                        unlocked := false |}
        \/ (snd run = {| trace := trace s ++ [EvRelock]; unlocked := false |}
            /\ is_ret (fst run) = false)) in
  relocked (fixed_rmap_client.decrypt_from_server P passphrase payload
              client_priv_key s)
  /\ relocked (rmap_client_test.decrypt_from_server P passphrase
                 client_priv_key payload s)
  /\ relocked (rmap_client_pdf_getting.decrypt_for_client P
                 {| rmap_client_pdf_getting.client_priv := client_priv_key;
                    rmap_client_pdf_getting.server_pub := server_pub_key;
                    rmap_client_pdf_getting.passphrase := passphrase |}
                 payload s)
  /\ relocked (test_group_rmap.decrypt_from_target P
                 {| test_group_rmap.your_priv_key := client_priv_key;
                    test_group_rmap.target_pub_key := server_pub_key;
                    test_group_rmap.passphrase := passphrase |}
                 payload s).
Proof.
  intros _ Hlocked relocked.
  assert (Hr : forall run, decrypt_effect s (fst run) (snd run) -> relocked run).
  { intros [r s'] H. unfold relocked. cbn [fst snd] in *. split.
    - eapply decrypt_effect_locked; eauto.
    - destruct H as [->|[->|[-> [c ->]]]]; auto. }
  rewrite test_decrypt_from_server_eq, group_decrypt_from_target_eq.
  cbn [test_group_rmap.your_priv_key test_group_rmap.target_pub_key
       test_group_rmap.passphrase].
  repeat apply conj; apply Hr;
    match goal with
    | |- decrypt_effect _ (fst ?run) (snd ?run) =>
        destruct run as [r s'] eqn:E; cbn [fst snd]
    end;
    first [eapply decrypt_from_server_effect, E
          |eapply decrypt_for_client_effect, E].
Qed.

Lemma decrypt_relocks_witness :
  unlocked
    (snd (fixed_rmap_client.decrypt_from_server Toy.cipher Toy.passphrase
            (PyStr (Toy.envelope Toy.client_pub 1 (PyDict [])))
            Toy.client_priv initial)) = false
  /\ unlocked
       (snd (rmap_client_pdf_getting.decrypt_for_client Toy.cipher
               {| rmap_client_pdf_getting.client_priv := Toy.client_priv;
                  rmap_client_pdf_getting.server_pub := Toy.server_pub;
                  rmap_client_pdf_getting.passphrase := Some (lit "wrong") |}
               (PyStr (Toy.envelope Toy.client_pub 1 (PyDict [])))
               initial)) = false.
Proof.
  destruct (decrypt_relocks Toy.cipher Toy.passphrase
              (PyStr (Toy.envelope Toy.client_pub 1 (PyDict [])))
              Toy.client_priv Toy.server_pub initial)
    as [[H1 _] _]; [reflexivity|reflexivity|].
  destruct (decrypt_relocks Toy.cipher (Some (lit "wrong"))
              (PyStr (Toy.envelope Toy.client_pub 1 (PyDict [])))
              Toy.client_priv Toy.server_pub initial)
    as (_ & _ & [H2 _] & _); [reflexivity|reflexivity|].
  exact (conj H1 H2).
Defined.

(** ** The second round trip *)

Definition nonce_server_body : pyobj -> pyobj :=
  fun nonce_server => PyDict [(KStr (lit "nonceServer"), nonce_server)].

Lemma dict_contains d k v :
  dict_get d (KStr k) = Some v -> py_contains (PyDict d) k = Ret true.
Proof.
  intros H. unfold py_contains. rewrite H.
  rewrite bool_decide_eq_true_2; [reflexivity|eauto].
Qed.

Lemma dict_getitem d k v :
  dict_get d (KStr k) = Some v -> py_getitem (PyDict d) k = Ret v.
Proof. intros H. unfold py_getitem. rewrite H. reflexivity. Qed.

Lemma dict_get_method d k v default :
  dict_get d (KStr k) = Some v -> py_get (PyDict d) k default = Ret v.
Proof. intros H. unfold py_get. rewrite H. reflexivity. Qed.

Lemma fixed_message2_run P W spk nonce d echoed ns plaintext env r2 t d2 tok s :
  dict_get d (KStr (lit "nonceClient")) = Some echoed ->
  py_eq echoed (PyInt nonce) = true ->
  dict_get d (KStr (lit "nonceServer")) = Some ns ->
  Json.dumps (nonce_server_body ns) = Ret plaintext ->
  seal P spk (session_seed W (encrypts (trace s))) (nonce_server_body ns)
    = Ret env ->
  http W (POST (fixed_rmap_client.SERVER_BASE ++ lit "/api/rmap-get-link")
               (payload_body env)) = Some r2 ->
  status_code r2 = 200%Z ->
  text r2 = Some t ->
  Json.loads t = Ret (PyDict d2) ->
  dict_get d2 (KStr (lit "result")) = Some tok ->
  fixed_rmap_client.message2 P W spk nonce (PyDict d) s
  = (Ret (Some tok),
     push [EvEncrypt spk plaintext;
           EvHttp (POST (fixed_rmap_client.SERVER_BASE
                         ++ lit "/api/rmap-get-link") (payload_body env))] s).
Proof.
  intros Hecho Heq Hns Hdumps Hseal Hhttp Hstatus Htext Hloads Htok.
  unfold fixed_rmap_client.message2.
  rewrite bind_run, lift_run, (dict_get_method _ _ _ _ Hecho), Heq.
  cbn [negb].
  rewrite bind_run, lift_run, (dict_getitem _ _ _ Hns).
  fold (nonce_server_body ns).
  rewrite bind_run, encrypt_to_server_run, Hdumps, Hseal.
  rewrite bind_run, requests_send_run, Hhttp, Hstatus.
  cbn [Z.eqb Pos.eqb negb].
  unfold response_json. rewrite Htext, bind_run, lift_run, Hloads.
  rewrite bind_run, lift_run, (dict_contains _ _ _ Htok). cbn [negb].
  rewrite bind_run, lift_run, (dict_getitem _ _ _ Htok).
  rewrite push_push. reflexivity.
Qed.

Lemma test_message2_run P W spk nonce d echoed ns plaintext env r2 t d2 tok s :
  dict_get d (KStr (lit "nonceClient")) = Some echoed ->
  py_eq echoed (PyInt nonce) = true ->
  dict_get d (KStr (lit "nonceServer")) = Some ns ->
  Json.dumps (nonce_server_body ns) = Ret plaintext ->
  seal P spk (session_seed W (encrypts (trace s))) (nonce_server_body ns)
    = Ret env ->
  http W (POST (rmap_client_test.SERVER_BASE ++ lit "/api/rmap-get-link")
               (payload_body env)) = Some r2 ->
  status_code r2 = 200%Z ->
  text r2 = Some t ->
  Json.loads t = Ret (PyDict d2) ->
  dict_get d2 (KStr (lit "result")) = Some tok ->
  rmap_client_test.message2 P W spk nonce (PyDict d) s
  = (Ret tok,
     push [EvEncrypt spk plaintext;
           EvHttp (POST (rmap_client_test.SERVER_BASE
                         ++ lit "/api/rmap-get-link") (payload_body env))] s).
Proof.
  intros Hecho Heq Hns Hdumps Hseal Hhttp Hstatus Htext Hloads Htok.
  unfold rmap_client_test.message2.
  rewrite bind_run, lift_run, (dict_get_method _ _ _ _ Hecho), Heq.
  cbn [negb].
  rewrite bind_run, lift_run, (dict_getitem _ _ _ Hns).
  fold (nonce_server_body ns).
  rewrite bind_run, test_encrypt_to_server_eq, encrypt_to_server_run,
    Hdumps, Hseal.
  rewrite bind_run, requests_send_run, Hhttp.
  rewrite bind_run. unfold raise_for_status. rewrite Hstatus.
  cbn [Z.leb Z.ltb Z.compare Pos.compare Pos.compare_cont andb mret M_ret].
  unfold response_json. rewrite Htext, bind_run, lift_run, Hloads.
  rewrite bind_run, lift_run, (dict_contains _ _ _ Htok). cbn [negb].
  rewrite lift_run, (dict_getitem _ _ _ Htok).
  rewrite push_push. reflexivity.
Qed.

Lemma try_except_bind {A B} (m : M A) (f : A -> M B) h s a s1 :
  m s = (Ret a, s1) ->
  try_except (m ≫= f) h s = try_except (f a) h s1.
Proof. intros H. unfold try_except. rewrite bind_run, H. reflexivity. Qed.



(** ** The download *)

Definition request_url (r : request) : str :=
  match r with GET url => url | POST url _ => url end.

(** The URLs requested in a run, oldest first. *)
Fixpoint urls (t : list event) : list str :=
  match t with
  | [] => []
  | EvHttp r :: t' => request_url r :: urls t'
  | _ :: t' => urls t'
  end.

(** The files written in a run. *)
Fixpoint writes (t : list event) : list (str * bytes) :=
  match t with
  | [] => []
  | EvWrite path data :: t' => (path, data) :: writes t'
  | _ :: t' => writes t'
  end.

(** In [fixed_rmap_client] the download writes the file only for a
    response with status 200 and content type [application/pdf], and
    writes nothing otherwise. *)
Lemma fixed_download_checks W link s r s' :
  fixed_rmap_client.download W link s = (r, s') ->
  (r <> Ret true /\ writes (trace s') = writes (trace s))
  \/ exists url resp,
       http W (GET url) = Some resp
       /\ status_code resp = 200%Z
       /\ content_type resp = Some (lit "application/pdf")
       /\ r = Ret true
       /\ s' = push [EvHttp (GET url);
                     EvWrite (lit "watermarked_Group_04.pdf") (content resp)] s.
Proof.
  assert (Hw : forall t e, writes [e] = [] -> writes (t ++ [e]) = writes t).
  { induction t as [|x t IH]; intros e He; simpl.
    - exact He.
    - destruct x; rewrite ?IH; auto. }
  unfold fixed_rmap_client.download. intros H.
  apply bind_inv in H as [(token & s1 & H1 & H)|(e & H1 & ->)];
    apply lift_inv in H1 as [_ ->]; [|left; split; [discriminate|reflexivity]].
  apply bind_inv in H as [(resp & s1 & H1 & H)|(e & H1 & ->)];
    rewrite requests_send_run in H1; injection H1 as H1 <-;
    [|left; split; [discriminate|apply Hw; reflexivity]].
  destruct (http W _) as [resp'|] eqn:Hhttp; [|discriminate].
  injection H1 as ->.
  destruct (status_code resp =? 200)%Z eqn:Hst; cbn [negb orb] in H.
  - destruct (bool_decide _) eqn:Hct; cbn [negb] in H.
    + apply bool_decide_eq_true_1 in Hct. apply Z.eqb_eq in Hst.
      rewrite bind_run, write_file_run in H.
      destruct (writable W _).
      * injection H as <- <-. right. eexists _, resp.
        rewrite push_push. repeat split; eauto.
      * injection H as <- <-. left.
        split; [discriminate|apply Hw; reflexivity].
    + injection H as <- <-. left.
      split; [discriminate|apply Hw; reflexivity].
  - injection H as <- <-. left.
    split; [discriminate|apply Hw; reflexivity].
Qed.

(** C3, at a failing input.  The peer answers the download with status
    200 and [Content-Type: text/html].  [fixed_rmap_client] and
    [rmap_client_test] refuse it and write nothing;
    [rmap_client_pdf_getting] and [test_group_rmap] do not look at the
    content type and write the page to the PDF file. *)
Theorem html_download_is_saved :
  (fst (fixed_rmap_client.download Toy.html_download (PyStr (lit "abc123"))
          initial) = Ret false
   /\ writes (trace (snd (fixed_rmap_client.download Toy.html_download
                            (PyStr (lit "abc123")) initial))) = [])
  /\ (fst (rmap_client_test.download Toy.html_download (PyStr (lit "abc123"))
             initial) = Raise (SystemExit 1)
      /\ writes (trace (snd (rmap_client_test.download Toy.html_download
                               (PyStr (lit "abc123")) initial))) = [])
  /\ (fst (rmap_client_pdf_getting.step4 Toy.html_download
             (PyStr (lit "abc123")) initial) = Ret tt
      /\ writes (trace (snd (rmap_client_pdf_getting.step4 Toy.html_download
                               (PyStr (lit "abc123")) initial)))
         = [(lit "Group_04_watermarked.pdf", lit "<html>")])
  /\ (fst (test_group_rmap.step4 Toy.html_download (PyStr (lit "abc123"))
             initial) = Ret true
      /\ writes (trace (snd (test_group_rmap.step4 Toy.html_download
                               (PyStr (lit "abc123")) initial)))
         = [(lit "Group_04_from_Group04.pdf", lit "<html>")]).
Proof. repeat split; vm_compute; reflexivity. Qed.

(** ** The nonce as text *)

(** C6, at a failing input.  The peer echoes the nonce 123456789 as the
    string ["123456789"].  [rmap_client_pdf_getting] and
    [test_group_rmap] coerce it with [int()] and complete the handshake;
    [fixed_rmap_client] and [rmap_client_test] compare the string with
    the integer, take the echo for a mismatch and stop after the first
    round trip. *)
Theorem text_nonce_is_a_mismatch :
  (fixed_rmap_client.main Toy.cipher Toy.text_echo Toy.passphrase initial).1
    = Ret false
  /\ urls (trace (fixed_rmap_client.main Toy.cipher Toy.text_echo
                    Toy.passphrase initial).2)
     = [fixed_rmap_client.SERVER_BASE ++ lit "/";
        fixed_rmap_client.SERVER_BASE ++ lit "/api/rmap-initiate"]
  /\ (rmap_client_test.script Toy.cipher Toy.text_echo Toy.passphrase initial).1
     = Raise (SystemExit 1)
  /\ (rmap_client_pdf_getting.main Toy.cipher Toy.text_echo Toy.passphrase
        initial).1 = Ret tt
  /\ urls (trace (rmap_client_pdf_getting.main Toy.cipher Toy.text_echo
                    Toy.passphrase initial).2)
     = [rmap_client_pdf_getting.SERVER_URL ++ lit "/api/rmap-initiate";
        rmap_client_pdf_getting.SERVER_URL ++ lit "/api/rmap-get-link";
        rmap_client_pdf_getting.SERVER_URL ++ lit "/api/get-version/abc123"]
  /\ (test_group_rmap.main Toy.cipher Toy.text_echo Toy.passphrase initial).1
     = Ret true.
Proof. repeat split; vm_compute; reflexivity. Qed.

(** ** A protected key and no passphrase *)

(** In [rmap_client_pdf_getting] the unlock test comes first: with a
    protected private key and no passphrase the script exits before it
    draws a nonce or sends anything. *)
Lemma pdf_getting_unlock_fails_first P W client_priv server_pub :
  key_file W rmap_client_pdf_getting.CLIENT_PRIV_KEY_PATH
    = Some (Some client_priv) ->
  key_file W rmap_client_pdf_getting.SERVER_PUB_KEY_PATH
    = Some (Some server_pub) ->
  is_protected client_priv = true ->
  is_public client_priv = false ->
  rmap_client_pdf_getting.main P W None initial
  = (Raise (SystemExit 1), {| trace := [EvRelock]; unlocked := false |}).
Proof.
  intros Hc Hs Hprot Hpub. unfold rmap_client_pdf_getting.main.
  assert (Hk : rmap_client_pdf_getting.load_keys W initial
               = (Ret (client_priv, server_pub), initial)).
  { unfold rmap_client_pdf_getting.load_keys, try_except, from_file.
    rewrite !bind_run, Hc. cbn [mret M_ret]. rewrite Hs. reflexivity. }
  rewrite (bind_ret _ _ _ _ _ Hk). cbn [fst snd].
  erewrite bind_raise; [reflexivity|].
  unfold rmap_client_pdf_getting.unlock_test, try_except.
  rewrite unlock_run, Hprot, Hpub. reflexivity.
Qed.

(** C7, at a failing input.  The private key is protected and the
    passphrase is [None].  [rmap_client_pdf_getting] fails at its unlock
    test, before any request.  [fixed_rmap_client] and
    [rmap_client_test] notice only inside [decrypt_from_server]: by then
    the first message has been posted (and, in [fixed_rmap_client], the
    server probed). *)
Theorem missing_passphrase_noticed_after_requests :
  (fixed_rmap_client.main Toy.cipher Toy.happy None initial).1
    = Raise (SystemExit 1)
  /\ urls (trace (fixed_rmap_client.main Toy.cipher Toy.happy None initial).2)
     = [fixed_rmap_client.SERVER_BASE ++ lit "/";
        fixed_rmap_client.SERVER_BASE ++ lit "/api/rmap-initiate"]
  /\ (rmap_client_test.script Toy.cipher Toy.happy None initial).1
     = Raise (SystemExit 1)
  /\ urls (trace (rmap_client_test.script Toy.cipher Toy.happy None initial).2)
     = [rmap_client_test.SERVER_BASE ++ lit "/api/rmap-initiate"]
  /\ rmap_client_pdf_getting.main Toy.cipher Toy.happy None initial
     = (Raise (SystemExit 1), {| trace := [EvRelock]; unlocked := false |}).
Proof.
  repeat split; vm_compute; reflexivity.
Qed.

(** * Further properties *)

(** ** Base64: decoding what was encoded *)

Ltac Zify.zify_post_hook ::= Z.to_euclidean_division_equations.

(** ** Bits as arithmetic *)

Lemma lor_shiftl_low a n b :
  b < 2 ^ n -> N.lor (N.shiftl a n) b = a * 2 ^ n + b.
Proof.
  intros Hb.
  assert (Hdisj : N.land (N.shiftl a n) b = 0).
  { apply N.bits_inj. intros i. rewrite N.land_spec, N.bits_0.
    destruct (N.lt_ge_cases i n) as [Hi|Hi].
    - rewrite N.shiftl_spec_low by exact Hi. reflexivity.
    - rewrite andb_comm.
      destruct (N.eq_dec b 0) as [->|Hnz]; [rewrite N.bits_0; reflexivity|].
      rewrite N.bits_above_log2; [reflexivity|].
      apply N.log2_lt_pow2; [lia|].
      eapply N.lt_le_trans; [exact Hb|].
      apply N.pow_le_mono_r; lia. }
  rewrite <- N.lxor_lor by exact Hdisj.
  rewrite <- N.add_nocarry_lxor by exact Hdisj.
  rewrite N.shiftl_mul_pow2. reflexivity.
Qed.

Lemma land_low a n : N.land a (N.ones n) = a mod 2 ^ n.
Proof. apply N.land_ones. Qed.

Lemma land_3 a : N.land a 3 = a mod 4.
Proof. exact (land_low a 2). Qed.
Lemma land_15 a : N.land a 15 = a mod 16.
Proof. exact (land_low a 4). Qed.
Lemma land_63 a : N.land a 63 = a mod 64.
Proof. exact (land_low a 6). Qed.

Lemma shiftr_2 a : N.shiftr a 2 = a / 4.
Proof. exact (N.shiftr_div_pow2 a 2). Qed.
Lemma shiftr_4 a : N.shiftr a 4 = a / 16.
Proof. exact (N.shiftr_div_pow2 a 4). Qed.
Lemma shiftr_6 a : N.shiftr a 6 = a / 64.
Proof. exact (N.shiftr_div_pow2 a 6). Qed.

Lemma lor_shiftl_2 a b : b < 4 -> N.lor (N.shiftl a 2) b = a * 4 + b.
Proof. exact (lor_shiftl_low a 2 b). Qed.
Lemma lor_shiftl_4 a b : b < 16 -> N.lor (N.shiftl a 4) b = a * 16 + b.
Proof. exact (lor_shiftl_low a 4 b). Qed.
Lemma lor_shiftl_6 a b : b < 64 -> N.lor (N.shiftl a 6) b = a * 64 + b.
Proof. exact (lor_shiftl_low a 6 b). Qed.
Lemma shiftl_2 a : N.shiftl a 2 = a * 4.
Proof. exact (N.shiftl_mul_pow2 a 2). Qed.
Lemma shiftl_4 a : N.shiftl a 4 = a * 16.
Proof. exact (N.shiftl_mul_pow2 a 4). Qed.

(** ** The alphabet *)

Lemma a2b_b2a_char i :
  i < 64 -> Base64.a2b_char (Base64.b2a_char i) = Some i.
Proof.
  intros Hi. unfold Base64.a2b_char, Base64.b2a_char.
  repeat match goal with
         | |- context [?x <? ?y] => destruct (N.ltb_spec x y)
         | |- context [?x <=? ?y] => destruct (N.leb_spec x y)
         | |- context [?x =? ?y] => destruct (N.eqb_spec x y)
         end; cbn [andb]; try (f_equal; lia); try lia.
Qed.

Lemma b2a_char_not_pad i : Base64.b2a_char i <> 61.
Proof.
  unfold Base64.b2a_char.
  repeat match goal with
         | |- context [?x <? ?y] => destruct (N.ltb_spec x y)
         | |- context [?x =? ?y] => destruct (N.eqb_spec x y)
         end; lia.
Qed.

Lemma b2a_char_ascii i : Base64.b2a_char i < 128.
Proof.
  unfold Base64.b2a_char.
  repeat match goal with
         | |- context [?x <? ?y] => destruct (N.ltb_spec x y)
         | |- context [?x =? ?y] => destruct (N.eqb_spec x y)
         end; lia.
Qed.

(** One data character in each position of a group. *)
Lemma a2b_data i r q left pads :
  i < 64 ->
  Base64.a2b_base64 (Base64.b2a_char i :: r) q left pads =
  match q with
  | 0%nat => Base64.a2b_base64 r 1 i 0
  | 1%nat => cons (N.lor (N.shiftl left 2) (N.shiftr i 4))
               <$> Base64.a2b_base64 r 2 (N.land i 15) 0
  | 2%nat => cons (N.lor (N.shiftl left 4) (N.shiftr i 2))
               <$> Base64.a2b_base64 r 3 (N.land i 3) 0
  | _ => cons (N.lor (N.shiftl left 6) i) <$> Base64.a2b_base64 r 0 0 0
  end.
Proof.
  intros Hi. cbn [Base64.a2b_base64].
  destruct (N.eqb_spec (Base64.b2a_char i) 61) as [E|_];
    [destruct (b2a_char_not_pad _ E)|].
  rewrite (a2b_b2a_char i Hi). reflexivity.
Qed.

Lemma group_bits a b c :
  a < 256 -> b < 256 -> c < 256 ->
  let x1 := N.shiftr a 2 in
  let x2 := N.lor (N.shiftl (N.land a 3) 4) (N.shiftr b 4) in
  let x3 := N.lor (N.shiftl (N.land b 15) 2) (N.shiftr c 6) in
  let x4 := N.land c 63 in
  (x1 < 64 /\ x2 < 64 /\ x3 < 64 /\ x4 < 64)
  /\ N.lor (N.shiftl x1 2) (N.shiftr x2 4) = a
  /\ N.lor (N.shiftl (N.land x2 15) 4) (N.shiftr x3 2) = b
  /\ N.lor (N.shiftl (N.land x3 3) 6) x4 = c.
Proof.
  intros Ha Hb Hc x1 x2 x3 x4. subst x1 x2 x3 x4.
  rewrite ?land_3, ?land_15, ?land_63, ?shiftr_2, ?shiftr_4, ?shiftr_6.
  rewrite !(lor_shiftl_4 (a mod 4) (b / 16)) by lia.
  rewrite !(lor_shiftl_2 (b mod 16) (c / 64)) by lia.
  rewrite lor_shiftl_2, lor_shiftl_4, lor_shiftl_6 by lia.
  repeat split; lia.
Qed.

Lemma tail_bits_1 a :
  a < 256 ->
  let x1 := N.shiftr a 2 in
  let x2 := N.shiftl (N.land a 3) 4 in
  (x1 < 64 /\ x2 < 64) /\ N.lor (N.shiftl x1 2) (N.shiftr x2 4) = a.
Proof.
  intros Ha x1 x2. subst x1 x2.
  rewrite !(shiftl_4 (N.land a 3)).
  rewrite ?land_3, ?shiftr_2, ?shiftr_4.
  rewrite lor_shiftl_2 by lia. repeat split; lia.
Qed.

Lemma tail_bits_2 a b :
  a < 256 -> b < 256 ->
  let x1 := N.shiftr a 2 in
  let x2 := N.lor (N.shiftl (N.land a 3) 4) (N.shiftr b 4) in
  let x3 := N.shiftl (N.land b 15) 2 in
  (x1 < 64 /\ x2 < 64 /\ x3 < 64)
  /\ N.lor (N.shiftl x1 2) (N.shiftr x2 4) = a
  /\ N.lor (N.shiftl (N.land x2 15) 4) (N.shiftr x3 2) = b.
Proof.
  intros Ha Hb x1 x2 x3. subst x1 x2 x3.
  rewrite !(shiftl_2 (N.land b 15)).
  rewrite ?land_3, ?land_15, ?shiftr_2, ?shiftr_4.
  rewrite !(lor_shiftl_4 (a mod 4) (b / 16)) by lia.
  rewrite lor_shiftl_2, lor_shiftl_4 by lia.
  repeat split; lia.
Qed.

(** [b64decode(b64encode(b)) == b] for every bytes object. *)
Lemma a2b_b2a_base64 :
  forall b, Forall (fun x => x < 256) b ->
  Base64.a2b_base64 (Base64.b2a_base64 b) 0 0 0 = Ret b.
Proof.
  fix IH 1. intros [|a [|b [|c r]]] H.
  - reflexivity.
  - apply Forall_cons in H as [Ha _].
    destruct (tail_bits_1 a Ha) as [(H1 & H2) E].
    cbn [Base64.b2a_base64].
    rewrite (a2b_data _ _ 0 _ _ H1), (a2b_data _ _ 1 _ _ H2), E.
    reflexivity.
  - apply Forall_cons in H as [Ha H]. apply Forall_cons in H as [Hb _].
    destruct (tail_bits_2 a b Ha Hb) as [(H1 & H2 & H3) [E1 E2]].
    cbn [Base64.b2a_base64].
    rewrite (a2b_data _ _ 0 _ _ H1), (a2b_data _ _ 1 _ _ H2),
      (a2b_data _ _ 2 _ _ H3), E1, E2.
    reflexivity.
  - apply Forall_cons in H as [Ha H]. apply Forall_cons in H as [Hb H].
    apply Forall_cons in H as [Hc H].
    destruct (group_bits a b c Ha Hb Hc) as [(H1 & H2 & H3 & H4) (E1 & E2 & E3)].
    cbn [Base64.b2a_base64].
    rewrite (a2b_data _ _ 0 _ _ H1), (a2b_data _ _ 1 _ _ H2),
      (a2b_data _ _ 2 _ _ H3), (a2b_data _ _ 3 _ _ H4), E1, E2, E3.
    rewrite (IH r H). reflexivity.
Qed.

Lemma b2a_base64_ascii :
  forall b, forallb (fun c => c <? 128) (Base64.b2a_base64 b) = true.
Proof.
  assert (Hc : forall i, (Base64.b2a_char i <? 128) = true).
  { intros i. apply N.ltb_lt, b2a_char_ascii. }
  fix IH 1. intros [|a [|b [|c r]]]; cbn [Base64.b2a_base64 forallb];
    rewrite ?Hc, ?IH; reflexivity.
Qed.

(** X1.  [base64.b64decode(base64.b64encode(b))] is [b] for every [bytes]
    object [b]; the encoded text is what [b64encode(b).decode()] gives. *)
Theorem b64decode_b64encode (b : bytes) :
  Forall (fun x => x < 256) b ->
  Base64.b64decode (PyStr (Base64.b64encode b)) = Ret b.
Proof.
  intros H. unfold Base64.b64decode, Base64.b64encode.
  rewrite b2a_base64_ascii. apply a2b_b2a_base64, H.
Qed.

Lemma b64decode_b64encode_witness :
  Base64.b64decode (PyStr (Base64.b64encode [0; 255; 16; 131]))
  = Ret [0; 255; 16; 131].
Proof.
  apply b64decode_b64encode.
  repeat (apply List.Forall_cons; [vm_compute; reflexivity|]).
  apply List.Forall_nil.
Defined.

Ltac Zify.zify_post_hook ::= idtac.

(** ** JSON strings: reading what was written *)

Ltac Zify.zify_post_hook ::= Z.to_euclidean_division_equations.

Ltac cases_N :=
  repeat match goal with
         | |- context [?x <? ?y] => destruct (N.ltb_spec x y)
         | |- context [?x <=? ?y] => destruct (N.leb_spec x y)
         | |- context [?x =? ?y] => destruct (N.eqb_spec x y)
         | H : context [?x <? ?y] |- _ => destruct (N.ltb_spec x y)
         | H : context [?x <=? ?y] |- _ => destruct (N.leb_spec x y)
         | H : context [?x =? ?y] |- _ => destruct (N.eqb_spec x y)
         end.

Lemma hexval_hexdigit d : d < 16 -> Json.hexval (Json.hexdigit d) = Some d.
Proof.
  intros Hd. unfold Json.hexval, Json.hexdigit.
  cases_N; cbn [andb]; try (f_equal; lia); lia.
Qed.

Lemma shiftr_div a n : N.shiftr a n = a / 2 ^ n.
Proof. apply N.shiftr_div_pow2. Qed.

Lemma hex4_u_escape n :
  n < 65536 ->
  exists digits,
    Json.u_escape n = 117 :: digits
    /\ length digits = 4%nat
    /\ forall r, Json.hex4 (digits ++ r) = Some (n, r).
Proof.
  intros Hn. eexists. split; [reflexivity|]. split; [reflexivity|]. intros r.
  cbn [app Json.hex4].
  rewrite !land_15, !shiftr_div.
  change (2 ^ 12) with 4096. change (2 ^ 8) with 256. change (2 ^ 4) with 16.
  rewrite !hexval_hexdigit by lia. cbn [mbind option_bind].
  f_equal. f_equal. lia.
Qed.

Definition hi_unit (c : N) : N := 0xd800 - 0x40 + N.shiftr c 10.
Definition lo_unit (c : N) : N := 0xdc00 + N.land c 0x3ff.

Inductive escape_shape (c : N) : str -> Prop :=
  | shape_plain :
      32 <= c -> c <> 92 -> c <> 34 -> escape_shape c [c]
  | shape_short e :
      e <> 117 -> Json.backslash e = Some c -> escape_shape c [92; e]
  | shape_pair :
      0x10000 <= c ->
      escape_shape c (92 :: Json.u_escape (hi_unit c)
                         ++ 92 :: Json.u_escape (lo_unit c))
  | shape_unit :
      c < 0x10000 -> escape_shape c (92 :: Json.u_escape c).

Lemma escape_char_shape c : escape_shape c (Json.escape_char c).
Proof.
  unfold Json.escape_char.
  destruct (_ && _ && _ && _) eqn:E.
  - apply andb_true_iff in E as [E E3]. apply andb_true_iff in E as [E E2].
    apply andb_true_iff in E as [E0 E1].
    apply N.leb_le in E0. apply negb_true_iff, N.eqb_neq in E2, E3.
    apply shape_plain; assumption.
  - destruct (N.eqb_spec c 92) as [Hc|?]; [rewrite Hc; apply (shape_short _ 92); [lia|reflexivity]|].
    destruct (N.eqb_spec c 34) as [Hc|?]; [rewrite Hc; apply (shape_short _ 34); [lia|reflexivity]|].
    destruct (N.eqb_spec c 8) as [Hc|?]; [rewrite Hc; apply (shape_short _ 98); [lia|reflexivity]|].
    destruct (N.eqb_spec c 12) as [Hc|?]; [rewrite Hc; apply (shape_short _ 102); [lia|reflexivity]|].
    destruct (N.eqb_spec c 10) as [Hc|?]; [rewrite Hc; apply (shape_short _ 110); [lia|reflexivity]|].
    destruct (N.eqb_spec c 13) as [Hc|?]; [rewrite Hc; apply (shape_short _ 114); [lia|reflexivity]|].
    destruct (N.eqb_spec c 9) as [Hc|?]; [rewrite Hc; apply (shape_short _ 116); [lia|reflexivity]|].
    destruct (N.leb_spec 0x10000 c).
    + apply shape_pair. assumption.
    + apply shape_unit. assumption.
Qed.

Lemma land_1023 a : N.land a 1023 = a mod 1024.
Proof. exact (land_low a 10). Qed.

Lemma pair_units c :
  0x10000 <= c -> c < 0x110000 ->
  hi_unit c < 65536 /\ lo_unit c < 65536
  /\ Json.is_high (hi_unit c) = true /\ Json.is_low (lo_unit c) = true
  /\ Json.join_surrogates (hi_unit c) (lo_unit c) = c.
Proof.
  intros H1 H2. unfold hi_unit, lo_unit, Json.is_high, Json.is_low,
    Json.join_surrogates.
  rewrite !land_1023, !shiftr_div. change (2 ^ 10) with 1024.
  rewrite (lor_shiftl_low _ 10) by (change (2 ^ 10) with 1024; lia).
  change (2 ^ 10) with 1024.
  repeat split; try lia.
  - apply andb_true_iff. split; apply N.leb_le; lia.
  - apply andb_true_iff. split; apply N.leb_le; lia.
Qed.

(** The steps of [scanstring]. *)
Lemma scanstring_plain f c r :
  32 <= c -> c <> 92 -> c <> 34 ->
  Json.scanstring (S f) (c :: r)
  = ('(t, rest) ← Json.scanstring f r; Ret (c :: t, rest)).
Proof.
  intros H1 H2 H3. cbn [Json.scanstring].
  destruct (N.eqb_spec c 34); [lia|]. destruct (N.eqb_spec c 92); [lia|].
  destruct (N.leb_spec c 31); [lia|]. reflexivity.
Qed.

Lemma scanstring_short f e c r :
  e <> 117 -> Json.backslash e = Some c ->
  Json.scanstring (S f) (92 :: e :: r)
  = ('(t, rest) ← Json.scanstring f r; Ret (c :: t, rest)).
Proof.
  intros H1 H2. cbn [Json.scanstring]. cbn [N.eqb Pos.eqb].
  destruct (N.eqb_spec e 117); [lia|]. rewrite H2. reflexivity.
Qed.

Lemma scanstring_quote f r : Json.scanstring (S f) (34 :: r) = Ret ([], r).
Proof. reflexivity. Qed.

(** What follows an escaped unit does not make a pair with it. *)
Definition no_low_after (uni : N) (r2 : str) : Prop :=
  match r2 with
  | 92 :: 117 :: r3 =>
      Json.is_high uni = false
      \/ exists uni2 r4, Json.hex4 r3 = Some (uni2, r4)
                         /\ Json.is_low uni2 = false
  | _ => True
  end.

Lemma scanstring_unit f c r2 :
  c < 65536 -> r2 <> [] -> no_low_after c r2 ->
  Json.scanstring (S f) (92 :: Json.u_escape c ++ r2)
  = ('(t, rest) ← Json.scanstring f r2; Ret (c :: t, rest)).
Proof.
  intros Hc Hne Hlow.
  destruct (hex4_u_escape c Hc) as (digits & -> & _ & Hhex).
  cbn [Json.scanstring app]. cbn [N.eqb Pos.eqb].
  rewrite Hhex.
  destruct r2 as [|x r2']; [congruence|].
  destruct (N.eq_dec x 92) as [->|Hx].
  - destruct r2' as [|y r3]; [reflexivity|].
    destruct (N.eq_dec y 117) as [->|Hy].
    + cbn [no_low_after] in Hlow. destruct Hlow as [Hh|(uni2 & r4 & H4 & Hl)].
      * rewrite Hh. reflexivity.
      * rewrite H4, Hl. destruct (_ && _); reflexivity.
    + destruct y as [|p]; [reflexivity|].
      repeat (destruct p as [p|p|]; try reflexivity; try (exfalso; apply Hy; reflexivity)).
  - destruct x as [|p]; [reflexivity|].
    repeat (destruct p as [p|p|]; try reflexivity; try (exfalso; apply Hx; reflexivity)).
Qed.

Lemma scanstring_pair f c r :
  0x10000 <= c -> c < 0x110000 -> r <> [] ->
  Json.scanstring (S f)
    (92 :: Json.u_escape (hi_unit c) ++ 92 :: Json.u_escape (lo_unit c) ++ r)
  = ('(t, rest) ← Json.scanstring f r; Ret (c :: t, rest)).
Proof.
  intros H1 H2 Hne.
  destruct (pair_units c H1 H2) as (Hhi & Hlo & Eh & El & Ej).
  destruct (hex4_u_escape _ Hhi) as (dh & -> & _ & Hh).
  destruct (hex4_u_escape _ Hlo) as (dl & -> & Hlen & Hl).
  cbn [Json.scanstring app]. cbn [N.eqb Pos.eqb].
  rewrite Hh, Eh, Hl, El, Ej.
  match goal with
  | |- context [Nat.leb 7 ?n] => replace (Nat.leb 7 n) with true
  end; [reflexivity|].
  symmetry. apply Nat.leb_le. cbn [length]. rewrite length_app, Hlen.
  destruct r; [congruence|]. cbn [length]. lia.
Qed.

Definition escaped (s : str) : str := concat (map Json.escape_char s).

Lemma escaped_cons c s : escaped (c :: s) = Json.escape_char c ++ escaped s.
Proof. reflexivity. Qed.

(** After a unit that is not the high half of a pair comes nothing that
    the scanner would join with it. *)
Lemma no_low_after_escaped c s rest :
  str_ok (c :: s) -> no_pair (c :: s) = true ->
  no_low_after c (escaped s ++ 34 :: rest).
Proof.
  intros Hok Hnp. destruct s as [|d s]; [exact I|].
  rewrite escaped_cons.
  apply Forall_cons in Hok as [_ Hok]. apply Forall_cons in Hok as [Hd _].
  cbn [no_pair] in Hnp. apply andb_true_iff in Hnp as [Hnp _].
  apply negb_true_iff, andb_false_iff in Hnp.
  destruct (escape_char_shape d) as [H32 H92 H34|e He Hb|Hbig|Hsmall].
  - cbn [app no_low_after].
    destruct d as [|p]; [exact I|].
    repeat (destruct p as [p|p|]; try exact I; try (exfalso; apply H92; reflexivity)).
  - cbn [app no_low_after].
    destruct e as [|p]; [exact I|].
    repeat (destruct p as [p|p|]; try exact I; try (exfalso; apply He; reflexivity)).
  - destruct (pair_units d Hbig Hd) as (Hhi & Hlo & Eh & El & Ej).
    destruct (hex4_u_escape _ Hhi) as (dh & -> & _ & Hh).
    cbn [app no_low_after]. right.
    eexists _, _. split; [rewrite <- !app_assoc; apply Hh|].
    unfold Json.is_high, Json.is_low in *.
    apply andb_true_iff in Eh as [E1 E2]. apply N.leb_le in E1, E2.
    apply andb_false_iff. left. apply N.leb_gt. lia.
  - destruct (hex4_u_escape _ Hsmall) as (dd & -> & _ & Hh).
    cbn [app no_low_after].
    destruct Hnp as [Hnp|Hnp]; [left; exact Hnp|right].
    eexists _, _. split; [rewrite <- ?app_assoc; apply Hh|exact Hnp].
Qed.

Lemma escaped_tail_nonempty s rest : escaped s ++ 34 :: rest <> [].
Proof. destruct (escaped s); discriminate. Qed.

(** [scanstring] reads back what [encode_basestring_ascii] wrote. *)
Lemma scanstring_escaped s : forall fuel rest,
  str_ok s -> no_pair s = true -> (length s < fuel)%nat ->
  Json.scanstring fuel (escaped s ++ 34 :: rest) = Ret (s, rest).
Proof.
  induction s as [|c s IH]; intros fuel rest Hok Hnp Hfuel.
  - destruct fuel; [inversion Hfuel|]. reflexivity.
  - destruct fuel as [|f]; [inversion Hfuel|].
    cbn [length] in Hfuel.
    assert (IH' : Json.scanstring f (escaped s ++ 34 :: rest) = Ret (s, rest)).
    { apply IH; [eapply Forall_inv_tail, Hok| |lia].
      cbn [no_pair] in Hnp. apply andb_true_iff in Hnp as [_ Hnp]. exact Hnp. }
    pose proof (Forall_inv Hok) as Hc. cbn beta in Hc.
    rewrite escaped_cons, <- app_assoc.
    destruct (escape_char_shape c) as [H32 H92 H34|e He Hb|Hbig|Hsmall].
    + cbn [app]. rewrite scanstring_plain, IH' by assumption. reflexivity.
    + cbn [app]. rewrite (scanstring_short _ _ c), IH' by assumption.
      reflexivity.
    + cbn [app]. rewrite <- app_assoc. cbn [app].
      rewrite scanstring_pair, IH';
        [reflexivity|assumption|assumption|apply escaped_tail_nonempty].
    + cbn [app]. rewrite scanstring_unit, IH';
        [reflexivity|lia|apply escaped_tail_nonempty|].
      apply no_low_after_escaped; assumption.
Qed.

Lemma encode_basestring_escaped s :
  Json.encode_basestring_ascii s = 34 :: escaped s ++ [34].
Proof. reflexivity. Qed.

Ltac Zify.zify_post_hook ::= idtac.

(** ** Integers *)

(** What may follow a value in the text that [dumps] writes. *)
Definition delimited (rest : str) : Prop :=
  match rest with
  | [] => True
  | c :: _ => c = 44 \/ c = 93 \/ c = 125
  end.

Lemma uint_of_chars_uint_chars u : Json.uint_of_chars (Json.uint_chars u) = u.
Proof. induction u; cbn; congruence. Qed.

Lemma span_digits_uint_chars u rest :
  delimited rest ->
  Json.span_digits (Json.uint_chars u ++ rest) = (Json.uint_chars u, rest).
Proof.
  intros Hd. induction u; cbn [Json.uint_chars app Json.span_digits];
    try (cbn [Json.is_digit N.leb N.compare Pos.compare Pos.compare_cont andb];
         rewrite IHu; reflexivity).
  destruct rest as [|c rest]; [reflexivity|].
  cbn [Json.span_digits]. destruct Hd as [->|[->| ->]]; reflexivity.
Qed.

Lemma float_tail_delimited rest : delimited rest -> Json.float_tail rest = false.
Proof.
  destruct rest as [|c rest]; [reflexivity|].
  intros [->|[->| ->]]; reflexivity.
Qed.

Lemma nzhead_no_zero u :
  match Decimal.nzhead u with Decimal.D0 _ => False | _ => True end.
Proof. induction u; cbn; auto. Qed.

Lemma to_uint_head p :
  match Pos.to_uint p with
  | Decimal.Nil | Decimal.D0 _ => False
  | _ => True
  end.
Proof.
  pose proof (Unsigned.to_uint_nonnil p) as Hnil.
  pose proof (DecimalN.Unsigned.to_of (Pos.to_uint p)) as Hn.
  change (N.of_uint (Pos.to_uint p)) with (Pos.of_uint (Pos.to_uint p)) in Hn.
  rewrite DecimalPos.Unsigned.of_to in Hn. cbn [N.to_uint] in Hn.
  unfold Decimal.unorm in Hn.
  pose proof (nzhead_no_zero (Pos.to_uint p)) as Hz.
  destruct (Decimal.nzhead (Pos.to_uint p)) eqn:E; rewrite Hn; try exact I.
  - pose proof (Unsigned.to_uint_nonzero p) as Hnz. congruence.
  - exact Hz.
Qed.

Lemma match_number_repr z rest :
  delimited rest ->
  Json.match_number (Json.repr_int z ++ rest) = Ret (PyInt z, rest).
Proof.
  intros Hd. unfold Json.repr_int.
  destruct z as [|p|p]; cbn [Z.to_int].
  - cbn. rewrite (float_tail_delimited _ Hd). reflexivity.
  - pose proof (to_uint_head p) as Hh.
    pose proof (DecimalPos.Unsigned.of_to p) as Hof.
    destruct (Pos.to_uint p) as [|u|u|u|u|u|u|u|u|u|u] eqn:E; try contradiction;
      cbn [Json.uint_chars app Json.match_number N.eqb Pos.eqb N.leb N.compare
           Pos.compare Pos.compare_cont andb];
      rewrite (span_digits_uint_chars u rest Hd), (float_tail_delimited _ Hd);
      cbn [Json.uint_of_chars N.eqb Pos.eqb];
      rewrite uint_of_chars_uint_chars;
      change N.of_uint with Pos.of_uint; rewrite Hof; reflexivity.
  - pose proof (to_uint_head p) as Hh.
    pose proof (DecimalPos.Unsigned.of_to p) as Hof.
    destruct (Pos.to_uint p) as [|u|u|u|u|u|u|u|u|u|u] eqn:E; try contradiction;
      cbn [Json.uint_chars app Json.match_number N.eqb Pos.eqb N.leb N.compare
           Pos.compare Pos.compare_cont andb];
      rewrite (span_digits_uint_chars u rest Hd), (float_tail_delimited _ Hd);
      cbn [Json.uint_of_chars N.eqb Pos.eqb];
      rewrite uint_of_chars_uint_chars;
      change N.of_uint with Pos.of_uint; rewrite Hof; reflexivity.
Qed.

(** ** The canonical text does not depend on the order of insertion *)

(** Induction on an object with the hypothesis for the elements. *)
Lemma pyobj_nested_ind (Q : pyobj -> Prop) :
  Q PyNone -> (forall b, Q (PyBool b)) -> (forall z, Q (PyInt z)) ->
  (forall s, Q (PyStr s)) ->
  (forall l, Forall Q l -> Q (PyList l)) ->
  (forall d, Forall (fun kv => Q (snd kv)) d -> Q (PyDict d)) ->
  forall o, Q o.
Proof.
  intros Hn Hb Hz Hs Hl Hd.
  fix IH 1. intros [ |b|z|s|l|d].
  - exact Hn.
  - apply Hb.
  - apply Hz.
  - apply Hs.
  - apply Hl. induction l as [|x l IHl]; constructor; [apply IH|exact IHl].
  - apply Hd. induction d as [|[k v] d IHd]; constructor; [apply IH|exact IHd].
Qed.

Lemma str_leb_total a b : Json.str_leb a b = true \/ Json.str_leb b a = true.
Proof.
  revert b. induction a as [|x a IH]; intros [|y b]; simpl; auto.
  destruct (IH b) as [H|H]; rewrite H;
    destruct (N.ltb_spec x y), (N.ltb_spec y x), (N.eqb_spec x y),
      (N.eqb_spec y x); simpl; auto; lia.
Qed.

Lemma str_leb_trans a b c :
  Json.str_leb a b = true -> Json.str_leb b c = true -> Json.str_leb a c = true.
Proof.
  revert b c. induction a as [|x a IH]; intros [|y b] [|z c]; simpl; auto;
    try discriminate.
  intros H1 H2.
  apply orb_true_iff in H1 as [H1|H1], H2 as [H2|H2];
    rewrite ?andb_true_iff, ?N.ltb_lt, ?N.eqb_eq in *;
    apply orb_true_iff; rewrite ?andb_true_iff, ?N.ltb_lt, ?N.eqb_eq.
  - left. lia.
  - left. lia.
  - left. lia.
  - right. split; [lia|]. eapply IH; [apply H1|apply H2].
Qed.

Lemma str_leb_antisym a b :
  Json.str_leb a b = true -> Json.str_leb b a = true -> a = b.
Proof.
  revert b. induction a as [|x a IH]; intros [|y b]; simpl; auto;
    try discriminate.
  intros H1 H2.
  apply orb_true_iff in H1 as [H1|H1], H2 as [H2|H2];
    rewrite ?andb_true_iff, ?N.ltb_lt, ?N.eqb_eq in *; try lia.
  destruct H1 as [-> H1], H2 as [_ H2]. f_equal. auto.
Qed.

Lemma key_leb_total a b : Json.key_leb a b = true \/ Json.key_leb b a = true.
Proof.
  destruct a, b; simpl; auto using str_leb_total.
  destruct (Z.leb_spec z z0), (Z.leb_spec z0 z); auto; lia.
Qed.

Lemma key_leb_trans a b c :
  Json.key_leb a b = true -> Json.key_leb b c = true -> Json.key_leb a c = true.
Proof.
  destruct a, b, c; simpl; auto; try discriminate.
  - apply str_leb_trans.
  - rewrite !Z.leb_le. lia.
Qed.

Lemma key_leb_antisym a b :
  Json.key_leb a b = true -> Json.key_leb b a = true -> a = b.
Proof.
  destruct a, b; simpl; try discriminate.
  - intros. f_equal. auto using str_leb_antisym.
  - rewrite !Z.leb_le. intros. f_equal. lia.
Qed.

#[local] Instance item_le_total {A} : Total (@Json.item_le A).
Proof. intros a b. apply key_leb_total. Qed.

#[local] Instance item_le_trans {A} : Transitive (@Json.item_le A).
Proof. intros a b c. apply key_leb_trans. Qed.

(** Two items of a dict with the same key are the same item. *)
Lemma nodup_keys_item {A} (l : list (pykey * A)) x y :
  NoDup (map fst l) -> x ∈ l -> y ∈ l -> fst x = fst y -> x = y.
Proof.
  induction l as [|a l IH]; simpl; intros Hnd Hx Hy Hk.
  - inversion Hx.
  - apply NoDup_cons in Hnd as [Hnotin Hnd].
    apply elem_of_cons in Hx as [->|Hx], Hy as [->|Hy]; auto.
    + exfalso. apply Hnotin. rewrite Hk. apply list_elem_of_fmap. eauto.
    + exfalso. apply Hnotin. rewrite <- Hk. apply list_elem_of_fmap. eauto.
Qed.

Lemma merge_sort_perm {A} (l1 l2 : list (pykey * A)) :
  NoDup (map fst l1) -> l1 ≡ₚ l2 ->
  merge_sort Json.item_le l1 = merge_sort Json.item_le l2.
Proof.
  intros Hnd Hp.
  apply (StronglySorted_unique_strong Json.item_le).
  - intros x y Hx Hy Hxy Hyx.
    rewrite merge_sort_Permutation in Hx, Hy. rewrite <- Hp in Hy.
    eapply nodup_keys_item; eauto. apply key_leb_antisym; assumption.
  - apply StronglySorted_merge_sort; apply _.
  - apply StronglySorted_merge_sort; apply _.
  - rewrite !merge_sort_Permutation. exact Hp.
Qed.

Lemma forallb_perm {A} (f : A -> bool) l1 l2 :
  l1 ≡ₚ l2 -> forallb f l1 = forallb f l2.
Proof.
  induction 1; simpl; try congruence.
  rewrite !andb_assoc, (andb_comm (f y)). reflexivity.
Qed.

Lemma sort_items_perm {A} (l1 l2 : list (pykey * A)) :
  NoDup (map fst l1) -> l1 ≡ₚ l2 -> Json.sort_items l1 = Json.sort_items l2.
Proof.
  intros Hnd Hp. unfold Json.sort_items.
  rewrite (forallb_perm _ _ _ Hp), (forallb_perm (fun kv => negb _) _ _ Hp).
  rewrite (merge_sort_perm _ _ Hnd Hp). reflexivity.
Qed.

(** X2.  Two objects that are the same mapping, their dicts filled in
    whatever order, have the same canonical text: [json.dumps] with
    [sort_keys=True] returns the same result for both. *)
Theorem canonical_determinism (m1 m2 : pyobj) :
  obj_ok m1 -> same_mapping m1 m2 -> Json.dumps m1 = Json.dumps m2.
Proof.
  unfold Json.dumps. revert m2.
  induction m1 as [ |b|z|s|l IH|d IH] using pyobj_nested_ind;
    intros m2 Hok Hsame;
    inversion Hsame as [ | | | |? l2 Hf|? d2 d0 Hf Hp]; subst;
    try reflexivity.
  - (* lists *)
    inversion Hok as [ | | | |? Hl| ]; subst.
    cbn [Json.encode].
    assert (E : map Json.encode l = map Json.encode l2).
    { clear Hsame Hok. revert l2 Hf.
      induction l as [|x l IHl]; intros l2 Hf;
        inversion Hf as [|? y ? l2' Hxy Hf']; subst; [reflexivity|].
      apply Forall_cons in IH as [IHx IH], Hl as [Hx Hl].
      simpl. f_equal; auto. }
    rewrite E. reflexivity.
  - (* dicts *)
    inversion Hok as [ | | | | |? Hnd Hd]; subst.
    cbn [Json.encode].
    set (enc := fun kv : pykey * pyobj => (fst kv, Json.encode (snd kv))).
    assert (E : map enc d = map enc d0).
    { clear Hsame Hok Hnd Hp. revert d0 Hf.
      induction d as [|x d IHd]; intros d0 Hf;
        inversion Hf as [|? y ? d0' [Hk Hv] Hf']; subst; [reflexivity|].
      apply Forall_cons in IH as [IHx IH], Hd as [[_ Hx] Hd].
      simpl. f_equal; auto. unfold enc. rewrite Hk. f_equal. auto. }
    rewrite E.
    rewrite (sort_items_perm (map enc d0) (map enc d2)); [reflexivity| |].
    + rewrite <- E. rewrite map_map. simpl. exact Hnd.
    + apply Permutation_map. exact Hp.
Qed.

Lemma str_ok_lit s : str_ok (lit s).
Proof.
  unfold str_ok, lit. apply List.Forall_forall. intros c Hc.
  apply in_map_iff in Hc as (a & <- & _).
  pose proof (N_ascii_bounded a). lia.
Qed.

Lemma canonical_determinism_witness : Json.dumps sample_a = Json.dumps sample_b.
Proof.
  apply canonical_determinism.
  - apply ok_dict.
    + apply (bool_decide_unpack _). vm_compute. exact I.
    + apply List.Forall_cons; [split; [apply str_ok_lit|apply ok_int]|].
      apply List.Forall_cons; [split; [apply str_ok_lit|]|apply List.Forall_nil].
      apply ok_dict.
      * apply (bool_decide_unpack _). vm_compute. exact I.
      * apply List.Forall_cons; [split; [apply str_ok_lit|]|].
        { apply ok_list. apply List.Forall_cons; [apply ok_bool|apply List.Forall_nil]. }
        apply List.Forall_cons; [split; [apply str_ok_lit|apply ok_none]|apply List.Forall_nil].
  - apply (same_dict _ _
             [(KStr (lit "nonceClient"), PyInt 123456789);
              (KStr (lit "identity"),
               PyDict [(KStr (lit "a"), PyNone);
                       (KStr (lit "b"), PyList [PyBool true])])]).
    + apply List.Forall2_cons; [split; [reflexivity|apply same_int]|].
      apply List.Forall2_cons; [split; [reflexivity|]|apply List.Forall2_nil].
      apply (same_dict _ _
               [(KStr (lit "b"), PyList [PyBool true]);
                (KStr (lit "a"), PyNone)]).
      * apply List.Forall2_cons; [split; [reflexivity|]|].
        { apply same_list. apply List.Forall2_cons; [apply same_bool|apply List.Forall2_nil]. }
        apply List.Forall2_cons; [split; [reflexivity|apply same_none]|apply List.Forall2_nil].
      * apply perm_swap.
    + apply perm_swap.
Defined.

(** ** JSON values: reading what was written *)

(** ** Helpers on lists of chunks *)

Lemma sequence_cons_inv {A} (x : res A) l r :
  Json.sequence (x :: l) = Ret r ->
  exists a r', x = Ret a /\ Json.sequence l = Ret r' /\ r = a :: r'.
Proof.
  cbn [Json.sequence]. destruct x as [a|e]; [|discriminate].
  cbn [mbind res_bind]. destruct (Json.sequence l) as [r'|e]; [|discriminate].
  cbn [mbind res_bind mret res_ret]. intros [= <-]. eauto.
Qed.

Lemma sequence_nil_inv {A} (r : list A) :
  Json.sequence [] = Ret r -> r = [].
Proof. intros [= <-]. reflexivity. Qed.

Lemma join_cons2 sep a b l :
  Json.join sep (a :: b :: l) = a ++ sep ++ Json.join sep (b :: l).
Proof. reflexivity. Qed.

(** ** Where a value starts *)

Definition value_start (t : str) : Prop :=
  match t with
  | c :: _ => Json.is_ws c = false /\ c <> 93 /\ c <> 125 /\ c <> 0xfeff
  | [] => False
  end.

Lemma skip_ws_start t r : value_start t -> Json.skip_ws (t ++ r) = t ++ r.
Proof.
  destruct t as [|c t]; [intros []|]. intros (Hws & _).
  cbn [app Json.skip_ws]. rewrite Hws. reflexivity.
Qed.

Lemma repr_int_start z : value_start (Json.repr_int z).
Proof.
  unfold Json.repr_int. destruct z as [|p|p]; cbn [Z.to_int].
  - cbn. repeat split; lia.
  - pose proof (to_uint_head p) as Hh.
    destruct (Pos.to_uint p); try contradiction; cbn; repeat split; lia.
  - cbn. repeat split; lia.
Qed.

Lemma encode_start v t : Json.encode v = Ret t -> value_start t.
Proof.
  destruct v as [ |[|]|z|s|l|d]; cbn [Json.encode].
  - intros [= <-]. cbn. repeat split; lia.
  - intros [= <-]. cbn. repeat split; lia.
  - intros [= <-]. cbn. repeat split; lia.
  - intros [= <-]. apply repr_int_start.
  - intros [= <-]. cbn. repeat split; lia.
  - destruct (Json.sequence _); [|discriminate].
    intros [= <-]. cbn. repeat split; lia.
  - destruct (Json.sort_items _); [|discriminate]. cbn [mbind res_bind].
    destruct (Json.sequence _); [|discriminate].
    intros [= <-]. cbn. repeat split; lia.
Qed.

Lemma escape_char_length c : (1 <= length (Json.escape_char c))%nat.
Proof. destruct (escape_char_shape c); cbn [length]; lia. Qed.

Lemma escaped_length s : (length s <= length (escaped s))%nat.
Proof.
  induction s as [|c s IH]; [reflexivity|].
  rewrite escaped_cons, length_app. cbn [length].
  pose proof (escape_char_length c). lia.
Qed.

(** ** Python equality on the parsed value *)

Lemma py_eq_list a b :
  Forall2 (fun x y => py_eq x y = true) a b ->
  py_eq (PyList a) (PyList b) = true.
Proof.
  cbn [py_eq]. induction 1 as [|x y a b Hxy _ IH]; [reflexivity|].
  rewrite Hxy. exact IH.
Qed.

Lemma dict_get_in {A} (d : list (pykey * A)) k v :
  NoDup (map fst d) -> In (k, v) d -> dict_get d k = Some v.
Proof.
  unfold dict_get.
  induction d as [|[k' v'] d IH]; intros Hnd Hin; [destruct Hin|].
  apply NoDup_cons in Hnd as [Hnotin Hnd].
  cbn [find fst]. destruct Hin as [[= -> ->]|Hin].
  - rewrite bool_decide_eq_true_2 by reflexivity. reflexivity.
  - rewrite bool_decide_eq_false_2; [apply IH; assumption|].
    intros ->. apply Hnotin. apply list_elem_of_fmap. exists (k, v).
    split; [reflexivity|]. apply list_elem_of_In. exact Hin.
Qed.

Lemma py_eq_dict ps d :
  length ps = length d ->
  Forall (fun p => exists w, dict_get d (fst p) = Some w
                             /\ py_eq (snd p) w = true) ps ->
  py_eq (PyDict ps) (PyDict d) = true.
Proof.
  intros Hlen H. cbn [py_eq]. rewrite Hlen, Nat.eqb_refl. cbn [andb].
  clear Hlen.
  induction H as [|[k v] ps (w & Hw & Hvw) _ IH]; [reflexivity|].
  cbn [fst snd] in *. rewrite Hw, Hvw. exact IH.
Qed.

Lemma dict_set_fresh {A} (d : list (pykey * A)) k v :
  k ∉ map fst d -> dict_set d k v = d ++ [(k, v)].
Proof.
  induction d as [|[k' v'] d IH]; intros Hk; [reflexivity|].
  cbn [dict_set]. cbn [map fst] in Hk.
  apply not_elem_of_cons in Hk as [Hne Hk].
  rewrite bool_decide_eq_false_2 by congruence.
  rewrite IH by exact Hk. reflexivity.
Qed.

(** The pairs of a JSON object with distinct keys are the dict. *)
Lemma dict_of_pairs_nodup {A} (ps : list (pykey * A)) :
  NoDup (map fst ps) -> dict_of_pairs ps = ps.
Proof.
  unfold dict_of_pairs.
  assert (G : forall acc,
             NoDup (map fst (acc ++ ps)) ->
             fold_left (fun d kv => dict_set d (fst kv) (snd kv)) ps acc
             = acc ++ ps).
  { induction ps as [|[k v] ps IH]; intros acc Hnd.
    - cbn. rewrite app_nil_r. reflexivity.
    - cbn [fold_left fst snd].
      rewrite dict_set_fresh.
      + rewrite IH; rewrite <- app_assoc; [reflexivity|exact Hnd].
      + rewrite map_app in Hnd. apply NoDup_app in Hnd as (_ & Hd & _).
        intros Hin. apply (Hd k Hin). cbn. apply elem_of_cons. auto. }
  intros Hnd. apply (G []). exact Hnd.
Qed.

(** ** Reading back a value *)

(** [scan_once], with fuel [f], reads the text of [x] back to a value
    equal to [x]. *)
Definition readable (f : nat) (x : pyobj) : Prop :=
  forall t rest,
    Json.encode x = Ret t -> (length t < f)%nat -> delimited rest ->
    exists v', Json.scan_once f (t ++ rest) = Ret (v', rest)
               /\ py_eq v' x = true.

Lemma join_in_length sep (c : str) cs :
  In c cs -> (length c <= length (Json.join sep cs))%nat.
Proof.
  induction cs as [|a cs IH]; [intros []|].
  intros [->|Hin].
  - destruct cs as [|b cs];
      [cbn [Json.join]; lia|rewrite join_cons2, !length_app; lia].
  - specialize (IH Hin). destruct cs as [|b cs]; [destruct Hin|].
    rewrite join_cons2, !length_app. lia.
Qed.

Lemma join_count sep (cs : list str) :
  Forall (fun c => (1 <= length c)%nat) cs ->
  (length cs <= length (Json.join sep cs))%nat.
Proof.
  induction 1 as [|a cs Ha _ IH]; [reflexivity|].
  destruct cs as [|b cs].
  - cbn [Json.join length] in *. lia.
  - rewrite join_cons2, !length_app. cbn [length] in *.
    unfold str in *. lia.
Qed.

Lemma join_start sep a cs :
  value_start a -> value_start (Json.join sep (a :: cs)).
Proof.
  destruct a as [|c a]; [intros []|]. intros H.
  destruct cs; cbn [Json.join app]; exact H.
Qed.

Lemma start_nonempty t : value_start t -> (1 <= length t)%nat.
Proof. destruct t; [intros []|]. cbn [length]. lia. Qed.

Lemma scan_once_array f r c r0 :
  Json.skip_ws r = c :: r0 -> c <> 93 ->
  Json.scan_once (S f) (91 :: r)
  = ('(vs, rest) ← Json.array_items (Json.scan_once f)
                     (S (length (c :: r0))) (c :: r0);
     Ret (PyList vs, rest)).
Proof.
  intros Hr Hc. cbn [Json.scan_once N.eqb Pos.eqb]. rewrite Hr.
  destruct c as [|p]; [reflexivity|].
  repeat (destruct p as [p|p|]; try reflexivity;
          try (exfalso; apply Hc; reflexivity)).
Qed.

Lemma scan_once_object f r c r0 :
  Json.skip_ws r = c :: r0 -> c <> 125 ->
  Json.scan_once (S f) (123 :: r)
  = ('(kvs, rest) ← Json.object_items (Json.scan_once f)
                      (S (length (c :: r0))) (c :: r0);
     Ret (PyDict (dict_of_pairs kvs), rest)).
Proof.
  intros Hr Hc. cbn [Json.scan_once N.eqb Pos.eqb]. rewrite Hr.
  destruct c as [|p]; [reflexivity|].
  repeat (destruct p as [p|p|]; try reflexivity;
          try (exfalso; apply Hc; reflexivity)).
Qed.

Lemma array_items_read f l :
  l <> [] -> Forall (readable f) l ->
  forall ts rest n,
    Json.sequence (map Json.encode l) = Ret ts ->
    Forall (fun t => (length t < f)%nat) ts ->
    (length l <= n)%nat ->
    exists vs,
      Json.array_items (Json.scan_once f) n (Json.join [44] ts ++ 93 :: rest)
      = Ret (vs, rest)
      /\ Forall2 (fun v' x => py_eq v' x = true) vs l.
Proof.
  induction l as [|x l IH]; [congruence|].
  intros _ Hread ts rest n Hseq Hlen Hn.
  apply Forall_cons in Hread as [Hx Hread].
  cbn [map] in Hseq.
  apply sequence_cons_inv in Hseq as (t & ts' & Ht & Hseq & ->).
  apply Forall_cons in Hlen as [Hlt Hlen].
  destruct n as [|n]; [cbn [length] in Hn; lia|]. cbn [length] in Hn.
  destruct l as [|y l].
  - apply sequence_nil_inv in Hseq as ->. cbn [Json.join].
    destruct (Hx t (93 :: rest) Ht Hlt) as (v' & Hscan & Heq);
      [cbn; auto|].
    exists [v']. cbn [Json.array_items]. rewrite Hscan.
    cbn [mbind res_bind]. split; [reflexivity|].
    constructor; [exact Heq|constructor].
  - cbn [map] in Hseq.
    pose proof Hseq as Hseq'.
    apply sequence_cons_inv in Hseq as (ty & ts'' & Hty & _ & ->).
    rewrite join_cons2, <- !app_assoc. cbn [app].
    destruct (Hx t (44 :: Json.join [44] (ty :: ts'') ++ 93 :: rest) Ht Hlt)
      as (v' & Hscan & Heq); [cbn; auto|].
    destruct (IH ltac:(discriminate) Hread (ty :: ts'') rest n Hseq' Hlen
                ltac:(lia)) as (vs & Hloop & Hall).
    exists (v' :: vs). cbn [Json.array_items]. rewrite Hscan.
    cbn [mbind res_bind Json.skip_ws Json.is_ws N.eqb Pos.eqb orb].
    rewrite skip_ws_start by (apply join_start, (encode_start y), Hty).
    rewrite Hloop. split; [reflexivity|].
    constructor; assumption.
Qed.

Definition item_chunk (e : pykey * pyobj) : res str :=
  c ← Json.encode (snd e); Ret (Json.encode_item (fst e, c)).

Lemma item_chunk_inv k v chunk :
  item_chunk (k, v) = Ret chunk ->
  exists tv, Json.encode v = Ret tv /\ chunk = Json.encode_key k ++ 58 :: tv.
Proof.
  unfold item_chunk. cbn [fst snd]. destruct (Json.encode v) as [tv|]; [|discriminate].
  intros [= <-]. eauto.
Qed.

Lemma object_items_read f es :
  es <> [] ->
  Forall (fun e => (exists s, fst e = KStr s /\ text_ok s)
                   /\ readable f (snd e)) es ->
  forall chunks rest n,
    Json.sequence (map item_chunk es) = Ret chunks ->
    Forall (fun c => (length c < f)%nat) chunks ->
    (length es <= n)%nat ->
    exists ps,
      Json.object_items (Json.scan_once f) n
        (Json.join [44] chunks ++ 125 :: rest) = Ret (ps, rest)
      /\ map fst ps = map fst es
      /\ Forall2 (fun p e => py_eq (snd p) (snd e) = true) ps es.
Proof.
  induction es as [|[k v] es IH]; [congruence|].
  intros _ Hread chunks rest n Hseq Hlen Hn.
  apply Forall_cons in Hread as [[(s & Hk & Hs1 & Hs2) Hv] Hread].
  cbn [fst snd] in Hk, Hv. subst k.
  cbn [map] in Hseq.
  apply sequence_cons_inv in Hseq as (chunk & chunks' & Hc & Hseq & ->).
  apply item_chunk_inv in Hc as (tv & Htv & ->).
  apply Forall_cons in Hlen as [Hlt Hlen].
  destruct n as [|n]; [cbn [length] in Hn; lia|]. cbn [length] in Hn.
  assert (Hkey : forall R,
    Json.scanstring (S (length (escaped s ++ 34 :: R))) (escaped s ++ 34 :: R)
    = Ret (s, R)).
  { intros R. apply scanstring_escaped; try assumption.
    rewrite length_app. pose proof (escaped_length s). cbn [length]. lia. }
  assert (Htl : (length tv < f)%nat).
  { rewrite length_app in Hlt. cbn [length] in Hlt. lia. }
  pose proof (encode_start _ _ Htv) as Hstart.
  cbn [Json.encode_key]. rewrite encode_basestring_escaped.
  destruct es as [|[k2 v2] es].
  - apply sequence_nil_inv in Hseq as ->. cbn [Json.join].
    destruct (Hv tv (125 :: rest) Htv Htl) as (v' & Hscan & Heq); [cbn; auto|].
    exists [(KStr s, v')].
    match goal with
    | |- context [Json.object_items _ _ ?t] =>
        replace t with (34 :: escaped s ++ 34 :: 58 :: tv ++ 125 :: rest)
          by (cbn [app]; repeat (rewrite <- app_assoc; cbn [app]);
              reflexivity)
    end.
    cbn [Json.object_items]. rewrite (Hkey (58 :: tv ++ 125 :: rest)).
    cbn [mbind res_bind Json.skip_ws Json.is_ws N.eqb Pos.eqb orb].
    rewrite skip_ws_start by exact Hstart. rewrite Hscan.
    cbn [mbind res_bind Json.skip_ws Json.is_ws N.eqb Pos.eqb orb].
    split; [reflexivity|]. split; [reflexivity|].
    constructor; [exact Heq|constructor].
  - pose proof Hseq as Hseq'. cbn [map] in Hseq.
    apply sequence_cons_inv in Hseq as (chunk2 & chunks'' & Hc2 & _ & ->).
    pose proof (Forall_inv Hread) as [(s2 & Hk2 & _) _]. cbn [fst] in Hk2.
    subst k2.
    apply item_chunk_inv in Hc2 as (tv2 & Htv2 & ->).
    rewrite join_cons2.
    remember (Json.join [44]
                ((Json.encode_key (KStr s2) ++ 58 :: tv2) :: chunks''))
      as J eqn:EJ.
    destruct (Hv tv (44 :: J ++ 125 :: rest) Htv Htl) as (v' & Hscan & Heq);
      [cbn; auto|].
    destruct (IH ltac:(discriminate) Hread _ rest n Hseq' Hlen ltac:(lia))
      as (ps & Hloop & Hkeys & Hall).
    unfold str in *. rewrite <- EJ in Hloop.
    exists ((KStr s, v') :: ps).
    match goal with
    | |- context [Json.object_items _ _ ?t] =>
        replace t
          with (34 :: escaped s ++ 34 :: 58 :: tv ++ 44 :: J ++ 125 :: rest)
          by (rewrite EJ; cbn [app]; repeat (rewrite <- app_assoc; cbn [app]);
              reflexivity)
    end.
    cbn [Json.object_items].
    rewrite (Hkey (58 :: tv ++ 44 :: J ++ 125 :: rest)).
    cbn [mbind res_bind Json.skip_ws Json.is_ws N.eqb Pos.eqb orb].
    rewrite skip_ws_start by exact Hstart. rewrite Hscan.
    cbn [mbind res_bind Json.skip_ws Json.is_ws N.eqb Pos.eqb orb].
    assert (HJ : Json.skip_ws (J ++ 125 :: rest) = J ++ 125 :: rest).
    { subst J. cbn [Json.encode_key]. rewrite encode_basestring_escaped.
      destruct chunks''; reflexivity. }
    rewrite HJ, Hloop.
    split; [reflexivity|].
    split; [change (KStr s :: map fst ps = KStr s :: map fst ((KStr s2, v2) :: es));
            f_equal; exact Hkeys|].
    constructor; assumption.
Qed.

Lemma py_eq_refl_atom x :
  match x with PyList _ | PyDict _ => True | _ => py_eq x x = true end.
Proof.
  destruct x as [ |b|z|s| | ]; cbn [py_eq]; try exact I; try reflexivity.
  - destruct b; reflexivity.
  - apply Z.eqb_refl.
  - apply bool_decide_eq_true_2. reflexivity.
Qed.

Lemma scan_once_repr f z rest :
  delimited rest ->
  Json.scan_once (S f) (Json.repr_int z ++ rest) = Ret (PyInt z, rest).
Proof.
  intros Hd. rewrite <- (match_number_repr z rest Hd).
  unfold Json.repr_int. destruct z as [|p|p]; cbn [Z.to_int].
  - reflexivity.
  - pose proof (to_uint_head p) as Hh.
    destruct (Pos.to_uint p); try contradiction; reflexivity.
  - pose proof (to_uint_head p) as Hh.
    destruct (Pos.to_uint p); try contradiction; reflexivity.
Qed.

Lemma map_item_chunk (es : list (pykey * pyobj)) :
  map (fun kc : pykey * res str =>
         c ← snd kc; Ret (Json.encode_item (fst kc, c)))
      (map (fun kv => (fst kv, Json.encode (snd kv))) es)
  = map item_chunk es.
Proof. rewrite map_map. reflexivity. Qed.

(** [scan_once] reads back the text of every JSON object. *)
Lemma readable_json x : json_ok x -> forall f, readable f x.
Proof.
  induction x as [ |b|z|s|l IH|d IH] using pyobj_nested_ind;
    intros Hok f t rest Henc Hlen Hd;
    (destruct f as [|f]; [inversion Hlen|]).
  - injection Henc as <-. exists PyNone. split; reflexivity.
  - destruct b; injection Henc as <-; eexists; split; reflexivity.
  - injection Henc as <-. exists (PyInt z).
    split; [apply scan_once_repr, Hd|apply Z.eqb_refl].
  - injection Henc as <-. inversion Hok as [ | | |? [Hs1 Hs2]| | ]; subst.
    exists (PyStr s). split; [|apply bool_decide_eq_true_2; reflexivity].
    rewrite encode_basestring_escaped. cbn [app].
    rewrite <- app_assoc. cbn [app Json.scan_once N.eqb Pos.eqb].
    rewrite scanstring_escaped; [reflexivity|assumption|assumption|].
    rewrite length_app. pose proof (escaped_length s). cbn [length]. lia.
  - (* lists *)
    inversion Hok as [ | | | |? Hl| ]; subst.
    cbn [Json.encode] in Henc.
    destruct (Json.sequence (map Json.encode l)) as [ts|] eqn:Hseq;
      [|discriminate].
    injection Henc as <-.
    destruct l as [|x l].
    { apply sequence_nil_inv in Hseq as ->.
      exists (PyList []). split; reflexivity. }
    assert (Hread : Forall (readable f) (x :: l)).
    { apply Forall_forall. intros y Hy.
      rewrite Forall_forall in IH, Hl. apply IH; auto. }
    pose proof Hseq as Hseq'. cbn [map] in Hseq'.
    apply sequence_cons_inv in Hseq' as (tx & ts' & Htx & _ & ->).
    assert (Hts : Forall (fun t => (length t < f)%nat) (tx :: ts')).
    { apply List.Forall_forall. intros c Hc.
      pose proof (join_in_length [44] c _ Hc) as Hle.
      cbn [length] in Hlen. rewrite length_app in Hlen.
      unfold str in *. lia. }
    destruct (array_items_read f (x :: l) ltac:(discriminate) Hread
                (tx :: ts') rest
                (S (length (Json.join [44] (tx :: ts') ++ 93 :: rest)))
                Hseq Hts) as (vs & Hloop & Hall).
    { assert (Hne : Forall (fun c : str => (1 <= length c)%nat) (tx :: ts')).
      { clear -Hseq. revert Hseq. generalize (tx :: ts').
        induction (x :: l) as [|y l' IHl]; intros ts Hseq.
        - apply sequence_nil_inv in Hseq as ->. constructor.
        - cbn [map] in Hseq.
          apply sequence_cons_inv in Hseq as (ty & ts2 & Hty & Hseq & ->).
          constructor; [|apply IHl, Hseq].
          apply start_nonempty, (encode_start y), Hty. }
      pose proof (join_count [44] _ Hne) as Hc.
      assert (Hl2 : length (x :: l) = length (tx :: ts')).
      { clear -Hseq. revert Hseq. generalize (tx :: ts').
        induction (x :: l) as [|y l' IHl]; intros ts Hseq.
        - apply sequence_nil_inv in Hseq as ->. reflexivity.
        - cbn [map] in Hseq.
          apply sequence_cons_inv in Hseq as (ty & ts2 & Hty & Hseq & ->).
          cbn [length]. f_equal. apply IHl, Hseq. }
      rewrite Hl2, length_app. unfold str in *. lia. }
    exists (PyList vs). split; [|apply py_eq_list, Hall].
    pose proof (join_start [44] tx ts' (encode_start x _ Htx)) as Hst.
    destruct (Json.join [44] (tx :: ts')) as [|c J] eqn:EJ; [destruct Hst|].
    destruct Hst as (Hws & H93 & _).
    cbn [app]. rewrite <- app_assoc. cbn [app].
    erewrite scan_once_array;
      [|cbn [Json.skip_ws]; rewrite Hws; reflexivity|exact H93].
    cbn [app] in Hloop. rewrite Hloop. reflexivity.
  - (* dicts *)
    inversion Hok as [ | | | | |? Hnd Hall]; subst.
    cbn [Json.encode] in Henc.
    destruct (Json.sort_items _) as [sorted|] eqn:Hsort; [|discriminate].
    cbn [mbind res_bind] in Henc.
    destruct (Json.sequence _) as [chunks|] eqn:Hseq; [|discriminate].
    injection Henc as <-.
    unfold Json.sort_items in Hsort.
    destruct (_ || _); [|discriminate]. injection Hsort as <-.
    set (enc := fun kv : pykey * pyobj => (fst kv, Json.encode (snd kv))) in *.
    destruct (Permutation_map_inv enc d
                (merge_sort_Permutation Json.item_le (map enc d)))
      as (es & Hes & Hperm).
    rewrite Hes in Hseq. subst enc. rewrite map_item_chunk in Hseq.
    destruct es as [|e es].
    { apply sequence_nil_inv in Hseq as ->.
      apply Permutation_nil_r in Hperm as ->.
      exists (PyDict []). split; reflexivity. }
    assert (Hread : Forall (fun e => (exists s, fst e = KStr s /\ text_ok s)
                                     /\ readable f (snd e)) (e :: es)).
    { rewrite <- Hperm. apply Forall_forall. intros y Hy.
      rewrite Forall_forall in IH, Hall.
      destruct (Hall y Hy) as [Hk Hv]. split; [exact Hk|]. apply IH; auto. }
    assert (Hchunks : Forall (fun c => (length c < f)%nat) chunks).
    { apply List.Forall_forall. intros c Hc.
      pose proof (join_in_length [44] c _ Hc) as Hle.
      cbn [length] in Hlen. rewrite length_app in Hlen.
      unfold str in *. lia. }
    assert (Hcount : length (e :: es) = length chunks
                     /\ Forall (fun c : str => (1 <= length c)%nat) chunks
                     /\ exists J, Json.join [44] chunks = 34 :: J).
    { clear -Hseq. split; [|split].
      - revert Hseq. generalize chunks.
        induction (e :: es) as [|y l' IHl]; intros ts Hseq.
        + apply sequence_nil_inv in Hseq as ->. reflexivity.
        + cbn [map] in Hseq.
          apply sequence_cons_inv in Hseq as (ty & ts2 & Hty & Hseq & ->).
          cbn [length]. f_equal. apply IHl, Hseq.
      - revert Hseq. generalize chunks.
        induction (e :: es) as [|[k v] l' IHl]; intros ts Hseq.
        + apply sequence_nil_inv in Hseq as ->. constructor.
        + cbn [map] in Hseq.
          apply sequence_cons_inv in Hseq as (ty & ts2 & Hty & Hseq & ->).
          constructor; [|apply IHl, Hseq].
          apply item_chunk_inv in Hty as (tv & _ & ->).
          rewrite length_app. cbn [length]. lia.
      - destruct e as [k v]. cbn [map] in Hseq.
        apply sequence_cons_inv in Hseq as (ty & ts2 & Hty & Hseq & ->).
        apply item_chunk_inv in Hty as (tv & _ & ->).
        destruct k as [s|z].
        + cbn [Json.encode_key]. rewrite encode_basestring_escaped.
          destruct ts2; cbn [Json.join app]; eauto.
        + cbn [Json.encode_key]. destruct ts2; cbn [Json.join app]; eauto. }
    destruct Hcount as (Hcnt & Hne & (J & EJ)).
    destruct (object_items_read f (e :: es) ltac:(discriminate) Hread
                chunks rest
                (S (length (Json.join [44] chunks ++ 125 :: rest)))
                Hseq Hchunks) as (ps & Hloop & Hkeys & Hvals).
    { pose proof (join_count [44] _ Hne) as Hc.
      rewrite Hcnt, length_app. unfold str in *. lia. }
    assert (Hnd' : NoDup (map fst ps)).
    { rewrite Hkeys, <- Hperm. exact Hnd. }
    exists (PyDict ps). split.
    + cbn [app]. rewrite <- app_assoc. cbn [app].
      rewrite EJ in *. cbn [app] in *.
      erewrite scan_once_object; [|reflexivity|discriminate].
      rewrite Hloop. cbn [mbind res_bind].
      rewrite (dict_of_pairs_nodup ps Hnd'). reflexivity.
    + apply py_eq_dict.
      * apply (f_equal (@length _)) in Hkeys. rewrite !length_map in Hkeys.
        rewrite Hkeys. symmetry. apply Permutation_length, Hperm.
      * clear -Hkeys Hvals Hperm Hnd.
        assert (Hin : forall y, In y (e :: es) -> In y d).
        { intros y Hy. eapply Permutation_in; [symmetry; exact Hperm|exact Hy]. }
        clear Hperm. revert Hkeys Hin.
        induction Hvals as [|p y ps' es' Hpy _ IHv];
          intros Hkeys Hin; [constructor|].
        injection Hkeys as Hk Hkeys.
        constructor; [|apply IHv; [exact Hkeys|intros; apply Hin; right; auto]].
        exists (snd y). split; [|exact Hpy].
        rewrite Hk. apply dict_get_in; [exact Hnd|].
        destruct y as [k v]. apply Hin. left. reflexivity.
Qed.

Lemma sequence_rets {A B} (f : A -> res B) l :
  Forall (fun x => exists b, f x = Ret b) l ->
  exists r, Json.sequence (map f l) = Ret r.
Proof.
  induction 1 as [|x l [b Hb] _ [r IH]]; [exists []; reflexivity|].
  exists (b :: r). cbn [map Json.sequence]. rewrite Hb, IH. reflexivity.
Qed.

(** [dumps] raises on no JSON object. *)
Lemma dumps_json x : json_ok x -> exists t, Json.dumps x = Ret t.
Proof.
  unfold Json.dumps.
  induction x as [ |b|z|s|l IH|d IH] using pyobj_nested_ind; intros Hok;
    cbn [Json.encode]; eauto.
  - destruct b; eauto.
  - inversion Hok as [ | | | |? Hl| ]; subst.
    destruct (sequence_rets Json.encode l) as [r Hr].
    { rewrite Forall_forall in *. auto. }
    rewrite Hr. cbn [mbind res_bind]. eauto.
  - inversion Hok as [ | | | | |? Hnd Hall]; subst.
    set (enc := fun kv : pykey * pyobj => (fst kv, Json.encode (snd kv))).
    assert (Hs : Json.sort_items (map enc d)
                 = Ret (merge_sort Json.item_le (map enc d))).
    { unfold Json.sort_items.
      replace (forallb (fun kv => Json.is_kstr (fst kv)) (map enc d))
        with true; [reflexivity|].
      symmetry. apply forallb_forall. intros kc Hkc.
      apply in_map_iff in Hkc as (kv & <- & Hkv).
      rewrite List.Forall_forall in Hall.
      destruct (Hall kv Hkv) as [(s & Hs & _) _]. cbn [enc fst].
      rewrite Hs. reflexivity. }
    rewrite Hs. cbn [mbind res_bind].
    destruct (Permutation_map_inv enc d
                (merge_sort_Permutation Json.item_le (map enc d)))
      as (es & -> & Hperm).
    subst enc. rewrite map_item_chunk.
    destruct (sequence_rets item_chunk es) as [r Hr].
    { rewrite <- Hperm. rewrite Forall_forall in *. intros kv Hkv.
      destruct (Hall kv Hkv) as [_ Hv]. destruct (IH kv Hkv Hv) as [t Ht].
      unfold item_chunk. rewrite Ht. cbn [mbind res_bind]. eauto. }
    rewrite Hr. cbn [mbind res_bind]. eauto.
Qed.

Lemma loads_start t :
  value_start t ->
  Json.loads t
  = ('(v, rest) ← Json.scan_once (S (length t)) (Json.skip_ws t);
     match Json.skip_ws rest with
     | [] => Ret v
     | _ => Json.bad
     end).
Proof.
  destruct t as [|c t]; [intros []|]. intros (_ & _ & _ & Hc).
  unfold Json.loads.
  destruct c as [|p]; [reflexivity|].
  repeat (destruct p as [p|p|]; try reflexivity;
          try (exfalso; apply Hc; reflexivity)).
Qed.

(** The text written for a JSON object reads back as an equal object. *)
Lemma loads_text x t :
  json_ok x -> Json.dumps x = Ret t ->
  exists v, Json.loads t = Ret v /\ py_eq v x = true.
Proof.
  intros Hok Ht.
  destruct (readable_json x Hok (S (length t)) t [] Ht ltac:(lia) I)
    as (v & Hscan & Heq).
  exists v. split; [|exact Heq].
  pose proof (encode_start x t Ht) as Hst.
  rewrite loads_start by exact Hst.
  rewrite <- (app_nil_r t) at 2. rewrite skip_ws_start by exact Hst.
  rewrite app_nil_r in *. rewrite Hscan. reflexivity.
Qed.


(** ** Sealing and opening *)

Ltac Zify.zify_post_hook ::= Z.to_euclidean_division_equations.

Lemma lor_lt_pow2 a b n : a < 2 ^ n -> b < 2 ^ n -> N.lor a b < 2 ^ n.
Proof.
  intros Ha Hb.
  destruct (N.eq_dec (N.lor a b) 0) as [->|Hnz]; [lia|].
  apply N.log2_lt_pow2; [lia|]. rewrite N.log2_lor.
  destruct (N.eq_dec a 0) as [->|Ha0], (N.eq_dec b 0) as [->|Hb0];
    cbn [N.log2]; try (rewrite N.lor_0_l in Hnz || rewrite N.lor_0_r in Hnz);
    try congruence.
  - rewrite N.max_0_l. apply N.log2_lt_pow2; lia.
  - rewrite N.max_0_r. apply N.log2_lt_pow2; lia.
  - apply N.max_lub_lt; apply N.log2_lt_pow2; lia.
Qed.

Lemma lor_octet a b : a < 256 -> b < 256 -> N.lor a b < 256.
Proof. exact (lor_lt_pow2 a b 8). Qed.

(** [str.encode] yields octets. *)
Lemma utf8_char_octets c b :
  c < 0x110000 -> utf8_char c = Ret b -> Forall (fun x => x < 256) b.
Proof.
  intros Hc. unfold utf8_char.
  assert (H63 : forall x, N.land x 63 < 256).
  { intros x. rewrite land_63. lia. }
  repeat match goal with
         | |- context [?x <? ?y] => destruct (N.ltb_spec x y)
         end;
    try destruct (is_surrogate c); try discriminate;
    intros [= <-]; repeat constructor;
    try lia;
    try (apply lor_octet; [lia|first [apply H63|rewrite shiftr_div; 
         match goal with |- _ / ?k < _ => let v := eval compute in k in change k with v end; lia]]).
Qed.

Lemma str_encode_octets s b :
  str_ok s -> str_encode s = Ret b -> Forall (fun x => x < 256) b.
Proof.
  revert b. induction s as [|c s IH]; intros b Hok.
  - intros [= <-]. constructor.
  - apply Forall_cons in Hok as [Hc Hok]. cbn [str_encode].
    destruct (utf8_char c) as [bc|] eqn:Ec; [|discriminate].
    cbn [mbind res_bind].
    destruct (str_encode s) as [bs|] eqn:Es; [|discriminate].
    intros [= <-]. apply Forall_app. split.
    + eapply utf8_char_octets; eauto.
    + apply IH; auto.
Qed.

Lemma seal_ret P pub priv seed m :
  key_pair P pub priv -> json_ok m ->
  exists plaintext message armored,
    Json.dumps m = Ret plaintext
    /\ pgp_encrypt P pub seed plaintext = Ret message
    /\ str_encode (pgp_armor P message) = Ret armored
    /\ Forall (fun x => x < 256) armored
    /\ pgp_from_blob P armored = Ret message
    /\ pgp_decrypt P priv message = Ret plaintext
    /\ seal P pub seed m = Ret (Base64.b64encode armored).
Proof.
  intros Hpair Hok.
  destruct (dumps_json m Hok) as [plaintext Hd].
  pose proof (pair_encrypts P pub priv Hpair seed plaintext) as He.
  destruct (pgp_encrypt P pub seed plaintext) as [message|] eqn:Hm;
    [|discriminate].
  destruct (pair_armor P pub priv Hpair seed plaintext message Hm)
    as (armored & Ha & Hb).
  pose proof (str_encode_octets _ _
                (pair_text P pub priv Hpair seed plaintext message Hm) Ha)
    as Hoct.
  exists plaintext, message, armored.
  repeat split; try assumption.
  - eapply pair_decrypts; eauto.
  - unfold seal. rewrite Hd. cbn [mbind res_bind]. rewrite Hm.
    cbn [mbind res_bind]. rewrite Ha. cbn [mbind res_bind].
    unfold ascii_decode, Base64.b64encode. rewrite b2a_base64_ascii.
    reflexivity.
Qed.

Lemma open_fixed P passphrase priv armored message plaintext s :
  is_public priv = false -> opens P priv passphrase ->
  Forall (fun x => x < 256) armored ->
  pgp_from_blob P armored = Ret message ->
  pgp_decrypt P priv message = Ret plaintext ->
  exists s',
    fixed_rmap_client.decrypt_from_server P passphrase
      (PyStr (Base64.b64encode armored)) priv s
    = (Json.loads plaintext, s').
Proof.
  intros Hpriv Hopens Hoct Hblob Hdec.
  unfold fixed_rmap_client.decrypt_from_server.
  rewrite bind_run, lift_run.
  unfold Base64.b64decode, Base64.b64encode.
  rewrite b2a_base64_ascii, (a2b_b2a_base64 _ Hoct).
  rewrite bind_run, lift_run, Hblob.
  destruct Hopens as [Hprot|(p & -> & Hp)].
  - rewrite Hprot. cbn [andb]. rewrite bind_run.
    unfold decrypt. rewrite bind_run. unfold get_unlocked.
    rewrite Hpriv, Hprot. cbn [andb]. rewrite lift_run, Hdec.
    eexists. rewrite lift_run. reflexivity.
  - rewrite bool_decide_eq_false_2 by discriminate.
    rewrite andb_false_r. rewrite bind_run.
    destruct (is_protected priv) eqn:Hprot.
    + rewrite unlock_run, Hpriv, Hprot. cbn [orb negb]. rewrite Hp.
      unfold decrypt at 1. rewrite bind_run. unfold get_unlocked.
      cbn [unlocked]. rewrite Hpriv, Hprot. cbn [andb negb].
      rewrite lift_run, Hdec. eexists. rewrite lift_run. reflexivity.
    + unfold decrypt. rewrite bind_run. unfold get_unlocked.
      rewrite Hpriv, Hprot. cbn [andb]. rewrite lift_run, Hdec.
      eexists. rewrite lift_run. reflexivity.
Qed.

Lemma open_pdf P passphrase priv spk armored message plaintext s :
  is_public priv = false -> opens P priv passphrase ->
  Forall (fun x => x < 256) armored ->
  pgp_from_blob P armored = Ret message ->
  pgp_decrypt P priv message = Ret plaintext ->
  exists s',
    rmap_client_pdf_getting.decrypt_for_client P
      {| rmap_client_pdf_getting.client_priv := priv;
         rmap_client_pdf_getting.server_pub := spk;
         rmap_client_pdf_getting.passphrase := passphrase |}
      (PyStr (Base64.b64encode armored)) s
    = (Json.loads plaintext, s').
Proof.
  intros Hpriv Hopens Hoct Hblob Hdec.
  unfold rmap_client_pdf_getting.decrypt_for_client.
  cbn [rmap_client_pdf_getting.client_priv rmap_client_pdf_getting.passphrase].
  rewrite bind_run, lift_run.
  unfold Base64.b64decode, Base64.b64encode.
  rewrite b2a_base64_ascii, (a2b_b2a_base64 _ Hoct).
  rewrite bind_run, lift_run, Hblob.
  rewrite unlock_run, Hpriv. cbn [orb].
  assert (Hbody : forall s0,
    (unlocked s0 = true \/ is_protected priv = false) ->
    (decrypt P priv message ≫= λ decrypted, lift (Json.loads decrypted)) s0
    = (Json.loads plaintext, s0)).
  { intros s0 Hs0. rewrite bind_run. unfold decrypt. rewrite bind_run.
    unfold get_unlocked. rewrite Hpriv.
    replace (is_protected priv && negb (unlocked s0)) with false.
    - rewrite lift_run, Hdec, lift_run. reflexivity.
    - destruct Hs0 as [-> | ->]; [rewrite andb_false_r|]; reflexivity. }
  destruct Hopens as [Hprot|(p & -> & Hp)].
  - rewrite Hprot. cbn [negb]. rewrite Hbody by auto. eauto.
  - destruct (is_protected priv) eqn:Hprot; cbn [negb].
    + rewrite Hp, Hbody by (left; reflexivity). eauto.
    + rewrite Hbody by auto. eauto.
Qed.


Ltac Zify.zify_post_hook ::= idtac.

(** ** The small cipher is a key pair *)

(** ASCII text is its own UTF-8 encoding. *)
Lemma str_encode_ascii s :
  Forall (fun c => c < 128) s -> str_encode s = Ret s.
Proof.
  induction 1 as [|c s Hc _ IH]; [reflexivity|].
  cbn [str_encode]. unfold utf8_char.
  destruct (N.ltb_spec c 128); [|lia].
  cbn [mbind res_bind]. rewrite IH. reflexivity.
Qed.

Lemma unary_ascii m : Forall (fun c => c < 128) (Toy.unary m).
Proof.
  induction m as [|c m IH]; [constructor|].
  cbn [Toy.unary]. apply Forall_app. split.
  - apply Forall_forall. intros x Hx.
    apply list_elem_of_In, repeat_spec in Hx. subst. lia.
  - constructor; [lia|exact IH].
Qed.

Lemma unary_decode_run n rest acc :
  Toy.unary_decode (repeat 65 n ++ 66 :: rest) acc
  = cons (acc + N.of_nat n) <$> Toy.unary_decode rest 0.
Proof.
  revert acc. induction n as [|n IH]; intros acc.
  - cbn. rewrite N.add_0_r. reflexivity.
  - cbn [repeat app Toy.unary_decode N.eqb Pos.eqb]. rewrite IH.
    replace (acc + 1 + N.of_nat n) with (acc + N.of_nat (S n)) by lia.
    reflexivity.
Qed.

Lemma unary_decode_unary m : Toy.unary_decode (Toy.unary m) 0 = Ret m.
Proof.
  induction m as [|c m IH]; [reflexivity|].
  cbn [Toy.unary]. rewrite unary_decode_run, IH. cbn [fmap res_fmap].
  rewrite N.add_0_l, N2Nat.id. reflexivity.
Qed.

Lemma toy_key_pair : key_pair Toy.cipher Toy.client_pub Toy.client_priv.
Proof.
  split.
  - reflexivity.
  - reflexivity.
  - intros seed text m [= <-]. reflexivity.
  - intros seed text m _. cbn [pgp_armor Toy.cipher].
    eapply Forall_impl; [apply unary_ascii|]. cbn. intros; lia.
  - intros seed text m _. cbn [pgp_armor pgp_from_blob Toy.cipher].
    exists (Toy.unary m). split.
    + apply str_encode_ascii, unary_ascii.
    + apply unary_decode_unary.
Qed.

Lemma sample_message_json : json_ok sample_message.
Proof.
  apply jok_dict.
  - apply (bool_decide_unpack _). vm_compute. exact I.
  - apply List.Forall_cons.
    { split; [|apply jok_int]. eexists. split; [reflexivity|].
      split; [apply str_ok_lit|reflexivity]. }
    apply List.Forall_cons; [|apply List.Forall_nil].
    split.
    + eexists. split; [reflexivity|]. split; [apply str_ok_lit|reflexivity].
    + apply jok_str. split; [apply str_ok_lit|reflexivity].
Qed.



(** ** Loading the keys in [fixed_rmap_client] *)




(** ** [fixed_rmap_client.main] turns every exception into [False] *)

Lemma find_and_load_returns W candidates s :
  exists r, fixed_rmap_client.find_and_load W candidates s = (Ret r, s).
Proof.
  induction candidates as [|c rest [r Hr]]; [exists None; reflexivity|].
  cbn [fixed_rmap_client.find_and_load]. unfold is_file, from_file.
  destruct (key_file W c) as [[k|]|].
  - exists (Some (k, c)). reflexivity.
  - exists r. unfold try_except. rewrite bind_run. cbn. exact Hr.
  - exists r. exact Hr.
Qed.

Lemma load_client_key_returns W s :
  exists r, fixed_rmap_client.load_and_verify_client_key W s = (Ret r, s).
Proof.
  unfold fixed_rmap_client.load_and_verify_client_key, is_file, from_file,
    try_except.
  destruct (key_file W _) as [[k|]|]; cbn [negb].
  - rewrite bind_run. cbn [mret M_ret].
    destruct (is_public k); eexists; reflexivity.
  - eexists; reflexivity.
  - eexists; reflexivity.
Qed.

Lemma try_except_catches {A} (body : M A) (a : A) s c :
  fst (try_except body (fun _ => mret a) s) <> Raise (Exception c).
Proof.
  unfold try_except. destruct (body s) as [[x|[c'|code|]] s']; discriminate.
Qed.


(** ** [int()] reads back what [str()] and [repr()] write *)

Lemma uint_chars_digits u : Forall (fun c => 48 <= c <= 57) (Json.uint_chars u).
Proof. induction u; cbn [Json.uint_chars]; constructor; auto; lia. Qed.

Lemma lstrip_head c s : is_space c = false -> lstrip (c :: s) = c :: s.
Proof. intros H. cbn [lstrip]. rewrite H. reflexivity. Qed.

Lemma strip_digits s :
  Forall (fun c => 48 <= c <= 57) s -> strip s = s.
Proof.
  intros H. unfold strip.
  assert (Hl : forall t, Forall (fun c => 48 <= c <= 57) t -> lstrip t = t).
  { intros [|c t] Ht; [reflexivity|]. apply lstrip_head.
    apply List.Forall_cons_iff in Ht as [Hc _].
    unfold is_space.
    destruct (N.eqb_spec c 32); [lia|].
    destruct (N.leb_spec 9 c), (N.leb_spec c 13); try reflexivity; lia. }
  rewrite (Hl s H), Hl, rev_involutive; [reflexivity|].
  apply List.Forall_rev. exact H.
Qed.

Lemma int_digits_uint_chars u :
  int_digits (Json.uint_chars u) true = Some (Json.uint_chars u).
Proof.
  induction u; cbn [Json.uint_chars int_digits]; [reflexivity|..];
    cbn; rewrite IHu; reflexivity.
Qed.

Lemma int_digits_uint_chars_first u :
  u <> Decimal.Nil ->
  int_digits (Json.uint_chars u) false = Some (Json.uint_chars u).
Proof.
  destruct u; [congruence|..]; intros _; cbn [Json.uint_chars int_digits];
    cbn; rewrite int_digits_uint_chars; reflexivity.
Qed.

Lemma uint_chars_ascii u : forallb (fun c => c <? 128) (Json.uint_chars u) = true.
Proof.
  apply forallb_forall. intros c Hc.
  pose proof (uint_chars_digits u) as H.
  rewrite List.Forall_forall in H. specialize (H c Hc).
  apply N.ltb_lt. lia.
Qed.

Lemma int_of_unsigned u :
  u <> Decimal.Nil ->
  int_of_str (Json.uint_chars u) = Ret (Z.of_N (N.of_uint u)).
Proof.
  intros Hu. unfold int_of_str.
  rewrite uint_chars_ascii. cbn [negb].
  rewrite (strip_digits _ (uint_chars_digits u)).
  assert (Hsign :
    match Json.uint_chars u with
    | 45 :: r => (true, r)
    | 43 :: r => (false, r)
    | _ => (false, Json.uint_chars u)
    end = (false, Json.uint_chars u)).
  { destruct u; reflexivity. }
  rewrite Hsign, (int_digits_uint_chars_first u Hu), uint_of_chars_uint_chars.
  reflexivity.
Qed.

Lemma int_of_negative u :
  u <> Decimal.Nil ->
  int_of_str (45 :: Json.uint_chars u) = Ret (- Z.of_N (N.of_uint u))%Z.
Proof.
  intros Hu. unfold int_of_str.
  cbn [forallb]. rewrite uint_chars_ascii. cbn [negb andb N.ltb N.compare].
  assert (Hs : strip (45 :: Json.uint_chars u) = 45 :: Json.uint_chars u).
  { unfold strip. rewrite lstrip_head by reflexivity.
    pose proof (uint_chars_digits u) as Hd.
    assert (Hr : lstrip (rev (45 :: Json.uint_chars u))
                 = rev (45 :: Json.uint_chars u)).
    { cbn [rev].
      destruct (rev (Json.uint_chars u)) as [|c t] eqn:E; [reflexivity|].
      cbn [app]. apply lstrip_head.
      assert (Hc : 48 <= c <= 57).
      { apply List.Forall_rev in Hd. unfold str in *. rewrite E in Hd.
        apply List.Forall_cons_iff in Hd as [Hc _]. exact Hc. }
      unfold is_space.
      destruct (N.eqb_spec c 32); [lia|].
      destruct (N.leb_spec 9 c), (N.leb_spec c 13); try reflexivity; lia. }
    rewrite Hr, rev_involutive. reflexivity. }
  rewrite Hs, (int_digits_uint_chars_first u Hu), uint_of_chars_uint_chars.
  reflexivity.
Qed.

Lemma int_of_str_repr_int z : int_of_str (Json.repr_int z) = Ret z.
Proof.
  unfold Json.repr_int. destruct z as [|p|p]; cbn [Z.to_int].
  - reflexivity.
  - rewrite int_of_unsigned.
    + change (N.of_uint (Pos.to_uint p)) with (Pos.of_uint (Pos.to_uint p)).
      rewrite DecimalPos.Unsigned.of_to. reflexivity.
    + apply DecimalPos.Unsigned.to_uint_nonnil.
  - rewrite int_of_negative.
    + change (N.of_uint (Pos.to_uint p)) with (Pos.of_uint (Pos.to_uint p)).
      rewrite DecimalPos.Unsigned.of_to. reflexivity.
    + apply DecimalPos.Unsigned.to_uint_nonnil.
Qed.

Lemma py_int_nonce_forms n o : nonce_forms n o -> py_int o = Ret n.
Proof. intros [->| ->]; [reflexivity|apply int_of_str_repr_int]. Qed.



(** ** A nonce that differs stops the two class-based scripts *)

(** X10.  When the first response opens to an object whose [nonceClient],
    read through [int()], is not the nonce sent, step 2 of
    [rmap_client_pdf_getting] exits with status 1 and step 2 of
    [test_group_rmap] gives up: neither goes on to the third step, and
    nothing is encrypted or sent after the response was opened. *)
Theorem class_scripts_nonce_mismatch
    (P : OpenPGP) (client_priv server_pub : PGPKey) (passphrase : option str)
    (nonce_client received_nonce : Z) (result payload obj received : pyobj)
    (s s1 : state) :
  let idm := {| rmap_client_pdf_getting.client_priv := client_priv;
                rmap_client_pdf_getting.server_pub := server_pub;
                rmap_client_pdf_getting.passphrase := passphrase |} in
  let client := {| test_group_rmap.your_priv_key := client_priv;
                   test_group_rmap.target_pub_key := server_pub;
                   test_group_rmap.passphrase := passphrase |} in
  py_getitem result (lit "payload") = Ret payload ->
  rmap_client_pdf_getting.decrypt_for_client P idm payload s = (Ret obj, s1) ->
  py_getitem obj (lit "nonceClient") = Ret received ->
  py_int received = Ret received_nonce ->
  received_nonce <> nonce_client ->
  rmap_client_pdf_getting.step2 P idm nonce_client payload s
    = (Raise (SystemExit 1), s1)
  /\ test_group_rmap.step2 P client nonce_client result s = (Ret None, s1).
Proof.
  intros idm client Hp Hd Hr Hi Hne.
  assert (Hv : forall st,
    rmap_client_pdf_getting.verify_nonce nonce_client obj st
    = (Raise (Exception PlainException), st)).
  { intros st. unfold rmap_client_pdf_getting.verify_nonce.
    rewrite !bind_run, !lift_run, Hr. rewrite !bind_run, !lift_run, Hi.
    apply Z.eqb_neq in Hne. rewrite Hne. reflexivity. }
  split.
  - unfold rmap_client_pdf_getting.step2, try_except.
    rewrite bind_run, Hd, Hv. reflexivity.
  - unfold test_group_rmap.step2, try_except.
    rewrite bind_run, lift_run, Hp.
    rewrite bind_run, group_decrypt_from_target_eq.
    change (rmap_client_pdf_getting.decrypt_for_client P _ payload s)
      with (rmap_client_pdf_getting.decrypt_for_client P idm payload s).
    rewrite Hd.
    rewrite bind_run.
    change (test_group_rmap.verify_nonce nonce_client obj s1)
      with (rmap_client_pdf_getting.verify_nonce nonce_client obj s1).
    rewrite Hv. reflexivity.
Qed.

Lemma class_scripts_nonce_mismatch_witness :
  fst (rmap_client_pdf_getting.step2 Toy.cipher
         {| rmap_client_pdf_getting.client_priv := Toy.client_priv;
            rmap_client_pdf_getting.server_pub := Toy.server_pub;
            rmap_client_pdf_getting.passphrase := Toy.passphrase |}
         123456789
         (PyStr (Toy.envelope Toy.client_pub 1
                   (Toy.echo (PyInt 5) (PyInt 987654321))))
         initial) = Raise (SystemExit 1)
  /\ fst (test_group_rmap.step2 Toy.cipher
            {| test_group_rmap.your_priv_key := Toy.client_priv;
               test_group_rmap.target_pub_key := Toy.server_pub;
               test_group_rmap.passphrase := Toy.passphrase |}
            123456789
            (payload_body (Toy.envelope Toy.client_pub 1
                             (Toy.echo (PyInt 5) (PyInt 987654321))))
            initial) = Ret None.
Proof.
  pose proof (class_scripts_nonce_mismatch Toy.cipher Toy.client_priv
                Toy.server_pub Toy.passphrase 123456789 5
                (payload_body (Toy.envelope Toy.client_pub 1
                                 (Toy.echo (PyInt 5) (PyInt 987654321))))
                (PyStr (Toy.envelope Toy.client_pub 1
                          (Toy.echo (PyInt 5) (PyInt 987654321))))
                (Toy.echo (PyInt 5) (PyInt 987654321)) (PyInt 5)
                initial (after_unlock initial)) as H.
  cbv zeta in H.
  destruct H as [H1 H2];
    [vm_compute; reflexivity .. | lia |].
  split; [exact (f_equal fst H1)|exact (f_equal fst H2)].
Defined.

(** ** Keys of both kinds in one dict *)

Lemma sort_items_mixed {A} (items : list (pykey * A)) s v z w :
  In (KStr s, v) items -> In (KInt z, w) items ->
  Json.sort_items items = Raise (Exception TypeError).
Proof.
  intros Hs Hz. unfold Json.sort_items.
  assert (H1 : forallb (fun kv => Json.is_kstr (fst kv)) items = false).
  { apply not_true_is_false. intros H.
    rewrite forallb_forall in H. specialize (H _ Hz). discriminate. }
  assert (H2 : forallb (fun kv => negb (Json.is_kstr (fst kv))) items = false).
  { apply not_true_is_false. intros H.
    rewrite forallb_forall in H. specialize (H _ Hs). discriminate. }
  rewrite H1, H2. reflexivity.
Qed.

(** X11.  A dict with a [str] key and an [int] key cannot be put in key order:
    [json.dumps] raises [TypeError], and each seal function raises it
    before anything is encrypted. *)
Theorem mixed_keys_type_error
    (P : OpenPGP) (W : World) (recipient : PGPKey)
    (d : list (pykey * pyobj)) (k : str) (v : pyobj) (z : Z) (w : pyobj)
    (s : state) :
  In (KStr k, v) d -> In (KInt z, w) d ->
  Json.dumps (PyDict d) = Raise (Exception TypeError)
  /\ fixed_rmap_client.encrypt_to_server P W (PyDict d) recipient s
     = (Raise (Exception TypeError), s).
Proof.
  intros Hs Hz.
  assert (H : Json.dumps (PyDict d) = Raise (Exception TypeError)).
  { unfold Json.dumps. cbn [Json.encode].
    rewrite (sort_items_mixed _ k (Json.encode v) z (Json.encode w)).
    - reflexivity.
    - apply (in_map (fun kv => (fst kv, Json.encode (snd kv))) _ _ Hs).
    - apply (in_map (fun kv => (fst kv, Json.encode (snd kv))) _ _ Hz). }
  split; [exact H|]. rewrite encrypt_to_server_run, H. reflexivity.
Qed.

Lemma mixed_keys_type_error_witness :
  Json.dumps (PyDict [(KStr (lit "nonceServer"), PyInt 7); (KInt 1, PyNone)])
    = Raise (Exception TypeError)
  /\ fixed_rmap_client.encrypt_to_server Toy.cipher Toy.happy
       (PyDict [(KStr (lit "nonceServer"), PyInt 7); (KInt 1, PyNone)])
       Toy.server_pub initial
     = (Raise (Exception TypeError), initial).
Proof.
  apply (mixed_keys_type_error Toy.cipher Toy.happy Toy.server_pub
           [(KStr (lit "nonceServer"), PyInt 7); (KInt 1, PyNone)]
           (lit "nonceServer") (PyInt 7) 1 PyNone initial).
  - left. reflexivity.
  - right. left. reflexivity.
Defined.

(** ** What [json.loads] returns has [str] keys only *)

Lemma dict_set_keeps (Q : pykey * pyobj -> Prop) d k v :
  Forall Q d -> Q (k, v) -> (forall k' v', Q (k', v') -> k' = k -> Q (k', v)) ->
  Forall Q (dict_set d k v).
Proof.
  intros Hd Hq Hrep. induction Hd as [|[k' v'] t Hx Ht IH]; cbn [dict_set].
  - constructor; [exact Hq|constructor].
  - destruct (bool_decide (k' = k)) eqn:E.
    + apply bool_decide_eq_true_1 in E. constructor; [|exact Ht].
      eapply Hrep; eauto.
    + constructor; assumption.
Qed.

Lemma dict_set_keys {A} (d : list (pykey * A)) k v :
  In k (map fst d) -> map fst (dict_set d k v) = map fst d.
Proof.
  induction d as [|[k' v'] t IH]; cbn [dict_set map fst]; [intros []|].
  intros Hin. destruct (bool_decide (k' = k)) eqn:E; [reflexivity|].
  apply bool_decide_eq_false_1 in E.
  destruct Hin as [->|Hin]; [congruence|].
  cbn [map fst]. rewrite IH by exact Hin. reflexivity.
Qed.

Lemma dict_set_new_key {A} (d : list (pykey * A)) k v :
  ~ In k (map fst d) -> map fst (dict_set d k v) = map fst d ++ [k].
Proof.
  induction d as [|[k' v'] t IH]; cbn [dict_set map fst app]; [reflexivity|].
  intros Hin. destruct (bool_decide (k' = k)) eqn:E.
  - apply bool_decide_eq_true_1 in E. exfalso. apply Hin. left. exact E.
  - cbn [map fst app].
    rewrite IH by (intros H; apply Hin; right; exact H). reflexivity.
Qed.

Lemma dict_set_nodup {A} (d : list (pykey * A)) k v :
  NoDup (map fst d) -> NoDup (map fst (dict_set d k v)).
Proof.
  intros Hd.
  destruct (in_dec pykey_eq_dec k (map fst d)) as [Hin|Hin].
  - rewrite dict_set_keys by exact Hin. exact Hd.
  - rewrite dict_set_new_key by exact Hin.
    apply NoDup_app. repeat split.
    + exact Hd.
    + intros x Hx Hk. apply list_elem_of_In in Hk. cbn in Hk.
      apply list_elem_of_In in Hx. destruct Hk as [<-|[]]. tauto.
    + apply NoDup_singleton.
Qed.

Lemma dict_of_pairs_keyed ps :
  Forall (fun kv => Json.is_kstr (fst kv) = true /\ str_keyed (snd kv)) ps ->
  str_keyed (PyDict (dict_of_pairs ps)).
Proof.
  intros Hps. unfold dict_of_pairs.
  assert (Hgen : forall acc,
    NoDup (map fst acc) ->
    Forall (fun kv => Json.is_kstr (fst kv) = true /\ str_keyed (snd kv)) acc ->
    str_keyed
      (PyDict (fold_left (fun d kv => dict_set d (fst kv) (snd kv)) ps acc))).
  { induction Hps as [|[k v] t [Hk Hv] Ht IH]; intros acc Hnd Hacc;
      cbn [fold_left fst snd].
    - constructor; assumption.
    - apply IH.
      + apply dict_set_nodup. exact Hnd.
      + apply dict_set_keeps.
        * exact Hacc.
        * split; assumption.
        * intros k' v' [Hk' _] ->. split; assumption. }
  apply Hgen; constructor.
Qed.

Lemma match_number_keyed s v r :
  Json.match_number s = Ret (v, r) -> str_keyed v.
Proof.
  unfold Json.match_number. intros H.
  repeat (split_match H; try discriminate H);
    injection H as <- _; constructor.
Qed.

(** Case analysis on a character that a hypothesis matches against
    literals. *)
Ltac case_char c H :=
  destruct c as [|c];
  [|repeat (destruct c as [c|c|]; try (cbn iota in H; discriminate H))];
  try (cbn iota in H; discriminate H).

Ltac keep_char c Hne :=
  destruct c as [|c]; [exact (fun H => H)|];
  repeat (destruct c as [c|c|]; try exact (fun H => H);
          try (exfalso; apply Hne; reflexivity)).

Section Scan.

Variable scan : str -> res (pyobj * str).
Hypothesis scan_keyed : forall s v r, scan s = Ret (v, r) -> str_keyed v.

Lemma array_items_keyed fuel s vs r :
  Json.array_items scan fuel s = Ret (vs, r) -> Forall str_keyed vs.
Proof.
  revert s vs r. induction fuel as [|fuel IH]; intros s vs r;
    cbn [Json.array_items]; [discriminate|].
  destruct (scan s) as [[v r1]|] eqn:Ev;
    cbn [mbind res_bind]; [|discriminate].
  destruct (Json.skip_ws r1) as [|c r2]; [discriminate|].
  intros H. case_char c H.
  - injection H as <- <-. constructor; [eapply scan_keyed, Ev|constructor].
  - destruct (Json.array_items scan fuel (Json.skip_ws r2))
      as [[vs' r3]|] eqn:E; cbn [mbind res_bind] in H; [|discriminate].
    injection H as <- <-.
    constructor; [eapply scan_keyed, Ev|eapply IH, E].
Qed.

Lemma object_items_keyed fuel s kvs r :
  Json.object_items scan fuel s = Ret (kvs, r) ->
  Forall (fun kv => Json.is_kstr (fst kv) = true /\ str_keyed (snd kv)) kvs.
Proof.
  revert s kvs r. induction fuel as [|fuel IH]; intros s kvs r;
    cbn [Json.object_items]; [discriminate|].
  destruct s as [|q r0]; [discriminate|].
  intros H. case_char q H.
  destruct (Json.scanstring (S (length r0)) r0) as [[k r1]|];
    cbn [mbind res_bind] in H; [|discriminate].
  destruct (Json.skip_ws r1) as [|c r2]; [discriminate|].
  case_char c H.
  destruct (scan (Json.skip_ws r2)) as [[v r3]|] eqn:Ev;
    cbn [mbind res_bind] in H; [|discriminate].
  destruct (Json.skip_ws r3) as [|c r4]; [discriminate|].
  case_char c H.
  - injection H as <- <-.
    constructor; [split; [reflexivity|eapply scan_keyed, Ev]|constructor].
  - destruct (Json.object_items scan fuel (Json.skip_ws r4))
      as [[kvs' r5]|] eqn:E; cbn [mbind res_bind] in H; [|discriminate].
    injection H as <- <-.
    constructor; [split; [reflexivity|eapply scan_keyed, Ev]|eapply IH, E].
Qed.

End Scan.

Lemma scan_once_keyed fuel : forall s v r,
  Json.scan_once fuel s = Ret (v, r) -> str_keyed v.
Proof.
  induction fuel as [|fuel IH]; intros s v r;
    cbn [Json.scan_once]; [discriminate|].
  destruct s as [|c r0]; [discriminate|].
  destruct (c =? 34).
  { destruct (Json.scanstring _ _) as [[t rest]|];
      cbn [mbind res_bind]; [|discriminate]. intros [= <- _]. constructor. }
  destruct (c =? 123).
  { assert (Hobj : forall r',
      ('(kvs, rest) ← Json.object_items (Json.scan_once fuel) (S (length r')) r';
       Ret (PyDict (dict_of_pairs kvs), rest)) = Ret (v, r) -> str_keyed v).
    { intros r'.
      destruct (Json.object_items _ _ r') as [[kvs rest]|] eqn:E;
        cbn [mbind res_bind]; [|discriminate]. intros [= <- _].
      apply dict_of_pairs_keyed.
      eapply object_items_keyed; [exact IH|exact E]. }
    destruct (Json.skip_ws r0) as [|c' r'] eqn:Ews; [apply Hobj|].
    destruct (N.eq_dec c' 125) as [->|Hne].
    - intros [= <- _]. constructor; constructor.
    - intros H. apply (Hobj (c' :: r')).
      revert H. clear -Hne. keep_char c' Hne. }
  destruct (c =? 91).
  { assert (Harr : forall r',
      ('(vs, rest) ← Json.array_items (Json.scan_once fuel) (S (length r')) r';
       Ret (PyList vs, rest)) = Ret (v, r) -> str_keyed v).
    { intros r'.
      destruct (Json.array_items _ _ r') as [[vs rest]|] eqn:E;
        cbn [mbind res_bind]; [|discriminate]. intros [= <- _]. constructor.
      eapply array_items_keyed; [exact IH|exact E]. }
    destruct (Json.skip_ws r0) as [|c' r'] eqn:Ews; [apply Harr|].
    destruct (N.eq_dec c' 93) as [->|Hne].
    - intros [= <- _]. constructor; constructor.
    - intros H. apply (Harr (c' :: r')).
      revert H. clear -Hne. keep_char c' Hne. }
  destruct (Json.strip_prefix (lit "null") (c :: r0)).
  { intros [= <- _]. constructor. }
  destruct (Json.strip_prefix (lit "true") (c :: r0)).
  { intros [= <- _]. constructor. }
  destruct (Json.strip_prefix (lit "false") (c :: r0)).
  { intros [= <- _]. constructor. }
  destruct (Json.float_constant _); [discriminate|].
  apply match_number_keyed.
Qed.

(** What [json.loads] returns was scanned from the text. *)
Lemma loads_scanned t v :
  Json.loads t = Ret v ->
  exists fuel s rest, Json.scan_once fuel s = Ret (v, rest).
Proof.
  unfold Json.loads.
  assert (H : ('(v, rest) ← Json.scan_once (S (length t)) (Json.skip_ws t);
               match Json.skip_ws rest with [] => Ret v | _ => Json.bad end)
              = Ret v ->
              exists fuel s rest, Json.scan_once fuel s = Ret (v, rest)).
  { destruct (Json.scan_once _ _) as [[v' rest]|] eqn:E;
      cbn [mbind res_bind]; [|discriminate].
    destruct (Json.skip_ws rest); [|discriminate].
    intros [= <-]. eauto. }
  destruct t as [|c r]; [exact H|].
  destruct (N.eq_dec c 0xfeff) as [->|Hne]; [discriminate|].
  intros H'. apply H. revert H'. clear -Hne. keep_char c Hne.
Qed.

(** X12.  Whatever text [json.loads] accepts, the object it returns has only
    [str] keys, pairwise different in each dict, at every depth. *)
Theorem loads_str_keyed (t : str) (v : pyobj) :
  Json.loads t = Ret v -> str_keyed v.
Proof.
  intros H. apply loads_scanned in H as (fuel & s & rest & H).
  eapply scan_once_keyed, H.
Qed.

Lemma loads_str_keyed_witness :
  str_keyed
    (PyDict [(KStr (lit "a"), PyList [PyDict [(KStr (lit "1"), PyNone)]])]).
Proof.
  apply (loads_str_keyed
           (Toy.json_text
              (PyDict [(KStr (lit "a"), PyList [PyDict [(KInt 1, PyNone)]])]))).
  vm_compute. reflexivity.
Defined.

(** ** An [int] key does not come back *)

Lemma sort_items_ret_kinds {A} (items sorted : list (pykey * A)) :
  Json.sort_items items = Ret sorted ->
  forallb (fun kv => Json.is_kstr (fst kv)) items = true
  \/ forallb (fun kv => negb (Json.is_kstr (fst kv))) items = true.
Proof.
  unfold Json.sort_items.
  destruct (forallb _ items); [auto|].
  destruct (forallb _ items); [auto|discriminate].
Qed.

(** X13.  [json.dumps] writes an [int] key as a string and [json.loads] reads
    a string: a dict with an [int] key that is written and read again
    is a different dict. *)
Theorem int_key_does_not_round_trip
    (d : list (pykey * pyobj)) (z : Z) (v : pyobj) (t : str) (back : pyobj) :
  In (KInt z, v) d ->
  Json.dumps (PyDict d) = Ret t ->
  Json.loads t = Ret back ->
  py_eq back (PyDict d) = false.
Proof.
  intros Hin Hd Hl.
  assert (Hkinds : forall k w, In (k, w) d -> Json.is_kstr k = false).
  { unfold Json.dumps in Hd. cbn [Json.encode] in Hd.
    destruct (Json.sort_items _) as [sorted|] eqn:Es; [|discriminate].
    apply sort_items_ret_kinds in Es as [Hs|Hs];
      rewrite forallb_forall in Hs.
    - specialize (Hs _ (in_map (fun kv => (fst kv, Json.encode (snd kv)))
                          _ _ Hin)). discriminate.
    - intros k w Hk.
      specialize (Hs _ (in_map (fun kv => (fst kv, Json.encode (snd kv)))
                          _ _ Hk)).
      cbn [fst] in Hs. destruct (Json.is_kstr k); [discriminate|reflexivity]. }
  apply loads_scanned in Hl as (fuel & s & rest & Hl).
  apply scan_once_keyed in Hl.
  destruct Hl as [| | | | |ps _ Hps]; try reflexivity.
  cbn [py_eq]. destruct ps as [|[k w] ps].
  - destruct d; [destruct Hin|reflexivity].
  - apply List.Forall_cons_iff in Hps as [[Hk _] _]. cbn [fst] in Hk.
    destruct (dict_get d k) as [w'|] eqn:Eg;
      [|apply andb_false_r].
    exfalso.
    assert (Hget : forall (l : list (pykey * pyobj)) a b,
              dict_get l a = Some b -> In (a, b) l).
    { unfold dict_get. intros l a b H.
      destruct (List.find _ l) as [[a' b']|] eqn:E; [|discriminate].
      injection H as <-. apply find_some in E as [E1 E2].
      cbn [fst snd] in *. apply bool_decide_eq_true_1 in E2. congruence. }
    apply Hget in Eg. apply Hkinds in Eg. congruence.
Qed.

Lemma int_key_does_not_round_trip_witness :
  py_eq (PyDict [(KStr (lit "1"), PyStr (lit "x"))])
        (PyDict [(KInt 1, PyStr (lit "x"))]) = false.
Proof.
  apply (int_key_does_not_round_trip
           [(KInt 1, PyStr (lit "x"))] 1 (PyStr (lit "x"))
           (Toy.json_text (PyDict [(KInt 1, PyStr (lit "x"))]))).
  - left. reflexivity.
  - vm_compute. reflexivity.
  - vm_compute. reflexivity.
Defined.

(** ** [b64decode] skips what is not base64 *)

Lemma a2b_base64_skips s : forall q left pads,
  Base64.a2b_base64 (List.filter b64_char s) q left pads
  = Base64.a2b_base64 s q left pads.
Proof.
  induction s as [|c r IH]; intros q left pads; [reflexivity|].
  cbn [List.filter]. unfold b64_char at 1.
  destruct (N.eqb_spec c 61) as [->|Hc].
  - cbn [orb Base64.a2b_base64 N.eqb Pos.eqb].
    destruct (2 <=? q)%nat; [|apply IH].
    destruct (4 <=? q + S pads)%nat; [reflexivity|apply IH].
  - cbn [orb]. destruct (Base64.a2b_char c) as [v|] eqn:Ev.
    + rewrite bool_decide_eq_true_2 by eauto.
      cbn [Base64.a2b_base64].
      apply N.eqb_neq in Hc. rewrite Hc, Ev.
      destruct q as [|[|[|q]]]; rewrite ?IH; reflexivity.
    + rewrite bool_decide_eq_false_2 by (intros [? [=]]).
      cbn [Base64.a2b_base64].
      apply N.eqb_neq in Hc. rewrite Hc, Ev. apply IH.
Qed.

Lemma b2a_base64_alphabet b :
  forallb b64_char (Base64.b2a_base64 b) = true.
Proof.
  assert (Hc : forall i, b64_char (Base64.b2a_char i) = true).
  { intros i. unfold b64_char. apply orb_true_iff. right.
    apply bool_decide_eq_true_2.
    unfold Base64.b2a_char, Base64.a2b_char. cases_N; eauto; lia. }
  revert b. fix IH 1. intros [|a [|b [|c r]]]; cbn [Base64.b2a_base64 forallb].
  - reflexivity.
  - rewrite !Hc. reflexivity.
  - rewrite !Hc. reflexivity.
  - rewrite !Hc, IH. reflexivity.
Qed.

(** X14.  ASCII text whose base64 characters, taken in order, are the
    encoding of the octets [b] decodes to [b]: line breaks, spaces and
    any other foreign characters in an envelope are ignored. *)
Theorem b64decode_lenient (b : bytes) (t : str) :
  Forall (fun x => x < 256) b ->
  forallb (fun c => c <? 128) t = true ->
  List.filter b64_char t = Base64.b64encode b ->
  Base64.b64decode (PyStr t) = Ret b.
Proof.
  intros Hb Ht Hf. unfold Base64.b64decode. rewrite Ht.
  rewrite <- a2b_base64_skips, Hf. apply a2b_b2a_base64. exact Hb.
Qed.

Lemma b64decode_lenient_witness :
  Base64.b64decode (PyStr (lit "aGVs bG8h" ++ [10; 13] ++ lit "IQ=="))
  = Ret (lit "hello!!").
Proof.
  apply b64decode_lenient.
  - repeat (apply List.Forall_cons; [vm_compute; reflexivity|]).
    apply List.Forall_nil.
  - vm_compute. reflexivity.
  - vm_compute. reflexivity.
Defined.

(** ** The envelope is base64 text *)

Lemma b2a_base64_length b : (length (Base64.b2a_base64 b) mod 4 = 0)%nat.
Proof.
  revert b. fix IH 1. intros [|a [|b [|c r]]]; cbn [Base64.b2a_base64 length].
  - reflexivity.
  - reflexivity.
  - reflexivity.
  - specialize (IH r).
    change (S (S (S (S (length (Base64.b2a_base64 r))))))
      with (4 + length (Base64.b2a_base64 r))%nat.
    rewrite <- Nat.Div0.add_mod_idemp_l. exact IH.
Qed.

(** X15.  Whatever the cipher, an envelope that [seal] returns consists of
    base64 characters and padding only, with no line breaks, and its
    length is a multiple of four. *)
Theorem seal_is_base64
    (P : OpenPGP) (recipient : PGPKey) (seed : N) (message : pyobj)
    (envelope : str) :
  seal P recipient seed message = Ret envelope ->
  forallb b64_char envelope = true /\ (length envelope mod 4 = 0)%nat.
Proof.
  unfold seal. intros H.
  destruct (Json.dumps message) as [pt|]; [|discriminate].
  cbn [mbind res_bind] in H.
  destruct (pgp_encrypt P recipient seed pt) as [enc|]; [|discriminate].
  cbn [mbind res_bind] in H.
  destruct (str_encode _) as [armored|]; [|discriminate].
  cbn [mbind res_bind] in H.
  unfold ascii_decode, Base64.b64encode in H.
  destruct (forallb _ _); [|discriminate].
  injection H as <-. split; [apply b2a_base64_alphabet|apply b2a_base64_length].
Qed.

Lemma seal_is_base64_witness :
  forallb b64_char (Toy.envelope Toy.server_pub 0 (PyInt 7)) = true
  /\ (length (Toy.envelope Toy.server_pub 0 (PyInt 7)) mod 4 = 0)%nat.
Proof.
  apply (seal_is_base64 Toy.cipher Toy.server_pub 0 (PyInt 7)).
  vm_compute. reflexivity.
Defined.

(** ** The canonical text is printable ASCII *)

Lemma hexdigit_printable n : n < 16 -> 32 <= Json.hexdigit n <= 126.
Proof. unfold Json.hexdigit. intros H. cases_N; lia. Qed.

Lemma land_15_lt n : N.land n 15 < 16.
Proof. change 15 with (N.ones 4). rewrite N.land_ones. apply N.mod_lt. lia. Qed.

Lemma u_escape_printable n : printable (Json.u_escape n).
Proof.
  unfold Json.u_escape, printable.
  repeat (apply List.Forall_cons;
          [first [lia|apply hexdigit_printable, land_15_lt]|]).
  apply List.Forall_nil.
Qed.

Lemma escape_char_printable c : printable (Json.escape_char c).
Proof.
  unfold Json.escape_char, printable.
  repeat match goal with
         | |- context [if ?b then _ else _] => destruct b eqn:?
         end;
    try (repeat (apply List.Forall_cons; [lia|]); apply List.Forall_nil).
  - apply andb_true_iff in Heqb as [Heqb _].
    apply andb_true_iff in Heqb as [Heqb _].
    apply andb_true_iff in Heqb as [H1 H2].
    apply N.leb_le in H1, H2.
    apply List.Forall_cons; [lia|apply List.Forall_nil].
  - apply List.Forall_cons; [lia|]. apply List.Forall_app. split.
    + apply u_escape_printable.
    + apply List.Forall_cons; [lia|apply u_escape_printable].
  - apply List.Forall_cons; [lia|apply u_escape_printable].
Qed.

Lemma encode_basestring_printable s : printable (Json.encode_basestring_ascii s).
Proof.
  unfold Json.encode_basestring_ascii, printable.
  apply List.Forall_cons; [lia|]. apply List.Forall_app. split.
  - induction s as [|c s IH]; cbn [map concat]; [constructor|].
    apply List.Forall_app. split; [apply escape_char_printable|exact IH].
  - apply List.Forall_cons; [lia|apply List.Forall_nil].
Qed.

Lemma repr_int_printable z : printable (Json.repr_int z).
Proof.
  assert (H : forall u, printable (Json.uint_chars u)).
  { intros u. eapply List.Forall_impl; [|apply uint_chars_digits].
    cbn beta. intros; lia. }
  unfold Json.repr_int. destruct (Z.to_int z); [apply H|].
  apply List.Forall_cons; [lia|apply H].
Qed.

Lemma join_printable sep chunks :
  printable sep -> Forall printable chunks -> printable (Json.join sep chunks).
Proof.
  intros Hs Hc. induction Hc as [|c t Hc Ht IH]; [constructor|].
  destruct t as [|c' t]; [exact Hc|].
  change (Json.join sep (c :: c' :: t))
    with (c ++ sep ++ Json.join sep (c' :: t)).
  apply List.Forall_app. split; [exact Hc|].
  apply List.Forall_app. split; [exact Hs|exact IH].
Qed.

Lemma sequence_forall {A B} (f : A -> res B) (Q : B -> Prop) l r :
  Json.sequence (map f l) = Ret r ->
  Forall (fun x => forall b, f x = Ret b -> Q b) l ->
  Forall Q r.
Proof.
  revert r. induction l as [|x l IH]; intros r Hr Hl; cbn [map] in Hr.
  - apply sequence_nil_inv in Hr as ->. constructor.
  - apply sequence_cons_inv in Hr as (a & r' & Ha & Hr' & ->).
    apply List.Forall_cons_iff in Hl as [Hx Hl].
    constructor; [apply Hx, Ha|apply IH; assumption].
Qed.

Lemma encode_key_printable k : printable (Json.encode_key k).
Proof.
  destruct k as [s|z]; cbn [Json.encode_key].
  - apply encode_basestring_printable.
  - apply List.Forall_cons; [lia|]. apply List.Forall_app. split.
    + apply repr_int_printable.
    + apply List.Forall_cons; [lia|apply List.Forall_nil].
Qed.

Lemma sort_items_in {A} (items sorted : list (pykey * A)) x :
  Json.sort_items items = Ret sorted -> In x sorted -> In x items.
Proof.
  unfold Json.sort_items. destruct (_ || _); [|discriminate].
  intros [= <-] Hin.
  apply list_elem_of_In. apply list_elem_of_In in Hin.
  rewrite <- (merge_sort_Permutation Json.item_le items). exact Hin.
Qed.

(** X16.  Whatever the object, the text [json.dumps] returns for it consists
    of printable ASCII characters only: the plaintext that is encrypted
    has no control character and no character outside ASCII. *)
Theorem dumps_printable (o : pyobj) (t : str) :
  Json.dumps o = Ret t -> printable t.
Proof.
  unfold Json.dumps. revert t.
  induction o as [| b | z | s | l IH | d IH] using pyobj_nested_ind;
    intros t; cbn [Json.encode].
  - intros [= <-]. unfold printable.
    repeat (apply List.Forall_cons; [vm_compute; split; discriminate|]).
    apply List.Forall_nil.
  - destruct b; intros [= <-]; unfold printable;
      repeat (apply List.Forall_cons; [vm_compute; split; discriminate|]);
      apply List.Forall_nil.
  - intros [= <-]. apply repr_int_printable.
  - intros [= <-]. apply encode_basestring_printable.
  - destruct (Json.sequence (map Json.encode l)) as [chunks|] eqn:E;
      cbn [mbind res_bind]; [|discriminate].
    intros [= <-].
    apply List.Forall_cons; [lia|]. apply List.Forall_app. split.
    + apply join_printable.
      * apply List.Forall_cons; [lia|apply List.Forall_nil].
      * eapply sequence_forall; [exact E|]. exact IH.
    + apply List.Forall_cons; [lia|apply List.Forall_nil].
  - destruct (Json.sort_items _) as [sorted|] eqn:Es;
      cbn [mbind res_bind]; [|discriminate].
    destruct (Json.sequence _) as [chunks|] eqn:E;
      cbn [mbind res_bind]; [|discriminate].
    intros [= <-].
    apply List.Forall_cons; [lia|]. apply List.Forall_app. split.
    + apply join_printable.
      * apply List.Forall_cons; [lia|apply List.Forall_nil].
      * eapply sequence_forall; [exact E|].
        apply List.Forall_forall. intros [k c] Hin chunk.
        cbn [fst snd]. destruct c as [c|]; cbn [mbind res_bind]; [|discriminate].
        intros [= <-]. unfold Json.encode_item. cbn [fst snd].
        apply List.Forall_app. split; [apply encode_key_printable|].
        apply List.Forall_cons; [lia|].
        eapply sort_items_in in Hin; [|exact Es].
        apply in_map_iff in Hin as ([k' v] & [= <- Hc] & Hin).
        cbn [snd] in Hc.
        rewrite List.Forall_forall in IH. exact (IH _ Hin c Hc).
    + apply List.Forall_cons; [lia|apply List.Forall_nil].
Qed.

Lemma dumps_printable_witness :
  printable
    (Toy.json_text
       (PyDict [(KStr [233; 0x1f600; 10], PyList [PyInt (-5); PyNone])])).
Proof.
  apply (dumps_printable
           (PyDict [(KStr [233; 0x1f600; 10], PyList [PyInt (-5); PyNone])])).
  vm_compute. reflexivity.
Defined.

(** ** The unlock test of the two class-based scripts *)

(** X17.  In [rmap_client_pdf_getting] and [test_group_rmap] a protected
    private key that the passphrase does not open, or with no
    passphrase at all, ends the run at the unlock test: the first exits
    with status 1, the second returns, and neither draws a nonce,
    encrypts or sends anything. *)
Theorem unlock_test_gates_requests
    (P : OpenPGP) (W : World) (passphrase : option str)
    (client_priv server_pub target_pub : PGPKey) :
  key_file W (lit "priv.asc") = Some (Some client_priv) ->
  key_file W (lit "pub.asc") = Some (Some server_pub) ->
  key_file W (lit "Group_04.asc") = Some (Some target_pub) ->
  is_protected client_priv = true ->
  is_public client_priv = false ->
  (forall p, passphrase = Some p -> pgp_unprotect P client_priv p = false) ->
  rmap_client_pdf_getting.main P W passphrase initial
    = (Raise (SystemExit 1), {| trace := [EvRelock]; unlocked := false |})
  /\ test_group_rmap.main P W passphrase initial
     = (Ret false, {| trace := [EvRelock]; unlocked := false |}).
Proof.
  intros Hc Hs Ht Hprot Hpub Hpw.
  assert (Hopen : match passphrase with
                  | Some p => pgp_unprotect P client_priv p
                  | None => false
                  end = false).
  { destruct passphrase as [p|]; [apply Hpw|]; reflexivity. }
  split.
  - unfold rmap_client_pdf_getting.main.
    assert (Hk : rmap_client_pdf_getting.load_keys W initial
                 = (Ret (client_priv, server_pub), initial)).
    { unfold rmap_client_pdf_getting.load_keys, try_except, from_file.
      rewrite !bind_run.
      change rmap_client_pdf_getting.CLIENT_PRIV_KEY_PATH with (lit "priv.asc").
      change rmap_client_pdf_getting.SERVER_PUB_KEY_PATH with (lit "pub.asc").
      rewrite Hc. cbn [mret M_ret]. rewrite Hs. reflexivity. }
    rewrite (bind_ret _ _ _ _ _ Hk). cbn [fst snd].
    erewrite bind_raise; [reflexivity|].
    unfold rmap_client_pdf_getting.unlock_test, try_except.
    rewrite unlock_run, Hprot, Hpub, Hopen. reflexivity.
  - unfold test_group_rmap.main.
    assert (Hk : test_group_rmap.load_keys W initial
                 = (Ret (Some (client_priv, target_pub)), initial)).
    { unfold test_group_rmap.load_keys, try_except, from_file.
      rewrite !bind_run.
      change test_group_rmap.YOUR_PRIV_KEY with (lit "priv.asc").
      change test_group_rmap.TARGET_GROUP_PUBKEY with (lit "Group_04.asc").
      rewrite Hc. cbn [mret M_ret]. rewrite Ht. reflexivity. }
    rewrite (bind_ret _ _ _ _ _ Hk).
    assert (Hu : test_group_rmap.unlock_test P passphrase client_priv initial
                 = (Ret false, {| trace := [EvRelock]; unlocked := false |})).
    { unfold test_group_rmap.unlock_test, try_except.
      rewrite unlock_run, Hprot, Hpub, Hopen. reflexivity. }
    rewrite (bind_ret _ _ _ _ _ Hu). reflexivity.
Qed.

Lemma unlock_test_gates_requests_witness :
  rmap_client_pdf_getting.main Toy.cipher Toy.happy (Some (lit "wrong")) initial
    = (Raise (SystemExit 1), {| trace := [EvRelock]; unlocked := false |})
  /\ test_group_rmap.main Toy.cipher Toy.happy (Some (lit "wrong")) initial
     = (Ret false, {| trace := [EvRelock]; unlocked := false |}).
Proof.
  apply (unlock_test_gates_requests Toy.cipher Toy.happy (Some (lit "wrong"))
           Toy.client_priv Toy.server_pub Toy.server_pub).
  - reflexivity.
  - reflexivity.
  - reflexivity.
  - reflexivity.
  - reflexivity.
  - intros p [= <-]. vm_compute. reflexivity.
Defined.

(** ** What the download writes *)

Lemma writes_app t1 t2 : writes (t1 ++ t2) = writes t1 ++ writes t2.
Proof.
  induction t1 as [|e t1 IH]; [reflexivity|].
  destruct e; cbn [app writes]; rewrite IH; reflexivity.
Qed.

Lemma urls_app t1 t2 : urls (t1 ++ t2) = urls t1 ++ urls t2.
Proof.
  induction t1 as [|e t1 IH]; [reflexivity|].
  destruct e; cbn [app urls]; rewrite IH; reflexivity.
Qed.

(** The files a download adds to those written before it: none, or the
    body of a response to the request for [token] that has status 200
    and content type [application/pdf]. *)
Definition saves_pdf_only (W : World) (base : str) (link : pyobj)
    (before after : state) : Prop :=
  writes (trace after) = writes (trace before)
  \/ exists token resp,
       py_str link = Ret token
       /\ http W (GET (base ++ lit "/api/get-version/" ++ token)) = Some resp
       /\ status_code resp = 200%Z
       /\ content_type resp = Some (lit "application/pdf")
       /\ writes (trace after)
          = writes (trace before)
            ++ [(lit "watermarked_Group_04.pdf", content resp)].

(** X18.  The download of [fixed_rmap_client] and of [rmap_client_test]
    writes at most one file, [watermarked_Group_04.pdf], and only the
    body of a response with status 200 and content type
    [application/pdf]; in every other case nothing is written. *)
Theorem download_saves_pdf_only (W : World) (link : pyobj) (s : state) :
  saves_pdf_only W fixed_rmap_client.SERVER_BASE link s
    (snd (fixed_rmap_client.download W link s))
  /\ saves_pdf_only W rmap_client_test.SERVER_BASE link s
       (snd (rmap_client_test.download W link s)).
Proof.
  split.
  - unfold fixed_rmap_client.download, saves_pdf_only.
    rewrite bind_run, lift_run.
    destruct (py_str link) as [token|]; [|left; reflexivity].
    rewrite bind_run, requests_send_run.
    destruct (http W _) as [resp|] eqn:Hh;
      [|left; cbn [snd push trace]; rewrite writes_app; cbn [writes];
        apply app_nil_r].
    destruct (status_code resp =? 200)%Z eqn:Hst; cbn [negb orb];
      [|left; cbn [snd push trace mret M_ret]; rewrite writes_app;
        cbn [writes]; apply app_nil_r].
    destruct (bool_decide _) eqn:Hct; cbn [negb];
      [|left; cbn [snd push trace mret M_ret]; rewrite writes_app;
        cbn [writes]; apply app_nil_r].
    rewrite bind_run, write_file_run.
    destruct (writable W _);
      [|left; cbn [snd push trace]; rewrite writes_app; cbn [writes];
        apply app_nil_r].
    right. exists token, resp.
    apply bool_decide_eq_true_1 in Hct. apply Z.eqb_eq in Hst.
    repeat split; try assumption.
    cbn [snd push trace mret M_ret]. rewrite !writes_app. cbn [writes].
    rewrite app_nil_r. reflexivity.
  - unfold rmap_client_test.download, saves_pdf_only.
    rewrite bind_run, lift_run.
    destruct (py_str link) as [token|]; [|left; reflexivity].
    rewrite bind_run, requests_send_run.
    destruct (http W _) as [resp|] eqn:Hh;
      [|left; cbn [snd push trace]; rewrite writes_app; cbn [writes];
        apply app_nil_r].
    destruct (status_code resp =? 200)%Z eqn:Hst; cbn [negb orb];
      [|left; cbn [snd push trace raise lift]; rewrite writes_app;
        cbn [writes]; apply app_nil_r].
    destruct (bool_decide _) eqn:Hct; cbn [negb];
      [|left; cbn [snd push trace raise lift]; rewrite writes_app;
        cbn [writes]; apply app_nil_r].
    rewrite write_file_run.
    destruct (writable W _);
      [|left; cbn [snd push trace]; rewrite writes_app; cbn [writes];
        apply app_nil_r].
    right. exists token, resp.
    apply bool_decide_eq_true_1 in Hct. apply Z.eqb_eq in Hst.
    repeat split; try assumption.
    cbn [snd push trace]. rewrite !writes_app. cbn [writes].
    rewrite app_nil_r. reflexivity.
Qed.

(** ** A run of [fixed_rmap_client.main] that reports success *)

Lemma try_except_ret_inv {A} (body : M A) (a b : A) s s' :
  try_except body (fun _ => mret a) s = (Ret b, s') -> b <> a ->
  body s = (Ret b, s').
Proof.
  unfold try_except. destruct (body s) as [[x|[c|code|]] s1]; try discriminate.
  - intros H _. exact H.
  - intros [= <- <-] Hne. congruence.
Qed.

Lemma fixed_message2_trace P W spk nonce obj1 s tok s' :
  fixed_rmap_client.message2 P W spk nonce obj1 s = (Ret (Some tok), s') ->
  exists plaintext envelope,
    s' = push [EvEncrypt spk plaintext;
               EvHttp (POST (fixed_rmap_client.SERVER_BASE
                               ++ lit "/api/rmap-get-link")
                            (payload_body envelope))] s.
Proof.
  unfold fixed_rmap_client.message2. intros H.
  apply bind_inv_ret in H as (echoed & s1 & He & H).
  apply lift_inv in He as [_ ->].
  destruct (negb _); [discriminate|].
  apply bind_inv_ret in H as (ns & s1 & Hn & H).
  apply lift_inv in Hn as [_ ->].
  apply bind_inv_ret in H as (env & s1 & He & H).
  rewrite encrypt_to_server_run in He.
  destruct (Json.dumps _) as [pt|]; [|discriminate].
  injection He as He <-.
  apply bind_inv_ret in H as (r & s1 & Hr & H).
  rewrite requests_send_run in Hr. injection Hr as Hr <-.
  destruct (negb _); [discriminate|].
  apply bind_inv_ret in H as (resp2 & s1 & Hj & H).
  apply response_json_state in Hj as ->.
  apply bind_inv_ret in H as (has & s1 & Hh & H).
  apply lift_inv in Hh as [_ ->].
  destruct (negb has); [discriminate|].
  apply bind_inv_ret in H as (link & s1 & Hl & H).
  apply lift_inv in Hl as [_ ->].
  injection H as _ <-.
  exists pt, env. rewrite push_push. reflexivity.
Qed.

Lemma fixed_download_trace W link s s' :
  fixed_rmap_client.download W link s = (Ret true, s') ->
  exists token resp,
    py_str link = Ret token
    /\ http W (GET (fixed_rmap_client.SERVER_BASE ++ lit "/api/get-version/"
                      ++ token)) = Some resp
    /\ status_code resp = 200%Z
    /\ content_type resp = Some (lit "application/pdf")
    /\ s' = push [EvHttp (GET (fixed_rmap_client.SERVER_BASE
                                 ++ lit "/api/get-version/" ++ token));
                  EvWrite (lit "watermarked_Group_04.pdf") (content resp)] s.
Proof.
  unfold fixed_rmap_client.download. intros H.
  apply bind_inv_ret in H as (token & s1 & Ht & H).
  apply lift_inv in Ht as [Ht ->].
  apply bind_inv_ret in H as (resp & s1 & Hr & H).
  rewrite requests_send_run in Hr. injection Hr as Hr <-.
  destruct (http W _) as [resp'|] eqn:Hh; [|discriminate].
  injection Hr as ->.
  destruct (status_code resp =? 200)%Z eqn:Hst; cbn [negb orb] in H;
    [|discriminate].
  destruct (bool_decide _) eqn:Hct; cbn [negb] in H; [|discriminate].
  apply bind_inv_ret in H as ([] & s1 & Hw & H).
  rewrite write_file_run in Hw. destruct (writable W _); [|discriminate].
  injection Hw as <-. injection H as <-.
  exists token, resp. apply bool_decide_eq_true_1 in Hct. apply Z.eqb_eq in Hst.
  rewrite push_push. repeat split; auto.
Qed.



(** ** A run of a class-based script that reaches its end *)

Lemma try_except_exit_inv {A} (body : M A) code (b : A) s s' :
  try_except body (fun _ => rmap_client_pdf_getting.sys_exit code) s
    = (Ret b, s') ->
  body s = (Ret b, s').
Proof.
  unfold try_except. destruct (body s) as [[x|[c|code'|]] s1]; try discriminate.
  intros H. exact H.
Qed.

Lemma try_except_some_inv {A} (body : M (option A)) (b : A) s s' :
  try_except body (fun _ => mret None) s = (Ret (Some b), s') ->
  body s = (Ret (Some b), s').
Proof.
  unfold try_except. destruct (body s) as [[x|[c|code'|]] s1]; try discriminate.
  intros H. exact H.
Qed.

(** What a successful run leaves in the trace, from the drawing of the
    nonce on: [base] is the server, [file] the file written; [pre] is
    the unlock test and [tail] the opening of the first response, each
    empty for a key that is not protected.  The file holds the body of
    a response whose status is in the range 200 to 299. *)
Definition complete_run (W : World) (base file : str) (t : list event) : Prop :=
  exists server_pub_key nonce_client pre plaintext1 envelope1 tail
         plaintext2 envelope2 token resp,
    t = pre
        ++ [EvRandbits nonce_client;
            EvEncrypt server_pub_key plaintext1;
            EvHttp (POST (base ++ lit "/api/rmap-initiate")
                         (payload_body envelope1))]
        ++ tail
        ++ [EvEncrypt server_pub_key plaintext2;
            EvHttp (POST (base ++ lit "/api/rmap-get-link")
                         (payload_body envelope2));
            EvHttp (GET (base ++ lit "/api/get-version/" ++ token));
            EvWrite file (content resp)]
    /\ (pre = [] \/ pre = [EvUnlock; EvRelock])
    /\ (tail = [] \/ tail = [EvUnlock; EvRelock])
    /\ http W (GET (base ++ lit "/api/get-version/" ++ token)) = Some resp
    /\ (200 <= status_code resp < 300)%Z.

Lemma unlock_probe_trace {A} P key passphrase (a : A) s s' :
  unlock P key passphrase (mret a) s = (Ret a, s') ->
  exists pre, trace s' = trace s ++ pre
              /\ (pre = [] \/ pre = [EvUnlock; EvRelock]).
Proof.
  intros H. apply unlocked_body_effect in H.
  - apply decrypt_effect_ret in H as [->| ->].
    + exists []. rewrite app_nil_r. auto.
    + exists [EvUnlock; EvRelock]. auto.
  - intros s0 r0 s1 [= _ <-]. reflexivity.
Qed.

Lemma open_trace P idm payload s obj s' :
  rmap_client_pdf_getting.decrypt_for_client P idm payload s = (Ret obj, s') ->
  exists tail, trace s' = trace s ++ tail
               /\ (tail = [] \/ tail = [EvUnlock; EvRelock]).
Proof.
  intros H. apply decrypt_for_client_effect in H.
  apply decrypt_effect_ret in H as [->| ->].
  - exists []. rewrite app_nil_r. auto.
  - exists [EvUnlock; EvRelock]. auto.
Qed.

Lemma pdf_verify_nonce_state nonce obj s r s' :
  rmap_client_pdf_getting.verify_nonce nonce obj s = (r, s') -> s' = s.
Proof.
  unfold rmap_client_pdf_getting.verify_nonce. intros H.
  apply bind_inv in H as [(a & s1 & H1 & H)|(e & H1 & _)];
    apply lift_inv in H1 as [_ ->]; [|reflexivity].
  apply bind_inv in H as [(n & s1 & H1 & H)|(e & H1 & _)];
    apply lift_inv in H1 as [_ ->]; [|reflexivity].
  destruct (negb _).
  - apply lift_inv in H as [_ ->]. reflexivity.
  - apply bind_inv in H as [(b & s1 & H1 & H)|(e & H1 & _)];
      apply lift_inv in H1 as [_ ->]; [|reflexivity].
    apply lift_inv in H as [_ ->]. reflexivity.
Qed.

Lemma read_json_state r s res s' : read_json r s = (res, s') -> s' = s.
Proof.
  unfold read_json. destruct (text r); intros H; apply lift_inv in H as [_ ->];
    reflexivity.
Qed.

Lemma sealed_post_trace {A} P W key obj url (k : response -> M A) s a s' :
  (payload ← fixed_rmap_client.encrypt_to_server P W obj key;
   resp ← urlopen W (POST url (payload_body payload));
   k resp) s = (Ret a, s') ->
  (forall resp s0 r s1, k resp s0 = (r, s1) -> s1 = s0) ->
  exists plaintext envelope,
    s' = push [EvEncrypt key plaintext; EvHttp (POST url (payload_body envelope))]
           s.
Proof.
  intros H Hk.
  apply bind_inv_ret in H as (env & s1 & He & H).
  rewrite encrypt_to_server_run in He.
  destruct (Json.dumps obj) as [pt|]; [|discriminate].
  injection He as He <-.
  apply bind_inv_ret in H as (resp & s1 & Hr & H).
  rewrite urlopen_run in Hr. injection Hr as Hr <-.
  apply Hk in H as ->.
  exists pt, env. rewrite push_push. reflexivity.
Qed.

Lemma fetch_trace {A} W link base file (a : A) (k : M A) s s' :
  (token ← lift (py_str link);
   resp ← urlopen W (GET (base ++ lit "/api/get-version/" ++ token));
   _ ← write_file W file (content resp);
   k) s = (Ret a, s') ->
  (forall s0 r s1, k s0 = (r, s1) -> s1 = s0) ->
  exists token resp,
    http W (GET (base ++ lit "/api/get-version/" ++ token)) = Some resp
    /\ (200 <= status_code resp < 300)%Z
    /\ s' = push [EvHttp (GET (base ++ lit "/api/get-version/" ++ token));
                  EvWrite file (content resp)] s.
Proof.
  intros H Hk.
  apply bind_inv_ret in H as (token & s1 & Ht & H).
  apply lift_inv in Ht as [_ ->].
  apply bind_inv_ret in H as (resp & s1 & Hr & H).
  rewrite urlopen_run in Hr. injection Hr as Hr <-.
  destruct (http W _) as [resp'|] eqn:Hh; [|discriminate].
  destruct ((200 <=? status_code resp')%Z && (status_code resp' <? 300)%Z)
    eqn:Hst; [|discriminate].
  injection Hr as ->.
  apply bind_inv_ret in H as ([] & s1 & Hw & H).
  rewrite write_file_run in Hw. destruct (writable W file); [|discriminate].
  injection Hw as <-. apply Hk in H as ->.
  exists token, resp. rewrite push_push.
  apply andb_true_iff in Hst as [H1 H2].
  apply Z.leb_le in H1. apply Z.ltb_lt in H2. auto.
Qed.

Lemma pdf_load_keys_state W s r s' :
  rmap_client_pdf_getting.load_keys W s = (r, s') -> s' = s.
Proof.
  unfold rmap_client_pdf_getting.load_keys, try_except, from_file,
    rmap_client_pdf_getting.sys_exit, raise, lift.
  rewrite !bind_run.
  destruct (key_file W rmap_client_pdf_getting.CLIENT_PRIV_KEY_PATH)
    as [[k|]|]; cbn [mret M_ret];
    try (intros [= _ <-]; reflexivity).
  rewrite !bind_run.
  destruct (key_file W rmap_client_pdf_getting.SERVER_PUB_KEY_PATH)
    as [[k'|]|]; cbn [mret M_ret]; intros [= _ <-]; reflexivity.
Qed.

Lemma group_load_keys_state W s r s' :
  test_group_rmap.load_keys W s = (r, s') -> s' = s.
Proof.
  unfold test_group_rmap.load_keys, try_except, from_file,
    rmap_client_pdf_getting.sys_exit, raise, lift.
  rewrite !bind_run.
  destruct (key_file W test_group_rmap.YOUR_PRIV_KEY)
    as [[k|]|]; cbn [mret M_ret];
    try (intros [= _ <-]; reflexivity).
  rewrite !bind_run.
  destruct (key_file W test_group_rmap.TARGET_GROUP_PUBKEY)
    as [[k'|]|]; cbn [mret M_ret]; intros [= _ <-]; reflexivity.
Qed.





(** ** A run of [rmap_client_test] that reaches its end *)

Lemma test_message2_trace P W spk nonce obj1 s tok s' :
  rmap_client_test.message2 P W spk nonce obj1 s = (Ret tok, s') ->
  exists plaintext envelope,
    s' = push [EvEncrypt spk plaintext;
               EvHttp (POST (rmap_client_test.SERVER_BASE
                               ++ lit "/api/rmap-get-link")
                            (payload_body envelope))] s.
Proof.
  unfold rmap_client_test.message2. intros H.
  apply bind_inv_ret in H as (echoed & s1 & He & H).
  apply lift_inv in He as [_ ->].
  destruct (negb _); [discriminate|].
  apply bind_inv_ret in H as (ns & s1 & Hn & H).
  apply lift_inv in Hn as [_ ->].
  apply bind_inv_ret in H as (env & s1 & He & H).
  rewrite test_encrypt_to_server_eq, encrypt_to_server_run in He.
  destruct (Json.dumps _) as [pt|]; [|discriminate].
  injection He as He <-.
  apply bind_inv_ret in H as (r & s1 & Hr & H).
  rewrite requests_send_run in Hr. injection Hr as Hr <-.
  apply bind_inv_ret in H as ([] & s1 & Hs & H).
  apply raise_for_status_state in Hs as ->.
  apply bind_inv_ret in H as (resp2 & s1 & Hj & H).
  apply response_json_state in Hj as ->.
  apply bind_inv_ret in H as (has & s1 & Hh & H).
  apply lift_inv in Hh as [_ ->].
  destruct (negb has); [discriminate|].
  apply lift_inv in H as [_ ->].
  exists pt, env. rewrite push_push. reflexivity.
Qed.

Lemma test_download_trace W link s s' :
  rmap_client_test.download W link s = (Ret tt, s') ->
  exists token resp,
    http W (GET (rmap_client_test.SERVER_BASE ++ lit "/api/get-version/"
                   ++ token)) = Some resp
    /\ status_code resp = 200%Z
    /\ content_type resp = Some (lit "application/pdf")
    /\ s' = push [EvHttp (GET (rmap_client_test.SERVER_BASE
                                 ++ lit "/api/get-version/" ++ token));
                  EvWrite (lit "watermarked_Group_04.pdf") (content resp)] s.
Proof.
  unfold rmap_client_test.download. intros H.
  apply bind_inv_ret in H as (token & s1 & Ht & H).
  apply lift_inv in Ht as [Ht ->].
  apply bind_inv_ret in H as (resp & s1 & Hr & H).
  rewrite requests_send_run in Hr. injection Hr as Hr <-.
  destruct (http W _) as [resp'|] eqn:Hh; [|discriminate].
  injection Hr as ->.
  destruct (status_code resp =? 200)%Z eqn:Hst; cbn [negb orb] in H;
    [|discriminate].
  destruct (bool_decide _) eqn:Hct; cbn [negb] in H; [|discriminate].
  rewrite write_file_run in H. destruct (writable W _); [|discriminate].
  injection H as <-.
  exists token, resp. apply bool_decide_eq_true_1 in Hct. apply Z.eqb_eq in Hst.
  rewrite push_push. repeat split; auto.
Qed.

Lemma test_load_keys_state W s r s' :
  rmap_client_test.load_keys W s = (r, s') -> s' = s.
Proof.
  unfold rmap_client_test.load_keys, is_file, from_file, raise, lift.
  destruct (key_file W rmap_client_test.SERVER_PUB_KEY_PATH) as [[k|]|];
    cbn [negb]; try (intros [= _ <-]; reflexivity);
    destruct (key_file W rmap_client_test.CLIENT_PRIV_KEY_PATH) as [[k'|]|];
    cbn [negb]; try (intros [= _ <-]; reflexivity);
    rewrite !bind_run; cbn [mret M_ret];
    try (intros [= _ <-]; reflexivity).
  rewrite !bind_run; cbn [mret M_ret].
  destruct (is_public k'); intros [= _ <-]; reflexivity.
Qed.



(** ** What a whole run leaves behind *)

(** Every run of the computation relates the state before and after. *)
Definition keeps (R : state -> state -> Prop) {A} (m : M A) : Prop :=
  forall s r s', m s = (r, s') -> R s s'.

(** No file is written, and a locked key is locked again at the end. *)
Definition calm (s s' : state) : Prop :=
  writes (trace s') = writes (trace s)
  /\ (unlocked s = false -> unlocked s' = false).

(** A locked key is locked again at the end. *)
Definition tidy (s s' : state) : Prop :=
  unlocked s = false -> unlocked s' = false.

(** Files are written only by a run that returns a value accepted by
    [ok]; a locked key is locked again at the end in any case. *)
Definition writes_only_if {A} (ok : A -> bool) (m : M A) : Prop :=
  forall s r s', m s = (r, s') ->
    tidy s s'
    /\ ((exists a, r = Ret a /\ ok a = true)
        \/ writes (trace s') = writes (trace s)).

Lemma calm_refl s : calm s s.
Proof. split; auto. Qed.

Lemma calm_trans s1 s2 s3 : calm s1 s2 -> calm s2 s3 -> calm s1 s3.
Proof. intros [H1 H2] [H3 H4]. split; [congruence|auto]. Qed.

Lemma calm_tidy s s' : calm s s' -> tidy s s'.
Proof. intros [_ H]. exact H. Qed.

Definition is_write (e : event) : bool :=
  match e with EvWrite _ _ => true | _ => false end.

Lemma writes_quiet t l : forallb (fun e => negb (is_write e)) l = true ->
  writes (t ++ l) = writes t.
Proof.
  intros H. rewrite writes_app.
  replace (writes l) with (@nil (str * bytes)); [apply app_nil_r|].
  induction l as [|e l IH]; [reflexivity|].
  cbn [forallb] in H. apply andb_true_iff in H as [He Hl].
  destruct e; try discriminate; cbn [writes]; auto.
Qed.

Lemma calm_push l s :
  forallb (fun e => negb (is_write e)) l = true -> calm s (push l s).
Proof. intros H. split; [apply writes_quiet, H|auto]. Qed.

Lemma keeps_ret {A} (a : A) : keeps calm (mret a : M A).
Proof. intros s r s' [= _ <-]. apply calm_refl. Qed.

Lemma keeps_lift {A} (x : res A) : keeps calm (lift x).
Proof. intros s r s' [= _ <-]. apply calm_refl. Qed.

Lemma keeps_raise {A} e : keeps calm (raise e : M A).
Proof. apply keeps_lift. Qed.

Lemma keeps_bind {A B} (m : M A) (f : A -> M B) :
  keeps calm m -> (forall a, keeps calm (f a)) -> keeps calm (m ≫= f).
Proof.
  intros Hm Hf s r s' H.
  apply bind_inv in H as [(a & s1 & H1 & H2)|(e & H1 & _)].
  - eapply calm_trans; [eapply Hm, H1|eapply Hf, H2].
  - eapply Hm, H1.
Qed.

Lemma keeps_try_except {A} (body : M A) h :
  keeps calm body -> (forall c, keeps calm (h c)) ->
  keeps calm (try_except body h).
Proof.
  intros Hb Hh s r s' H. unfold try_except in H.
  destruct (body s) as [[a|[c|code|]] s1] eqn:E;
    try (injection H as <- <-; eapply Hb, E).
  eapply calm_trans; [eapply Hb, E|eapply Hh, H].
Qed.

Lemma keeps_randbits64 W : keeps calm (randbits64 W).
Proof.
  intros s r s' H. rewrite randbits64_run in H. injection H as _ <-.
  apply calm_push. reflexivity.
Qed.

Lemma keeps_requests_send W q : keeps calm (requests_send W q).
Proof.
  intros s r s' H. rewrite requests_send_run in H. injection H as _ <-.
  apply calm_push. reflexivity.
Qed.

Lemma keeps_urlopen W q : keeps calm (urlopen W q).
Proof.
  intros s r s' H. rewrite urlopen_run in H. injection H as _ <-.
  apply calm_push. reflexivity.
Qed.

Lemma keeps_response_json q : keeps calm (response_json q).
Proof. intros s r s' H. apply response_json_state in H as ->. apply calm_refl. Qed.

Lemma keeps_read_json q : keeps calm (read_json q).
Proof. intros s r s' H. apply read_json_state in H as ->. apply calm_refl. Qed.

Lemma keeps_raise_for_status q : keeps calm (raise_for_status q).
Proof.
  intros s r s' H. apply raise_for_status_state in H as ->. apply calm_refl.
Qed.

Lemma keeps_from_file W path : keeps calm (from_file W path).
Proof.
  intros s r s' H. rewrite from_file_state in H. injection H as _ <-.
  apply calm_refl.
Qed.

Lemma keeps_seal P W obj key :
  keeps calm (fixed_rmap_client.encrypt_to_server P W obj key).
Proof.
  intros s r s' H. rewrite encrypt_to_server_run in H.
  destruct (Json.dumps obj); injection H as _ <-.
  - apply calm_push. reflexivity.
  - apply calm_refl.
Qed.

Lemma decrypt_effect_calm {A} s (r : res A) s' : decrypt_effect s r s' -> calm s s'.
Proof.
  intros [->|[->|[-> _]]].
  - apply calm_refl.
  - split; [apply writes_quiet; reflexivity|reflexivity].
  - split; [apply writes_quiet; reflexivity|reflexivity].
Qed.

Lemma keeps_open_fixed P passphrase payload key :
  keeps calm (fixed_rmap_client.decrypt_from_server P passphrase payload key).
Proof.
  intros s r s' H. eapply decrypt_effect_calm, decrypt_from_server_effect, H.
Qed.

Lemma keeps_open_class P self payload :
  keeps calm (rmap_client_pdf_getting.decrypt_for_client P self payload).
Proof.
  intros s r s' H. eapply decrypt_effect_calm, decrypt_for_client_effect, H.
Qed.

Lemma keeps_unlock_probe {A} P key passphrase (a : A) :
  keeps calm (unlock P key passphrase (mret a)).
Proof.
  intros s r s' H. eapply decrypt_effect_calm, unlocked_body_effect, H.
  intros s0 r0 s1 [= _ <-]. reflexivity.
Qed.

Lemma keeps_seal_test P W key obj :
  keeps calm (rmap_client_test.encrypt_to_server P W key obj).
Proof. rewrite test_encrypt_to_server_eq. apply keeps_seal. Qed.

Lemma keeps_seal_pdf P W self obj :
  keeps calm (rmap_client_pdf_getting.encrypt_for_server P W self obj).
Proof. rewrite pdf_encrypt_for_server_eq. apply keeps_seal. Qed.

Lemma keeps_seal_group P W self obj :
  keeps calm (test_group_rmap.encrypt_to_target P W self obj).
Proof. rewrite group_encrypt_to_target_eq. apply keeps_seal. Qed.

Lemma keeps_open_test P passphrase key payload :
  keeps calm (rmap_client_test.decrypt_from_server P passphrase key payload).
Proof. rewrite test_decrypt_from_server_eq. apply keeps_open_fixed. Qed.

Lemma keeps_open_group P self payload :
  keeps calm (test_group_rmap.decrypt_from_target P self payload).
Proof. rewrite group_decrypt_from_target_eq. apply keeps_open_class. Qed.

(** Composition of the steps of a script. *)
Ltac calm_step :=
  first
    [ apply keeps_ret | apply keeps_lift | apply keeps_raise
    | apply keeps_randbits64 | apply keeps_requests_send | apply keeps_urlopen
    | apply keeps_response_json | apply keeps_read_json
    | apply keeps_raise_for_status | apply keeps_from_file
    | apply keeps_seal | apply keeps_open_fixed | apply keeps_open_class
    | apply keeps_seal_test | apply keeps_seal_pdf | apply keeps_seal_group
    | apply keeps_open_test | apply keeps_open_group
    | apply keeps_unlock_probe
    | apply keeps_bind; [|intros ?]
    | apply keeps_try_except; [|intros ?]
    | match goal with
      | |- keeps calm (if ?b then _ else _) => destruct b
      | |- keeps calm (match ?x with _ => _ end) => destruct x
      | |- keeps calm (let '(_, _) := ?x in _) => destruct x
      end ].

Ltac calm := repeat calm_step.

Lemma keeps_find_and_load W candidates :
  keeps calm (fixed_rmap_client.find_and_load W candidates).
Proof.
  induction candidates as [|c rest IH]; cbn [fixed_rmap_client.find_and_load].
  - calm.
  - calm; exact IH.
Qed.

Lemma keeps_fixed_message1 P W passphrase spk cpk :
  keeps calm (fixed_rmap_client.message1 P W passphrase spk cpk).
Proof. unfold fixed_rmap_client.message1. calm. Qed.

Lemma keeps_fixed_message2 P W spk nonce obj1 :
  keeps calm (fixed_rmap_client.message2 P W spk nonce obj1).
Proof. unfold fixed_rmap_client.message2. calm. Qed.

Lemma keeps_test_message1 P W passphrase spk cpk :
  keeps calm (rmap_client_test.message1 P W passphrase spk cpk).
Proof. unfold rmap_client_test.message1. calm. Qed.

Lemma keeps_test_message2 P W spk nonce obj1 :
  keeps calm (rmap_client_test.message2 P W spk nonce obj1).
Proof. unfold rmap_client_test.message2. calm. Qed.

Lemma keeps_test_load_keys W : keeps calm (rmap_client_test.load_keys W).
Proof. unfold rmap_client_test.load_keys. calm. Qed.

Lemma keeps_pdf_load_keys W : keeps calm (rmap_client_pdf_getting.load_keys W).
Proof. unfold rmap_client_pdf_getting.load_keys. calm. Qed.

Lemma keeps_pdf_unlock_test P passphrase key :
  keeps calm (rmap_client_pdf_getting.unlock_test P passphrase key).
Proof. unfold rmap_client_pdf_getting.unlock_test. calm. Qed.

Lemma keeps_pdf_step1 P W idm nonce :
  keeps calm (rmap_client_pdf_getting.step1 P W idm nonce).
Proof. unfold rmap_client_pdf_getting.step1. calm. Qed.

Lemma keeps_pdf_verify_nonce nonce obj :
  keeps calm (rmap_client_pdf_getting.verify_nonce nonce obj).
Proof. unfold rmap_client_pdf_getting.verify_nonce. calm. Qed.

Lemma keeps_pdf_step2 P idm nonce payload :
  keeps calm (rmap_client_pdf_getting.step2 P idm nonce payload).
Proof. unfold rmap_client_pdf_getting.step2. calm. Qed.

Lemma keeps_pdf_step3 P W idm ns :
  keeps calm (rmap_client_pdf_getting.step3 P W idm ns).
Proof. unfold rmap_client_pdf_getting.step3. calm. Qed.

Lemma keeps_group_load_keys W : keeps calm (test_group_rmap.load_keys W).
Proof. unfold test_group_rmap.load_keys. calm. Qed.

Lemma keeps_group_unlock_test P passphrase key :
  keeps calm (test_group_rmap.unlock_test P passphrase key).
Proof. unfold test_group_rmap.unlock_test. calm. Qed.

Lemma keeps_group_step1 P W client nonce :
  keeps calm (test_group_rmap.step1 P W client nonce).
Proof. unfold test_group_rmap.step1. calm. Qed.

Lemma keeps_group_step2 P client nonce result :
  keeps calm (test_group_rmap.step2 P client nonce result).
Proof. unfold test_group_rmap.step2. calm. Qed.

Lemma keeps_group_step3 P W client ns :
  keeps calm (test_group_rmap.step3 P W client ns).
Proof. unfold test_group_rmap.step3. calm. Qed.

Lemma woi_of_calm {A} (ok : A -> bool) (m : M A) :
  keeps calm m -> writes_only_if ok m.
Proof.
  intros Hm s r s' H. apply Hm in H as [Hw Hl]. split; [exact Hl|auto].
Qed.

Lemma woi_bind {A B} (ok : B -> bool) (m : M A) (f : A -> M B) :
  keeps calm m -> (forall a, writes_only_if ok (f a)) ->
  writes_only_if ok (m ≫= f).
Proof.
  intros Hm Hf s r s' H.
  apply bind_inv in H as [(a & s1 & H1 & H2)|(e & H1 & _)].
  - apply Hm in H1 as [Hw Hl]. apply Hf in H2 as [Hl' [Hok|Hw']].
    + split; [intros Hs; auto|auto].
    + split; [intros Hs; auto|right; congruence].
  - apply Hm in H1 as [Hw Hl]. split; [exact Hl|auto].
Qed.

Lemma woi_try_except {A} (ok : A -> bool) (body : M A) h :
  writes_only_if ok body -> (forall c, keeps calm (h c)) ->
  writes_only_if ok (try_except body h).
Proof.
  intros Hb Hh s r s' H. unfold try_except in H.
  destruct (body s) as [[a|[c|code|]] s1] eqn:E;
    try (injection H as <- <-; eapply Hb, E).
  apply Hb in E as [Hl [(a & [=] & _)|Hw]].
  apply Hh in H as [Hw' Hl'].
  split; [intros Hs; auto|right; congruence].
Qed.

Lemma woi_write {A} (ok : A -> bool) W path data (a : A) :
  ok a = true -> writes_only_if ok (_ ← write_file W path data; mret a).
Proof.
  intros Hok s r s' H. rewrite bind_run, write_file_run in H.
  destruct (writable W path); injection H as <- <-.
  - split; [intros Hs; exact Hs|eauto].
  - split; [intros Hs; exact Hs|auto].
Qed.

Lemma woi_write_unit W path data :
  writes_only_if (fun _ : unit => true) (write_file W path data).
Proof.
  intros s r s' H. rewrite write_file_run in H.
  destruct (writable W path); injection H as <- <-.
  - split; [intros Hs; exact Hs|eauto].
  - split; [intros Hs; exact Hs|auto].
Qed.

Ltac woi_step :=
  first
    [ apply woi_write; reflexivity
    | apply woi_write_unit
    | apply woi_bind; [solve [calm]|intros ?]
    | apply woi_try_except; [|intros ?; solve [calm]]
    | match goal with
      | |- writes_only_if _ (if ?b then _ else _) => destruct b
      | |- writes_only_if _ (match ?x with _ => _ end) => destruct x
      end
    | apply woi_of_calm; solve [calm] ].

Ltac woi := repeat woi_step.

Lemma woi_fixed_main P W passphrase :
  writes_only_if (fun b : bool => b) (fixed_rmap_client.main P W passphrase).
Proof.
  unfold fixed_rmap_client.main.
  apply woi_bind.
  { unfold fixed_rmap_client.test_server_connectivity. calm. }
  intros reachable. destruct (negb reachable); [woi|].
  apply woi_bind; [apply keeps_find_and_load|].
  intros [[spk path]|]; [|woi].
  apply woi_bind.
  { unfold fixed_rmap_client.load_and_verify_client_key. calm. }
  intros [cpk|]; [|woi].
  destruct (negb _); [woi|].
  unfold fixed_rmap_client.handshake.
  apply woi_try_except; [|intros ?; calm].
  apply woi_bind; [apply keeps_fixed_message1|].
  intros [[nonce obj1]|]; [|woi].
  apply woi_bind; [apply keeps_fixed_message2|].
  intros [link|]; [|woi].
  unfold fixed_rmap_client.download. woi.
Qed.

Lemma woi_test_script P W passphrase :
  writes_only_if (fun _ : unit => true) (rmap_client_test.script P W passphrase).
Proof.
  unfold rmap_client_test.script.
  apply woi_bind; [apply keeps_test_load_keys|]. intros keys.
  unfold rmap_client_test.handshake.
  apply woi_bind; [apply keeps_test_message1|]. intros first.
  apply woi_bind; [apply keeps_test_message2|]. intros link.
  unfold rmap_client_test.download. woi.
Qed.

Lemma woi_pdf_main P W passphrase :
  writes_only_if (fun _ : unit => true)
    (rmap_client_pdf_getting.main P W passphrase).
Proof.
  unfold rmap_client_pdf_getting.main.
  apply woi_bind; [apply keeps_pdf_load_keys|]. intros keys.
  apply woi_bind; [apply keeps_pdf_unlock_test|]. intros _.
  apply woi_bind; [apply keeps_randbits64|]. intros nonce.
  apply woi_bind; [apply keeps_pdf_step1|]. intros payload.
  apply woi_bind; [apply keeps_pdf_step2|]. intros ns.
  apply woi_bind; [apply keeps_pdf_step3|]. intros link.
  unfold rmap_client_pdf_getting.step4. woi.
Qed.

Lemma woi_group_main P W passphrase :
  writes_only_if (fun b : bool => b) (test_group_rmap.main P W passphrase).
Proof.
  unfold test_group_rmap.main.
  apply woi_bind; [apply keeps_group_load_keys|].
  intros [[priv pub]|]; [|woi].
  apply woi_bind; [apply keeps_group_unlock_test|]. intros opened.
  destruct (negb opened); [woi|].
  apply woi_bind; [apply keeps_randbits64|]. intros nonce.
  apply woi_bind; [apply keeps_group_step1|].
  intros [result|]; [|woi].
  apply woi_bind; [apply keeps_group_step2|].
  intros [ns|]; [|woi].
  apply woi_bind; [apply keeps_group_step3|].
  intros [link|]; [|woi].
  unfold test_group_rmap.step4. woi.
Qed.

(** X23.  At the end of a run of any of the four scripts the private key is
    locked, whether the run returns, exits or raises. *)
Theorem every_run_ends_locked
    (P : OpenPGP) (W : World) (passphrase : option str) :
  unlocked (snd (fixed_rmap_client.main P W passphrase initial)) = false
  /\ unlocked (snd (rmap_client_test.script P W passphrase initial)) = false
  /\ unlocked (snd (rmap_client_pdf_getting.main P W passphrase initial)) = false
  /\ unlocked (snd (test_group_rmap.main P W passphrase initial)) = false.
Proof.
  repeat split.
  - destruct (fixed_rmap_client.main P W passphrase initial) as [r s'] eqn:E.
    apply woi_fixed_main in E as [Hl _]. apply Hl. reflexivity.
  - destruct (rmap_client_test.script P W passphrase initial) as [r s'] eqn:E.
    apply woi_test_script in E as [Hl _]. apply Hl. reflexivity.
  - destruct (rmap_client_pdf_getting.main P W passphrase initial)
      as [r s'] eqn:E.
    apply woi_pdf_main in E as [Hl _]. apply Hl. reflexivity.
  - destruct (test_group_rmap.main P W passphrase initial) as [r s'] eqn:E.
    apply woi_group_main in E as [Hl _]. apply Hl. reflexivity.
Qed.

(** X24.  A run that does not come to its successful end leaves no file
    behind: in each of the four scripts, unless [main] returns [True]
    (or, where it returns nothing, runs to its end), nothing was
    written, whatever made the run stop. *)
Theorem failed_run_writes_nothing
    (P : OpenPGP) (W : World) (passphrase : option str) :
  (fst (fixed_rmap_client.main P W passphrase initial) <> Ret true ->
   writes (trace (snd (fixed_rmap_client.main P W passphrase initial))) = [])
  /\ (fst (rmap_client_test.script P W passphrase initial) <> Ret tt ->
      writes (trace (snd (rmap_client_test.script P W passphrase initial))) = [])
  /\ (fst (rmap_client_pdf_getting.main P W passphrase initial) <> Ret tt ->
      writes (trace (snd (rmap_client_pdf_getting.main P W passphrase initial)))
      = [])
  /\ (fst (test_group_rmap.main P W passphrase initial) <> Ret true ->
      writes (trace (snd (test_group_rmap.main P W passphrase initial))) = []).
Proof.
  repeat split.
  - destruct (fixed_rmap_client.main P W passphrase initial) as [r s'] eqn:E.
    cbn [fst snd]. intros Hr.
    apply woi_fixed_main in E as [_ [(a & -> & Ha)|Hw]]; [|exact Hw].
    cbn beta in Ha. subst a. congruence.
  - destruct (rmap_client_test.script P W passphrase initial) as [r s'] eqn:E.
    cbn [fst snd]. intros Hr.
    apply woi_test_script in E as [_ [([] & -> & _)|Hw]]; [|exact Hw].
    congruence.
  - destruct (rmap_client_pdf_getting.main P W passphrase initial)
      as [r s'] eqn:E.
    cbn [fst snd]. intros Hr.
    apply woi_pdf_main in E as [_ [([] & -> & _)|Hw]]; [|exact Hw].
    congruence.
  - destruct (test_group_rmap.main P W passphrase initial) as [r s'] eqn:E.
    cbn [fst snd]. intros Hr.
    apply woi_group_main in E as [_ [(a & -> & Ha)|Hw]]; [|exact Hw].
    cbn beta in Ha. subst a. congruence.
Qed.

Lemma failed_run_writes_nothing_witness :
  writes (trace (snd (fixed_rmap_client.main Toy.cipher Toy.mismatch
                        Toy.passphrase initial))) = []
  /\ writes (trace (snd (rmap_client_test.script Toy.cipher Toy.mismatch
                           Toy.passphrase initial))) = []
  /\ writes (trace (snd (rmap_client_pdf_getting.main Toy.cipher Toy.mismatch
                           Toy.passphrase initial))) = []
  /\ writes (trace (snd (test_group_rmap.main Toy.cipher Toy.mismatch
                           Toy.passphrase initial))) = [].
Proof.
  destruct (failed_run_writes_nothing Toy.cipher Toy.mismatch Toy.passphrase)
    as (H1 & H2 & H3 & H4).
  split; [|split; [|split]];
    [apply H1|apply H2|apply H3|apply H4]; vm_compute; discriminate.
Defined.

